(** * Athena: a shallow embedding of the chat engine, the SSH executor, the
    scheduler and the chat endpoints, with the properties checked against
    them.

    Sources embedded here:
    - [chat_engine.py]: [parse_user_intent], [generate_execution_narrative],
      [resolve_node], [generate_rule_card_text], [analyze_output_with_llm];
    - [executor.py]: [SSHExecutor.run_command], [execute_command_on_server],
      [execute_on_servers], [execute_runbook];
    - [scheduler.py]: [execute_runbook_job], [schedule_runbook],
      [unschedule_runbook], and the entries of [get_scheduled_jobs];
    - [api.py]: [execute_runbook_endpoint], [schedule_runbook_endpoint],
      [unschedule_runbook_endpoint];
    - [chat_api.py]: [get_known_nodes], [save_chat_message],
      [upload_nodes_file], [get_report], [send_message], [execute_rule],
      [stream_execution] with its inner [process_node],
      [sequential_runner] and consumer loop.

    Conventions.  A Python [str] is the Rocq string of its UTF-8 bytes.
    The character classes [\d] and [\s], [str.strip], [str.split] and the
    changes of case are those of ASCII, so that the model is exact for the
    texts whose digits, white space and letters are ASCII characters.  A
    Python dict that comes out of [json.loads] or of [csv.DictReader] is an
    association list in insertion order.  Remote hosts, the LLM client,
    [json.loads], the decryption of a credential, [CronTrigger] and the
    reading of an uploaded file are the environment: a record or an
    argument says how each such call ends.  Time stamps are left out. *)

From Stdlib Require Import ZArith Ascii Lia.
From Stdlib Require String.
From stdpp Require Import base option list gmap strings pretty.

Local Open Scope Z_scope.

(* ================================================================== *)
(** ** Python values and strings *)
(* ================================================================== *)

(** The JSON fragment of Python values ([float] is left out: no code path
  below computes with one). *)
#[local] Unset Elimination Schemes.
Inductive pyval : Type :=
| PNone
| PBool (b : bool)
| PInt (z : Z)
| PStr (s : string)
| PList (l : list pyval)
| PDict (d : list (string * pyval)).
#[local] Set Elimination Schemes.

Abbreviation pydict := (list (string * pyval)).

Module Py.

(** [d.get(k)], as an option, on a dict in insertion order. *)
Fixpoint lookup (k : string) (d : pydict) : option pyval :=
  match d with
  | [] => None
  | (k', v) :: d' => if String.eqb k k' then Some v else lookup k d'
  end.

(** [d.get(k, default)]. *)
Definition get_or (k : string) (default : pyval) (d : pydict) : pyval :=
  match lookup k d with Some v => v | None => default end.

(** [d.get(k)]: [None] when the key is absent. *)
Definition get (k : string) (d : pydict) : pyval := get_or k PNone d.

(** Truth value of an object, as [if x:] and [x or y] test it. *)
Definition truthy (v : pyval) : bool :=
  match v with
  | PNone => false
  | PBool b => b
  | PInt z => negb (z =? 0)
  | PStr s => negb (String.eqb s "")
  | PList l => match l with [] => false | _ => true end
  | PDict d => match d with [] => false | _ => true end
  end.

(** [x or y]. *)
Definition or_else (x y : pyval) : pyval := if truthy x then x else y.

(** [v == s] for a string literal [s]. *)
Definition eq_str (v : pyval) (s : string) : bool :=
  match v with PStr t => String.eqb t s | _ => false end.

(** Name of the type, as it appears in an [AttributeError]. *)
Definition type_name (v : pyval) : string :=
  match v with
  | PNone => "NoneType"
  | PBool _ => "bool"
  | PInt _ => "int"
  | PStr _ => "str"
  | PList _ => "list"
  | PDict _ => "dict"
  end.

(** [str.isdigit] on one character, which is what [\d] matches. *)
Definition is_digit (c : ascii) : bool :=
  let n := N_of_ascii c in ((48 <=? n) && (n <=? 57))%N.

(** [str.isspace] on one character, which is what [\s] matches and
    [str.strip()] removes: tab, line feed, vertical tab, form feed,
    carriage return, the four separators FS GS RS US, and the space. *)
Definition is_space (c : ascii) : bool :=
  let n := N_of_ascii c in
  (((9 <=? n) && (n <=? 13)) || ((28 <=? n) && (n <=? 32)))%N.

Fixpoint lstrip (s : string) : string :=
  match s with
  | String c s' => if is_space c then lstrip s' else s
  | EmptyString => EmptyString
  end.

(** [rstrip] keeps a character when it is not a space or when something
    that is kept follows it. *)
Fixpoint rstrip (s : string) : string :=
  match s with
  | EmptyString => EmptyString
  | String c s' =>
      match rstrip s' with
      | EmptyString => if is_space c then EmptyString else String c EmptyString
      | r => String c r
      end
  end.

(** [s.strip()]. *)
Definition strip (s : string) : string := rstrip (lstrip s).

(** [s.startswith(p)]. *)
Fixpoint startswith (p s : string) : bool :=
  match p with
  | EmptyString => true
  | String a p' =>
      match s with
      | String b s' => Ascii.eqb a b && startswith p' s'
      | EmptyString => false
      end
  end.

(** [p in s] for two strings. *)
Fixpoint contains (p s : string) : bool :=
  startswith p s ||
  match s with
  | EmptyString => false
  | String _ s' => contains p s'
  end.

(** The first [n] characters and what follows them. *)
Fixpoint take (n : nat) (s : string) : string :=
  match n, s with
  | S n', String c s' => String c (take n' s')
  | _, _ => EmptyString
  end.

Fixpoint drop (n : nat) (s : string) : string :=
  match n, s with
  | S n', String _ s' => drop n' s'
  | _, _ => s
  end.

(** [str(n)] for an integer. *)
Definition str_int (z : Z) : string := pretty z.

Definition dquote : ascii := "034"%char.
Definition squote : ascii := "'"%char.

Fixpoint has_char (c : ascii) (s : string) : bool :=
  match s with
  | EmptyString => false
  | String c' s' => Ascii.eqb c c' || has_char c s'
  end.

Definition hex_digit (n : N) : ascii :=
  ascii_of_N (if (n <? 10)%N then 48 + n else 87 + n).

(** One character inside [repr] of a string delimited by [q]. *)
Definition repr_char (q c : ascii) : string :=
  let n := N_of_ascii c in
  if Ascii.eqb c "\"%char then "\\"
  else if Ascii.eqb c q then String "\"%char (String q EmptyString)
  else if (n =? 10)%N then "\n"
  else if (n =? 13)%N then "\r"
  else if (n =? 9)%N then "\t"
  else if ((n <? 32) || (n =? 127))%N
       then "\x" +:+ String (hex_digit (n / 16)) (String (hex_digit (n mod 16)) EmptyString)
  else String c EmptyString.

Fixpoint repr_chars (q : ascii) (s : string) : string :=
  match s with
  | EmptyString => EmptyString
  | String c s' => repr_char q c +:+ repr_chars q s'
  end.

(** [repr(s)] for a string: single quotes, unless the string has a single
    quote and no double quote. *)
Definition repr_str (s : string) : string :=
  let q := if has_char squote s && negb (has_char dquote s) then dquote else squote in
  String q (repr_chars q s +:+ String q EmptyString).

(** [repr(v)]. *)
Fixpoint repr (v : pyval) : string :=
  match v with
  | PNone => "None"
  | PBool true => "True"
  | PBool false => "False"
  | PInt z => str_int z
  | PStr s => repr_str s
  | PList l =>
      "[" +:+
      (fix items (l : list pyval) : string :=
         match l with
         | [] => ""
         | x :: l' =>
             repr x +:+ match l' with [] => "" | _ => ", " +:+ items l' end
         end) l +:+ "]"
  | PDict d =>
      "{" +:+
      (fix items (d : list (string * pyval)) : string :=
         match d with
         | [] => ""
         | (k, x) :: d' =>
             repr_str k +:+ ": " +:+ repr x +:+
             match d' with [] => "" | _ => ", " +:+ items d' end
         end) d +:+ "}"
  end.

(** [str(v)], which is also how an f-string formats [v]. *)
Definition str (v : pyval) : string :=
  match v with PStr s => s | _ => repr v end.

(** An optional string as the Python value it stands for. *)
Definition of_opt (o : option string) : pyval :=
  match o with Some s => PStr s | None => PNone end.

End Py.

(* ================================================================== *)
(** ** Calls into the environment *)
(* ================================================================== *)

(** The exception classes that the [except] clauses of the sources tell
  apart: [asyncio.TimeoutError], [asyncssh.Error], and every other
  subclass of [Exception].  [exn_msg] is [str(e)]. *)
Inductive exn_class := TimeoutError | SSHError | OtherError.

Record exn := Exn { exn_cls : exn_class; exn_msg : string }.

(** How a call that always ends can end. *)
Inductive outcome (A : Type) :=
| Returns (a : A)
| Raises (e : exn).
Arguments Returns {A} a.
Arguments Raises {A} e.

(** How an awaited remote command can end: it completes after [t] seconds,
  it raises, or it never completes. *)
Inductive awaited (A : Type) :=
| Completes (t : Z) (a : A)
| Fails (t : Z) (e : exn)
| Hangs.
Arguments Completes {A} t a.
Arguments Fails {A} t e.
Arguments Hangs {A}.

(** [asyncio.wait_for(aw, timeout)]: what [aw] does within [timeout]
  seconds, and [asyncio.TimeoutError] otherwise. *)
Definition wait_for {A} (aw : awaited A) (timeout : Z) : outcome A :=
match aw with
| Completes t a => if t <? timeout then Returns a else Raises (Exn TimeoutError "")
| Fails t e => if t <? timeout then Raises e else Raises (Exn TimeoutError "")
| Hangs => Raises (Exn TimeoutError "")
end.

(** [await aw] with no timeout around it: [None] when it never resumes. *)
Definition await {A} (aw : awaited A) : option (outcome A) :=
match aw with
| Completes _ a => Some (Returns a)
| Fails _ e => Some (Raises e)
| Hangs => None
end.

(** Sequencing of calls that may raise: the first exception ends the
  block.  This gives the [x ← m; k] notation on [outcome]. *)
#[global] Instance outcome_bind : MBind outcome := λ A B k m,
match m with
| Returns a => k a
| Raises e => Raises e
end.

(** What [asyncssh] is asked to connect with, and what a finished remote
  command gives back ([SSHCompletedProcess]). *)
Inductive client_key :=
| ImportedKey (pem : string)    (* asyncssh.import_private_key(pem) *)
| KeyFile (path : string).      (* a path under ~/.ssh              *)

Record connect_options := ConnectOptions {
co_host : option string;
co_port : option Z;
co_username : string;
co_password : option string;
co_client_keys : option (list client_key)
}.

Record completed_process := CompletedProcess {
exit_status : Z;
cp_stdout : string;
cp_stderr : string
}.

(* ================================================================== *)
(** ** The regular expressions of [chat_engine.py] *)
(* ================================================================== *)

(** The four patterns of the module use literals, a greedy bounded
  repetition of one character class, [^] and [$].  [Regex] is a
  backtracking matcher for exactly that fragment, with the semantics of
  Python's [re]: repetitions are greedy and give back one character at a
  time, [^] matches at offset 0 only, and [$] matches at the end of the
  string and just before a line feed that ends the string. *)
Module Regex.

Inductive cclass := Digit | Space | Only (c : ascii).

Definition in_class (k : cclass) (c : ascii) : bool :=
  match k with
  | Digit => Py.is_digit c
  | Space => Py.is_space c
  | Only c' => Ascii.eqb c c'
  end.

Inductive atom :=
  | Lit (c : ascii)                                (* one literal character *)
  | Rep (k : cclass) (lo : nat) (hi : option nat)  (* k{lo,hi}, greedy      *)
  | Bol                                            (* ^                     *)
  | Eol.                                           (* $                     *)

Definition regex := list atom.

(** Length of the longest prefix of [s] made of characters of [k], cut at
    [hi] characters when the repetition is bounded. *)
Fixpoint run (k : cclass) (hi : option nat) (s : string) : nat :=
  match hi, s with
  | Some O, _ => O
  | _, EmptyString => O
  | _, String c s' =>
      if in_class k c
      then S (run k (match hi with Some (S h) => Some h | _ => None end) s')
      else O
  end.

Definition at_eol (s : string) : bool :=
  match s with
  | EmptyString => true
  | String c EmptyString => Ascii.eqb c "010"%char
  | _ => false
  end.

(** A greedy repetition that took [n] characters: the rest of the pattern
    ([rest n], when the repetition keeps [n] characters) is tried with all
    of them, then with one less, and so on down to [lo]. *)
Fixpoint give_back (rest : nat -> option nat) (lo n : nat) : option nat :=
  match (if (lo <=? n)%nat then rest n else None) with
  | Some m => Some (n + m)%nat
  | None => match n with O => None | S n' => give_back rest lo n' end
  end.

(** [match_here p start s]: the pattern [p] matched against a suffix [s]
    of the subject, [start] telling whether [s] is the whole subject.
    The result is the number of characters of the first match that the
    backtracking search finds. *)
Fixpoint match_here (p : regex) (start : bool) (s : string) : option nat :=
  match p with
  | [] => Some O
  | Lit c :: p' =>
      match s with
      | String c' s' =>
          if Ascii.eqb c c' then S <$> match_here p' false s' else None
      | EmptyString => None
      end
  | Bol :: p' => if start then match_here p' start s else None
  | Eol :: p' => if at_eol s then match_here p' start s else None
  | Rep k lo hi :: p' =>
      give_back (fun n => match_here p' (start && (n =? 0)%nat) (Py.drop n s))
                lo (run k hi s)
  end.

(** [re.match(p, s)] as a truth value. *)
Definition matches (p : regex) (s : string) : bool :=
  match match_here p true s with Some _ => true | None => false end.

(** [re.search(p, s)]: offset and length of the leftmost match. *)
Fixpoint search_from (p : regex) (start : bool) (off : nat) (s : string)
  : option (nat * nat) :=
  match match_here p start s with
  | Some n => Some (off, n)
  | None =>
      match s with
      | EmptyString => None
      | String _ s' => search_from p false (S off) s'
      end
  end.

Definition search (p : regex) (s : string) : option (nat * nat) :=
  search_from p true O s.

(** [re.sub(p, '', s)] for a pattern that never matches the empty string:
    every match, left to right and not overlapping, is removed.  [skip]
    counts the characters of the current match still to be dropped. *)
Fixpoint sub_go (p : regex) (skip : nat) (start : bool) (s : string) : string :=
  match s with
  | EmptyString => EmptyString
  | String c s' =>
      match skip with
      | S k => sub_go p k false s'
      | O =>
          match match_here p start s with
          | Some (S n) => sub_go p n false s'
          | _ => String c (sub_go p O false s')
          end
      end
  end.

Definition sub_empty (p : regex) (s : string) : string := sub_go p O true s.

End Regex.

(* ================================================================== *)
(** ** [chat_engine.py] *)
(* ================================================================== *)

Module ChatEngine.

Import Regex.

Definition octet : atom := Rep Digit 1 (Some 3%nat).
Definition dot : atom := Lit ".".

(** [\d{1,3}\.\d{1,3}\.\d{1,3}\.\d{1,3}] *)
Definition dotted_quad : regex := [octet; dot; octet; dot; octet; dot; octet].

(** [ip_pattern = r'\((\d{1,3}\.\d{1,3}\.\d{1,3}\.\d{1,3})\)'] *)
Definition ip_pattern : regex := (Lit "(" :: dotted_quad ++ [Lit ")"])%list.

(** [r'^\d{1,3}\.\d{1,3}\.\d{1,3}\.\d{1,3}$'] *)
Definition direct_ip_pattern : regex := (Bol :: dotted_quad ++ [Eol])%list.

(** [resolve_node(node_name, known_nodes)].  Group 1 of [ip_pattern] is
    the match without its two parentheses. *)
Definition resolve_node (node_name : string) (known_nodes : gmap string pydict)
  : bool * option pydict :=
  match known_nodes !! node_name with
  | Some cfg => (true, Some cfg)
  | None =>
      match search ip_pattern node_name with
      | Some (off, n) =>
          let ip := Py.take (n - 2) (Py.drop (S off) node_name) in
          let clean_name := Py.strip (sub_empty ip_pattern node_name) in
          (true, Some [("name", PStr (if String.eqb clean_name "" then node_name else clean_name));
                       ("hostname", PStr ip);
                       ("username", PStr "ubuntu");
                       ("port", PInt 22)])
      | None =>
          if matches direct_ip_pattern node_name
          then (true, Some [("name", PStr node_name);
                            ("hostname", PStr node_name);
                            ("username", PStr "ubuntu");
                            ("port", PInt 22)])
          else (false, None)
      end
  end.

(** [generate_execution_narrative(step, details)].  The source builds the
    whole table of f-strings and then looks [step] up in it, with [step]
    itself as the default. *)
Definition generate_execution_narrative (step : string) (details : option pydict)
  : string :=
  let details := match details with Some d => d | None => [] end in
  let node_name := Py.get_or "node" (PStr "node") details in
  let command := Py.get_or "command" (PStr "...") details in
  let value := Py.get_or "value" (PStr "N/A") details in
  let condition := Py.get_or "condition" (PStr "") details in
  let message := Py.get_or "message" (PStr "") details in
  let error := Py.get_or "error" (PStr "Unknown error") details in
  let narratives : list (string * string) :=
    [("connecting", "Connecting to " +:+ Py.str node_name +:+ "...");
     ("connected", "SSH connection established to " +:+ Py.str node_name);
     ("executing", "Running command: " +:+ Py.str command);
     ("output_received", "Output received successfully");
     ("analyzing", "Analyzing output...");
     ("value_extracted", "Extracted value: " +:+ Py.str value);
     ("condition_checking", "Checking condition: " +:+ Py.str condition);
     ("condition_met",
       "⚠️ Condition met: " +:+ Py.str (Py.or_else message (PStr "threshold exceeded")));
     ("condition_not_met",
       "✓ All clear: " +:+ Py.str (Py.or_else message (PStr "within normal range")));
     ("incident_raised", "🚨 Incident raised: " +:+ Py.str message);
     ("completed", "Execution completed successfully");
     ("failed", "Execution failed: " +:+ Py.str error)] in
  match
    (fix find (t : list (string * string)) : option string :=
       match t with
       | [] => None
       | (k, v) :: t' => if String.eqb step k then Some v else find t'
       end) narratives
  with
  | Some v => v
  | None => step
  end.

(** [r'^```json?\s*'] and [r'\s*```$'], the two patterns that take a
    Markdown fence off the reply of the model. *)
Definition fence_open : regex :=
  [Bol; Lit "`"; Lit "`"; Lit "`"; Lit "j"; Lit "s"; Lit "o";
   Rep (Only "n") 0 (Some 1%nat); Rep Space 0 None].

Definition fence_close : regex :=
  [Rep Space 0 None; Lit "`"; Lit "`"; Lit "`"; Eol].

Definition strip_fence (content : string) : string :=
  if Py.startswith "```" content
  then sub_empty fence_close (sub_empty fence_open content)
  else content.

(** The prompt that [analyze_output_with_llm] sends, line by line. *)
Definition nl : string := String "010"%char EmptyString.

Definition quoted (s : string) : string :=
  String Py.dquote s +:+ String Py.dquote EmptyString.

Definition analysis_prompt (output : string) (extraction_hint condition : pyval)
  : string :=
  "Analyze this command output and extract the relevant metric." +:+ nl +:+
  nl +:+
  "Output:" +:+ nl +:+
  output +:+ nl +:+
  nl +:+
  "Extraction hint: " +:+ Py.str extraction_hint +:+ nl +:+
  "Condition to check: " +:+ Py.str condition +:+ nl +:+
  nl +:+
  "Respond in JSON:" +:+ nl +:+
  "{" +:+ nl +:+
  "  " +:+ quoted "extracted_value" +:+ ": " +:+ quoted "the value found" +:+ "," +:+ nl +:+
  "  " +:+ quoted "condition_met" +:+ ": true/false," +:+ nl +:+
  "  " +:+ quoted "summary" +:+ ": " +:+ quoted "one line human readable summary" +:+ ","
       +:+ nl +:+
  "  " +:+ quoted "severity" +:+ ": " +:+ quoted "info" +:+ " | " +:+ quoted "warning"
       +:+ " | " +:+ quoted "critical" +:+ nl +:+
  "}".

(** The dict that the [except Exception] clause returns. *)
Definition degraded_analysis (e : exn) : pyval :=
  PDict [("extracted_value", PStr "unknown");
         ("condition_met", PBool false);
         ("summary", PStr ("Could not analyze: " +:+ exn_msg e));
         ("severity", PStr "info")].

(** The [try] block of [analyze_output_with_llm].  [chat] is this call of
    [client.chat.completions.create] followed by
    [response.choices[0].message.content]: it returns the text of the
    reply or raises.  [json_loads] is [json.loads]. *)
Definition analyze_try
    (chat : string -> outcome string) (json_loads : string -> outcome pyval)
    (prompt : string) : outcome pyval :=
  reply ← chat prompt;
  json_loads (strip_fence (Py.strip reply)).

(** [analyze_output_with_llm(output, extraction_hint, condition)]: the
    [try] block, and the [except Exception] clause around it. *)
Definition analyze_output_with_llm
    (chat : string -> outcome string) (json_loads : string -> outcome pyval)
    (output : string) (extraction_hint condition : pyval) : pyval :=
  match analyze_try chat json_loads (analysis_prompt output extraction_hint condition) with
  | Returns v => v
  | Raises e => degraded_analysis e
  end.

End ChatEngine.

(* ================================================================== *)
(** ** [executor.py] *)
(* ================================================================== *)

Module Executor.

Inductive AuthType := PASSWORD | PRIVATE_KEY.

Record Server := {
  server_id : Z;
  hostname : string;
  username : string;
  port : Z;
  auth_type : AuthType;
  encrypted_credential : string
}.

(** The dict that [run_command] returns. *)
Record command_result := CommandResult {
  status : string;
  stdout : string;
  stderr : string;
  exit_code : Z
}.

(** The environment of the executor.  A connection attempt always ends
    (the operating system and asyncssh's login timeout bound it); a remote
    command may run for ever. *)
Record Remote := {
  decrypt_credential : string -> outcome string;
  import_private_key : string -> outcome client_key;
  ssh_connect : connect_options -> outcome unit;
  conn_run : Server -> string -> awaited completed_process
}.

(** [SSHExecutor.connect]. *)
Definition connect (r : Remote) (server : Server) : outcome unit :=
  credential ← decrypt_credential r (encrypted_credential server);
  let base := ConnectOptions (Some (hostname server)) (Some (port server))
                             (username server) None None in
  match auth_type server with
  | PASSWORD =>
      ssh_connect r (ConnectOptions (co_host base) (co_port base) (co_username base)
                                    (Some credential) None)
  | PRIVATE_KEY =>
      key ← import_private_key r credential;
      ssh_connect r (ConnectOptions (co_host base) (co_port base) (co_username base)
                                    None (Some [key]))
  end.

(** The [try] block of [run_command]. *)
Definition run_command_try (r : Remote) (server : Server) (command : string)
    (timeout : Z) : outcome command_result :=
  _ ← connect r server;
  result ← wait_for (conn_run r server command) timeout;
  Returns (CommandResult (if exit_status result =? 0 then "SUCCESS" else "FAILED")
                         (cp_stdout result) (cp_stderr result) (exit_status result)).

(** [SSHExecutor.run_command(command, timeout)]: the [try] block and its
    three [except] clauses, tried in the order of the source. *)
Definition run_command (r : Remote) (server : Server) (command : string)
    (timeout : Z) : outcome command_result :=
  match run_command_try r server command timeout with
  | Returns res => Returns res
  | Raises e =>
      match exn_cls e with
      | TimeoutError =>
          Returns (CommandResult "FAILED" ""
                     ("Command timed out after " +:+ Py.str_int timeout +:+ " seconds") (-1))
      | SSHError =>
          Returns (CommandResult "FAILED" "" ("SSH error: " +:+ exn_msg e) (-1))
      | OtherError =>
          Returns (CommandResult "FAILED" "" ("Unexpected error: " +:+ exn_msg e) (-1))
      end
  end.

Definition default_timeout : Z := 300.

(** A result with the two keys that [execute_on_server] adds. *)
Record server_result := ServerResult {
  sr_server_id : Z;
  sr_hostname : string;
  sr_result : command_result
}.

(** [execute_on_server(server, command)]. *)
Definition execute_on_server (r : Remote) (server : Server) (command : string)
  : outcome server_result :=
  result ← run_command r server command default_timeout;
  Returns (ServerResult (server_id server) (hostname server) result).

(** [execute_on_servers(servers, command)]: [gather] with
    [return_exceptions=True], then one entry per server. *)
Definition execute_on_servers (r : Remote) (servers : list Server) (command : string)
  : list server_result :=
  map (fun server =>
         match execute_on_server r server command with
         | Returns res => res
         | Raises e =>
             ServerResult (server_id server) (hostname server)
                          (CommandResult "FAILED" "" (exn_msg e) (-1))
         end) servers.

Inductive ExecutionStatus := PENDING | RUNNING | SUCCESS | FAILED | PARTIAL.

Record Command := {
  command_id : Z;
  script : string;
  is_universal : bool;
  command_server_id : option Z
}.

(** A row written by [ExecutionCRUD.add_result]. *)
Record execution_result := {
  er_execution_id : Z;
  er_server_id : Z;
  er_command_id : Z;
  er_status : ExecutionStatus;
  er_stdout : string;
  er_stderr : string;
  er_exit_code : Z;
  er_ai_summary : pyval;
  er_ai_signals : pyval;
  er_ai_resources : pyval
}.

(** The tables that [execute_runbook] reads and writes. *)
Record Store := {
  runbooks : gset Z;
  runbook_servers : gmap Z (list Server);
  runbook_commands : gmap Z (list Command);
  executions : gmap Z ExecutionStatus;
  results : list execution_result
}.

(** [ExecutionCRUD.update_status]: nothing happens when the execution is
    not in the table. *)
Definition update_status (st : Store) (execution_id : Z) (s : ExecutionStatus) : Store :=
  {| runbooks := runbooks st;
     runbook_servers := runbook_servers st;
     runbook_commands := runbook_commands st;
     executions := alter (fun _ => s) execution_id (executions st);
     results := results st |}.

Definition add_result (st : Store) (row : execution_result) : Store :=
  {| runbooks := runbooks st;
     runbook_servers := runbook_servers st;
     runbook_commands := runbook_commands st;
     executions := executions st;
     results := results st ++ [row] |}.

(** The loop state of [execute_runbook]. *)
Record progress := Progress {
  all_success : bool;
  any_success : bool;
  store : Store
}.

(** The body of [for result in results]. *)
Definition process_result
    (ai : string -> string -> outcome pydict)
    (execution_id : Z) (command : Command) (p : progress) (result : server_result)
  : progress :=
  let res := sr_result result in
  let ok := String.eqb (status res) "SUCCESS" in
  let ai_analysis : pydict :=
    if ok && negb (String.eqb (stdout res) "")
    then match ai (script command) (stdout res) with
         | Returns d => d
         | Raises _ => [("summary", PStr "AI analysis unavailable"); ("signals", PList [])]
         end
    else [] in
  Progress (if ok then all_success p else false)
           (if ok then true else any_success p)
           (add_result (store p)
              {| er_execution_id := execution_id;
                 er_server_id := sr_server_id result;
                 er_command_id := command_id command;
                 er_status := if ok then SUCCESS else FAILED;
                 er_stdout := stdout res;
                 er_stderr := stderr res;
                 er_exit_code := exit_code res;
                 er_ai_summary := Py.get "summary" ai_analysis;
                 er_ai_signals := Py.get_or "signals" (PList []) ai_analysis;
                 er_ai_resources := Py.get_or "resources" (PList []) ai_analysis |}).

(** The servers a command runs on. *)
Definition target_servers (servers : list Server) (command : Command) : list Server :=
  if is_universal command then servers
  else filter (fun s => command_server_id command = Some (server_id s)) servers.

(** The body of [for command in commands]. *)
Definition process_command
    (r : Remote) (ai : string -> string -> outcome pydict)
    (execution_id : Z) (servers : list Server) (p : progress) (command : Command)
  : progress :=
  foldl (process_result ai execution_id command) p
        (execute_on_servers r (target_servers servers command) (script command)).

Definition final_status (p : progress) : ExecutionStatus :=
  if all_success p then SUCCESS
  else if any_success p then PARTIAL
  else FAILED.

(** [execute_runbook(runbook_id, execution_id)]. *)
Definition execute_runbook
    (r : Remote) (ai : string -> string -> outcome pydict)
    (st : Store) (runbook_id execution_id : Z) : Store :=
  let st := update_status st execution_id RUNNING in
  if negb (bool_decide (runbook_id ∈ runbooks st))
  then update_status st execution_id FAILED
  else
    let servers := default [] (runbook_servers st !! runbook_id) in
    let commands := default [] (runbook_commands st !! runbook_id) in
    match servers, commands with
    | [], _ => update_status st execution_id FAILED
    | _, [] => update_status st execution_id FAILED
    | _, _ =>
        let p := foldl (process_command r ai execution_id servers)
                       (Progress true false st) commands in
        update_status (store p) execution_id (final_status p)
    end.

(** Every result that the two loops of [execute_runbook] go through, in
    order. *)
Definition all_results (r : Remote) (servers : list Server) (commands : list Command)
  : list server_result :=
  flat_map (fun command =>
              execute_on_servers r (target_servers servers command) (script command))
           commands.

(** [result["status"] == "SUCCESS"]. *)
Definition succeeded (res : server_result) : bool :=
  String.eqb (status (sr_result res)) "SUCCESS".

End Executor.

(* ================================================================== *)
(** ** [chat_api.py]: the node worker *)
(* ================================================================== *)

Module ChatApi.

Import ChatEngine.

(** A timeline event is the dict that the worker puts on the queue. *)
Abbreviation event := (list (string * pyval)).

(** Node and command configurations, as the rule schema of
    [chat_engine.SYSTEM_PROMPT] types them.  [None] is an absent key. *)
Record auth_config := {
  auth_type : option string;
  auth_username : option string;
  auth_password : option string
}.

Record node_config := {
  nc_name : option string;
  nc_hostname : option string;
  nc_auth : option auth_config
}.

Record cmd_config := {
  cmd : option string;
  logic : option string
}.

(** The environment of one run of [stream_execution].  Calls are told
    apart by the position [i] of the node in the plan and the position
    [k] of the command in the command list, so that two calls with equal
    arguments may end differently.  A connection attempt and a request to
    the LLM always end (they have time limits of their own); a remote
    command may run for ever. *)
Record World := {
  known_nodes : gmap string pydict;                        (* get_known_nodes()          *)
  path_exists : string -> bool;                            (* os.path.exists             *)
  import_private_key : string -> outcome client_key;       (* asyncssh.import_private_key *)
  ssh_connect : nat -> connect_options -> outcome unit;    (* asyncssh.connect           *)
  conn_run : nat -> nat -> option string -> awaited completed_process;  (* conn.run      *)
  chat : nat -> nat -> string -> outcome string;           (* the LLM client             *)
  json_loads : string -> outcome pyval                     (* json.loads                 *)
}.

(** How a coroutine ends: it returns, or it waits for ever. *)
Inductive termination := Done | Blocked.

(** How a block inside the [try] ends. *)
Inductive ending :=
  | Normal
  | Raised (e : exn)
  | Stuck.

Definition node_name_of (node : node_config) : string :=
  match nc_name node with
  | Some n => n
  | None => match nc_hostname node with Some h => h | None => "unknown" end
  end.

Definition username_of (node : node_config) : string :=
  match nc_auth node with
  | Some a => match auth_username a with Some u => u | None => "ubuntu" end
  | None => "ubuntu"
  end.

(** The credential the worker settles on: the inline password when the
    auth type is ["password"], else the stored credential of a known
    node of that name ([get_known_nodes] stores a string or [None]). *)
Definition credential_of (w : World) (node : node_config) : option string :=
  let auth_ty := match nc_auth node with Some a => auth_type a | None => None end in
  if bool_decide (auth_ty = Some "password")
  then match nc_auth node with Some a => auth_password a | None => None end
  else match known_nodes w !! node_name_of node with
       | Some cfg => match Py.get "credential" cfg with PStr s => Some s | _ => None end
       | None => None
       end.

Definition local_key_files : list string := ["id_rsa"; "id_ed25519"; "agent_vm_key"].

(** [~/.ssh/<key_file>] for the key files that exist. *)
Definition local_keys (w : World) : list string :=
  List.filter (path_exists w) (map (fun f => "~/.ssh/" +:+ f) local_key_files).

(** The options handed to [asyncssh.connect]; importing a private key may
    raise.  [if credential:] fails for [None] and for the empty string. *)
Definition connect_options_of (w : World) (node : node_config) : outcome connect_options :=
  let host := nc_hostname node in
  let user := username_of node in
  match credential_of w node with
  | Some (String c rest as credential) =>
      if Py.contains "-----BEGIN" credential
      then key ← import_private_key w credential;
           Returns (ConnectOptions host None user None (Some [key]))
      else Returns (ConnectOptions host None user (Some credential) None)
  | _ =>
      Returns (match local_keys w with
               | [] => ConnectOptions host None user None None
               | keys => ConnectOptions host None user None (Some (map KeyFile keys))
               end)
  end.

Definition narrate (step : string) (details : pydict) : pyval :=
  PStr (generate_execution_narrative step (Some details)).

Definition ev_connecting (node_name : string) : event :=
  [("type", PStr "step"); ("message", narrate "connecting" [("node", PStr node_name)])].

Definition ev_connected (node_name : string) : event :=
  [("type", PStr "step"); ("message", narrate "connected" [("node", PStr node_name)]);
   ("status", PStr "success")].

Definition ev_executing (node_name : string) (cmd_str : option string) : event :=
  [("type", PStr "step");
   ("message", narrate "executing" [("command", Py.of_opt cmd_str); ("node", PStr node_name)])].

Definition ev_output_received (node_name : string) : event :=
  [("type", PStr "step"); ("message", narrate "output_received" [("node", PStr node_name)]);
   ("status", PStr "success")].

Definition ev_analyzing (node_name : string) : event :=
  [("type", PStr "step"); ("message", narrate "analyzing" [("node", PStr node_name)])].

Definition ev_condition_met (node_name : string) (analysis : pydict) : event :=
  [("type", PStr "step");
   ("message", narrate "condition_met"
                 [("message", Py.get "summary" analysis); ("node", PStr node_name)]);
   ("status", PStr "warning")].

Definition ev_incident (node_name : string) (analysis : pydict) : event :=
  [("type", PStr "incident");
   ("message", narrate "incident_raised" [("message", Py.get "summary" analysis)]);
   ("severity", Py.get "severity" analysis);
   ("node", PStr node_name);
   ("details", PDict analysis)].

Definition ev_condition_not_met (node_name : string) (analysis : pydict) : event :=
  [("type", PStr "step");
   ("message", narrate "condition_not_met"
                 [("message", Py.get "summary" analysis); ("node", PStr node_name)]);
   ("status", PStr "success")].

Definition ev_error (node_name : string) (e : exn) : event :=
  [("type", PStr "error");
   ("message", narrate "failed" [("error", PStr (exn_msg e)); ("node", PStr node_name)])].

Definition ev_complete : event :=
  [("type", PStr "complete");
   ("message", PStr (generate_execution_narrative "completed" None))].

(** [analysis.get(...)] on something that is not a dict. *)
Definition no_get (v : pyval) : exn :=
  Exn OtherError ("'" +:+ Py.type_name v +:+ "' object has no attribute 'get'").

(** One turn of [for cmd_config in commands], for the command at position
    [k] on the node at position [i]: the events put on the queue, in
    order, and how the turn ends. *)
Definition run_one (w : World) (i k : nat) (node_name : string) (condition : string)
    (c : cmd_config) : list event * ending :=
  let cmd_str := cmd c in
  let cmd_logic := match logic c with Some l => l | None => "" end in
  match await (conn_run w i k cmd_str) with
  | None => ([ev_executing node_name cmd_str], Stuck)
  | Some (Raises e) => ([ev_executing node_name cmd_str], Raised e)
  | Some (Returns result) =>
      let analysis :=
        analyze_output_with_llm (chat w i k) (json_loads w)
          (cp_stdout result) (PStr cmd_logic) (PStr condition) in
      let upto_analysis :=
        [ev_executing node_name cmd_str; ev_output_received node_name;
         ev_analyzing node_name] in
      match analysis with
      | PDict d =>
          if Py.truthy (Py.get "condition_met" d)
          then (upto_analysis ++ [ev_condition_met node_name d; ev_incident node_name d],
                Normal)
          else (upto_analysis ++ [ev_condition_not_met node_name d], Normal)
      | v => (upto_analysis, Raised (no_get v))
      end
  end.

(** The [for] loop over the commands, from position [k] on: it stops at
    the first turn that does not end normally. *)
Fixpoint run_commands (w : World) (i k : nat) (node_name : string) (condition : string)
    (commands : list cmd_config) : list event * ending :=
  match commands with
  | [] => ([], Normal)
  | c :: rest =>
      match run_one w i k node_name condition c with
      | (evs, Normal) =>
          let '(evs', e) := run_commands w i (S k) node_name condition rest in
          (evs ++ evs', e)
      | stopped => stopped
      end
  end.

(** The [try] block of [process_node]. *)
Definition process_node_try (w : World) (i : nat) (node : node_config)
    (commands : list cmd_config) (condition : string) : list event * ending :=
  let node_name := node_name_of node in
  match connect_options_of w node with
  | Raises e => ([ev_connecting node_name], Raised e)
  | Returns opts =>
      match ssh_connect w i opts with
      | Raises e => ([ev_connecting node_name], Raised e)
      | Returns _ =>
          let '(evs, e) := run_commands w i O node_name condition commands in
          (ev_connecting node_name :: ev_connected node_name :: evs, e)
      end
  end.

(** [process_node(node_config, commands)] for the node at position [i]:
    every event the worker puts on the queue, in order, and how the
    coroutine ends.  The [except Exception] clause turns an exception
    into one more event. *)
Definition process_node (w : World) (i : nat) (node : node_config)
    (commands : list cmd_config) (condition : string) : list event * termination :=
  match process_node_try w i node commands condition with
  | (evs, Normal) => (evs, Done)
  | (evs, Raised e) => (evs ++ [ev_error (node_name_of node) e], Done)
  | (evs, Stuck) => (evs, Blocked)
  end.

(* ---------------------------------------------------------------- *)
(** *** The tasks, the queue and the consumer loop *)

(** An item of the queue.  The queue of the source holds [q_event] only;
    [q_task] (the task that put the item) and [q_node] (the position in
    the plan of the node it is about) are labels kept for the proofs. *)
Record qitem := QItem { q_task : nat; q_node : nat; q_event : event }.

(** A task: the items it has still to put, and how its coroutine ends
    once they are put. *)
Record task := Task { pending : list qitem; term : termination }.

(** [t.done()]. *)
Definition done (t : task) : bool :=
  match pending t, term t with
  | [], Done => true
  | _, _ => false
  end.

Definition tag (j i : nat) (evs : list event) : list qitem := map (QItem j i) evs.

(** [sequential_runner]: the nodes one after the other, from position [i]
    on, in a single task; a node that never returns keeps the runner from
    the nodes after it. *)
Fixpoint sequential_runner (w : World) (commands : list cmd_config) (condition : string)
    (i : nat) (nodes : list node_config) : list qitem * termination :=
  match nodes with
  | [] => ([], Done)
  | node :: rest =>
      match process_node w i node commands condition with
      | (evs, Done) =>
          let '(evs', t) := sequential_runner w commands condition (S i) rest in
          (tag 0 i evs ++ evs', t)
      | (evs, Blocked) => (tag 0 i evs, Blocked)
      end
  end.

(** The task of node [i] in parallel mode. *)
Definition node_task (w : World) (commands : list cmd_config) (condition : string)
    (i : nat) (node : node_config) : task :=
  let '(evs, t) := process_node w i node commands condition in
  Task (tag i i evs) t.

(** [tasks], as the two branches on [execution_mode] build it. *)
Definition spawn (w : World) (execution_mode : string) (nodes : list node_config)
    (commands : list cmd_config) (condition : string) : list task :=
  if String.eqb execution_mode "parallel"
  then imap (node_task w commands condition) nodes
  else
    let '(items, t) := sequential_runner w commands condition O nodes in
    [Task items t].

Inductive phase :=
  | Consuming    (* the [while finished_tasks < len(tasks)] loop *)
  | Draining     (* the [while not queue.empty()] loop           *)
  | Finalized.   (* past the last [yield]                        *)

(** The state of a run: the tasks, the queue, the local variables
    [timeline] and [finished_tasks] of the generator, and what it has
    yielded so far. *)
Record orch := Orch {
  tasks : list task;
  queue : list qitem;
  timeline : list event;
  yielded : list qitem;
  finished_tasks : nat;
  ph : phase
}.

Definition is_step (e : event) : bool := Py.eq_str (Py.get "type" e) "step".

(** What can happen next.  [Put j]: task [j] puts its next item.  [Get]
    and [Timeout]: the two ways [wait_for(queue.get(), timeout=0.5)] ends
    in the consumer loop.  [Leave]: the loop condition fails.  [DrainGet]
    and [Finish]: a turn of the draining loop, and its exit followed by
    the finalisation.  [Timeout] is not tied to an empty queue, so that
    the model also covers a timer that fires just as an item arrives. *)
Inductive label := Put (j : nat) | Get | Timeout | Leave | DrainGet | Finish.

Definition step (l : label) (s : orch) : option orch :=
  match l with
  | Put j =>
      match tasks s !! j with
      | Some (Task (q :: rest) t) =>
          Some (Orch (<[j := Task rest t]> (tasks s)) (queue s ++ [q])
                     (timeline s) (yielded s) (finished_tasks s) (ph s))
      | _ => None
      end
  | Get =>
      match ph s, queue s with
      | Consuming, q :: rest =>
          if (finished_tasks s <? length (tasks s))%nat
          then Some (Orch (tasks s) rest
                          (if is_step (q_event q) then timeline s ++ [q_event q]
                           else timeline s)
                          (yielded s ++ [q]) (finished_tasks s) Consuming)
          else None
      | _, _ => None
      end
  | Timeout =>
      match ph s with
      | Consuming =>
          if (finished_tasks s <? length (tasks s))%nat
          then Some (Orch (tasks s) (queue s) (timeline s) (yielded s)
                          (length (List.filter done (tasks s))) Consuming)
          else None
      | _ => None
      end
  | Leave =>
      match ph s with
      | Consuming =>
          if (finished_tasks s <? length (tasks s))%nat then None
          else Some (Orch (tasks s) (queue s) (timeline s) (yielded s)
                          (finished_tasks s) Draining)
      | _ => None
      end
  | DrainGet =>
      match ph s, queue s with
      | Draining, q :: rest =>
          Some (Orch (tasks s) rest (timeline s ++ [q_event q]) (yielded s ++ [q])
                     (finished_tasks s) Draining)
      | _, _ => None
      end
  | Finish =>
      match ph s, queue s with
      | Draining, [] =>
          Some (Orch (tasks s) [] (timeline s) (yielded s) (finished_tasks s) Finalized)
      | _, _ => None
      end
  end.

(** A run along a schedule. *)
Fixpoint run (ls : list label) (s : orch) : option orch :=
  match ls with
  | [] => Some s
  | l :: ls' => match step l s with Some s' => run ls' s' | None => None end
  end.

Definition start (ts : list task) : orch := Orch ts [] [] [] O Consuming.

(** [s] is a state of some run from the tasks [ts]. *)
Definition reachable (ts : list task) (s : orch) : Prop :=
  exists ls, run ls (start ts) = Some s.

(* ---------------------------------------------------------------- *)
(** *** The database and the two endpoints *)

Inductive RuleStatus := CREATED | EXECUTING | COMPLETED | FAILED.

Record AutomationRule := {
  nodes_json : list node_config;
  commands_json : list cmd_config;
  command : option string;
  extraction_hint : option string;
  condition : option string;
  execution_mode : option string
}.

(** Time stamps ([started_at], [completed_at]) are left out. *)
Record RuleExecution := {
  rule_id : Z;
  status : RuleStatus;
  timeline_json : list event
}.

Record Db := {
  rules : gmap Z AutomationRule;
  rule_executions : gmap Z RuleExecution
}.

(** [execute_rule(rule_id)]: [None] is the 404 response; otherwise the
    identifier of the new execution record and the database with it. *)
Definition execute_rule (db : Db) (rid : Z) : option (Z * Db) :=
  match rules db !! rid with
  | None => None
  | Some _ =>
      let id := fresh (dom (rule_executions db)) in
      Some (id, {| rules := rules db;
                   rule_executions :=
                     <[id := {| rule_id := rid; status := EXECUTING; timeline_json := [] |}]>
                       (rule_executions db) |})
  end.

(** [x or default] on an optional string. *)
Definition str_or (x : option string) (default : string) : string :=
  match x with
  | Some (String c rest as s) => s
  | _ => default
  end.

(** [commands_config], with the fallback for rules that only have the
    legacy [command] column. *)
Definition commands_config_of (rule : AutomationRule) : list cmd_config :=
  match commands_json rule, command rule with
  | [], Some (String c rest as legacy) =>
      [{| cmd := Some legacy;
          logic := Some (str_or (extraction_hint rule) "Execute command") |}]
  | cs, _ => cs
  end.

(** The tasks that [stream_execution] starts for [rule]. *)
Definition tasks_of (w : World) (rule : AutomationRule) : list task :=
  spawn w (str_or (execution_mode rule) "sequential") (nodes_json rule)
        (commands_config_of rule) (str_or (condition rule) "Check for errors").

(** The [# Finalize] block. *)
Definition finalize (db : Db) (execution_id : Z) (execution : RuleExecution) (s : orch)
  : Db :=
  {| rules := rules db;
     rule_executions :=
       <[execution_id := {| rule_id := rule_id execution; status := COMPLETED;
                            timeline_json := timeline s |}]> (rule_executions db) |}.

(** [stream_execution(execution_id)] as a relation between the database
    before, and the stream of server-sent events and the database after,
    for every run to completion of the generator. *)
Inductive stream_execution (w : World) (db : Db) (execution_id : Z)
  : list event -> Db -> Prop :=
  | stream_no_execution :
      rule_executions db !! execution_id = None ->
      stream_execution w db execution_id
        [[("error", PStr "Execution not found")]] db
  | stream_no_rule execution :
      rule_executions db !! execution_id = Some execution ->
      rules db !! rule_id execution = None ->
      stream_execution w db execution_id
        [[("error", PStr "Rule not found")]] db
  | stream_run execution rule s :
      rule_executions db !! execution_id = Some execution ->
      rules db !! rule_id execution = Some rule ->
      reachable (tasks_of w rule) s ->
      ph s = Finalized ->
      stream_execution w db execution_id
        (map q_event (yielded s) ++ [ev_complete])
        (finalize db execution_id execution s).

End ChatApi.

(* ================================================================== *)
(** ** Bookkeeping for the runs of the consumer loop *)
(* ================================================================== *)

Module Consumer.

Import ChatApi.

(** The items of [l] that task [j] put. *)
Definition proj (j : nat) (l : list qitem) : list qitem :=
  List.filter (fun q => Nat.eqb (q_task q) j) l.

(** Every item a task is to put carries the number of that task. *)
Definition well_tagged (ts : list task) : Prop :=
  forall j t0, ts !! j = Some t0 -> Forall (fun q => q_task q = j) (pending t0).

(** The invariant of a run from the tasks [ts]. *)
Record inv (ts : list task) (s : orch) : Prop := {
  inv_len : length (tasks s) = length ts;
  inv_conserve :
    forall j t0, ts !! j = Some t0 ->
      exists t, tasks s !! j = Some t /\ term t = term t0 /\
                proj j (yielded s ++ queue s) ++ pending t = pending t0;
  inv_tags : Forall (fun q => (q_task q < length ts)%nat) (yielded s ++ queue s);
  inv_steps :
    List.filter is_step (timeline s) = List.filter is_step (map q_event (yielded s));
  inv_sub : sublist (timeline s) (map q_event (yielded s));
  inv_finished : (finished_tasks s <= length (List.filter done (tasks s)))%nat;
  inv_phase : ph s <> Consuming -> Forall (fun t => done t = true) (tasks s);
  inv_final : ph s = Finalized -> queue s = []
}.

Definition all_return (ts : list task) : Prop := Forall (fun t => term t = Done) ts.

(** The number of items still to be put. *)
Definition backlog (ts : list task) : nat := sum_list (map (fun t => length (pending t)) ts).

Definition rank (s : orch) : nat :=
  match ph s with
  | Consuming => if (finished_tasks s <? length (tasks s))%nat then 3 else 2
  | Draining => 1
  | Finalized => 0
  end.

Definition measure (s : orch) : nat :=
  (2 * backlog (tasks s) + length (queue s) + rank s)%nat.

(** A run in which the timer of [wait_for] fires on an empty queue only,
    as it does when the event loop is not held up. *)
Definition prompt_step (l : label) (s : orch) : option orch :=
  match l, queue s with
  | Timeout, _ :: _ => None
  | _, _ => step l s
  end.

Fixpoint prompt_run (ls : list label) (s : orch) : option orch :=
  match ls with
  | [] => Some s
  | l :: ls' => match prompt_step l s with Some s' => prompt_run ls' s' | None => None end
  end.

(** The kinds of events that the properties count. *)
Definition is_error (e : event) : bool := Py.eq_str (Py.get "type" e) "error".

Definition is_executing (e : event) : bool :=
  is_step e && Py.startswith "Running command: " (Py.str (Py.get "message" e)).

(** A transport or connect error on the node at position [i]: importing
    the key or opening the connection raises [e] (no command attempted), or
    the command at position [k] raises [e] after the commands before it ran
    to their end ([k + 1] commands attempted). *)
Inductive transport_failure (w : World) (i : nat) (node : node_config)
    (commands : list cmd_config) (condition : string) : nat -> exn -> Prop :=
  | fail_key e :
      connect_options_of w node = Raises e ->
      transport_failure w i node commands condition O e
  | fail_connect opts e :
      connect_options_of w node = Returns opts ->
      ssh_connect w i opts = Raises e ->
      transport_failure w i node commands condition O e
  | fail_command opts k c t e :
      connect_options_of w node = Returns opts ->
      ssh_connect w i opts = Returns () ->
      commands !! k = Some c ->
      snd (run_commands w i O (node_name_of node) condition (take k commands)) = Normal ->
      conn_run w i k (cmd c) = Fails t e ->
      transport_failure w i node commands condition (S k) e.

(** Two worlds that treat the node at position [j] alike. *)
Definition same_at (j : nat) (w w' : World) : Prop :=
  known_nodes w = known_nodes w' /\
  (forall f, path_exists w f = path_exists w' f) /\
  (forall pem, import_private_key w pem = import_private_key w' pem) /\
  (forall opts, ssh_connect w j opts = ssh_connect w' j opts) /\
  (forall k c, conn_run w j k c = conn_run w' j k c) /\
  (forall k prompt, chat w j k prompt = chat w' j k prompt) /\
  (forall content, json_loads w content = json_loads w' content).

(** Items in the order of the nodes they are about. *)
Definition node_ordered (l : list qitem) : Prop :=
  forall p q x y,
    l !! p = Some x -> l !! q = Some y -> (q_node x < q_node y)%nat -> (p < q)%nat.

End Consumer.

(* ================================================================== *)
(** ** Notions of the specification *)
(* ================================================================== *)

(** These definitions follow the words of the specification, not the
    code; the properties below compare the code with them. *)
Module Spec.

Fixpoint all_digits (s : string) : bool :=
  match s with
  | EmptyString => true
  | String c s' => Py.is_digit c && all_digits s'
  end.

(** One to three decimal digits, with no check of the range. *)
Definition octet_shaped (a : string) : Prop :=
  all_digits a = true /\ (1 <= String.length a <= 3)%nat.

(** Four such groups separated by dots, and nothing else. *)
Definition ipv4_shaped (s : string) : Prop :=
  exists a b c d,
    octet_shaped a /\ octet_shaped b /\ octet_shaped c /\ octet_shaped d /\
    s = a +:+ "." +:+ b +:+ "." +:+ c +:+ "." +:+ d.

(** An IPv4-shaped substring between parentheses. *)
Definition has_parenthesized_ipv4 (s : string) : Prop :=
  exists pre q post, ipv4_shaped q /\ s = pre +:+ "(" +:+ q +:+ ")" +:+ post.

(** Whether the first character of a string is a digit. *)
Definition starts_with_digit (s : string) : bool :=
  match s with
  | String c _ => Py.is_digit c
  | EmptyString => false
  end.

(** Whether a string is made of digits and dots only. *)
Fixpoint digits_and_dots (s : string) : bool :=
  match s with
  | EmptyString => true
  | String c s' => (Py.is_digit c || Ascii.eqb c ".") && digits_and_dots s'
  end.

(** The three-way classification of a run by the outcomes of its nodes:
    [true] for a node that succeeded. *)
Inductive overall := Success | Partial | Failed.

Definition classify (node_ok : list bool) : overall :=
  if forallb id node_ok then Success
  else if existsb id node_ok then Partial
  else Failed.

(** The classification as a status of the runbook executor. *)
Definition to_status (o : overall) : Executor.ExecutionStatus :=
  match o with
  | Success => Executor.SUCCESS
  | Partial => Executor.PARTIAL
  | Failed => Executor.FAILED
  end.

End Spec.

(* ================================================================== *)
(** ** Sample environments and plans *)
(* ================================================================== *)

Module Examples.

Import ChatEngine ChatApi.

Definition clear_analysis : pydict :=
  [("extracted_value", PStr "0.15"); ("condition_met", PBool false);
   ("summary", PStr "load is low"); ("severity", PStr "info")].

Definition critical_analysis : pydict :=
  [("extracted_value", PStr "97%"); ("condition_met", PBool true);
   ("summary", PStr "disk almost full"); ("severity", PStr "critical")].

(** The reply the model gives in these worlds is parsed by [json_loads]
    into [critical_analysis] when it mentions "critical", and into
    [clear_analysis] otherwise. *)
Definition sample_json_loads (content : string) : outcome pyval :=
  if Py.contains "critical" content then Returns (PDict critical_analysis)
  else Returns (PDict clear_analysis).

(** Every host answers, every command ends with status 0 after a second,
    and the model finds nothing wrong. *)
Definition w_up : World :=
  {| known_nodes := ∅;
     path_exists := fun _ => false;
     import_private_key := fun pem => Returns (ImportedKey pem);
     ssh_connect := fun _ _ => Returns ();
     conn_run := fun _ _ _ => Completes 1 (CompletedProcess 0 "up 5 days" "");
     chat := fun _ _ _ => Returns "{ok}";
     json_loads := sample_json_loads |}.

(** As [w_up], but the node at position 1 refuses the connection. *)
Definition w_one_down : World :=
  {| known_nodes := ∅;
     path_exists := fun _ => false;
     import_private_key := fun pem => Returns (ImportedKey pem);
     ssh_connect := fun i _ =>
       if Nat.eqb i 1 then Raises (Exn SSHError "Connection refused") else Returns ();
     conn_run := fun _ _ _ => Completes 1 (CompletedProcess 0 "up 5 days" "");
     chat := fun _ _ _ => Returns "{ok}";
     json_loads := sample_json_loads |}.

(** No host answers. *)
Definition w_all_down : World :=
  {| known_nodes := ∅;
     path_exists := fun _ => false;
     import_private_key := fun pem => Returns (ImportedKey pem);
     ssh_connect := fun _ _ => Raises (Exn SSHError "Connection refused");
     conn_run := fun _ _ _ => Completes 1 (CompletedProcess 0 "up 5 days" "");
     chat := fun _ _ _ => Returns "{ok}";
     json_loads := sample_json_loads |}.

(** Every host answers, and no command ever ends. *)
Definition w_hang : World :=
  {| known_nodes := ∅;
     path_exists := fun _ => false;
     import_private_key := fun pem => Returns (ImportedKey pem);
     ssh_connect := fun _ _ => Returns ();
     conn_run := fun _ _ _ => Hangs;
     chat := fun _ _ _ => Returns "{ok}";
     json_loads := sample_json_loads |}.

(** As [w_up], but the model reports a critical finding on the second
    command of each node. *)
Definition w_critical : World :=
  {| known_nodes := ∅;
     path_exists := fun _ => false;
     import_private_key := fun pem => Returns (ImportedKey pem);
     ssh_connect := fun _ _ => Returns ();
     conn_run := fun _ _ _ => Completes 1 (CompletedProcess 0 "/dev/sda1 97%" "");
     chat := fun _ k _ => if Nat.eqb k 1 then Returns "{critical}" else Returns "{ok}";
     json_loads := sample_json_loads |}.

(** As [w_up], but the LLM client raises. *)
Definition w_llm_down : World :=
  {| known_nodes := ∅;
     path_exists := fun _ => false;
     import_private_key := fun pem => Returns (ImportedKey pem);
     ssh_connect := fun _ _ => Returns ();
     conn_run := fun _ _ _ => Completes 1 (CompletedProcess 0 "up 5 days" "");
     chat := fun _ _ _ => Raises (Exn OtherError "Connection error.");
     json_loads := sample_json_loads |}.

Definition node (name host : string) : node_config :=
  {| nc_name := Some name; nc_hostname := Some host; nc_auth := None |}.

Definition n1 : node_config := node "n1" "10.0.0.1".
Definition n2 : node_config := node "n2" "10.0.0.2".

Definition uptime : cmd_config := {| cmd := Some "uptime"; logic := Some "report output" |}.
Definition df : cmd_config := {| cmd := Some "df -h"; logic := Some "alert if usage > 80%" |}.
Definition tail_f : cmd_config := {| cmd := Some "tail -f /var/log/syslog"; logic := None |}.

Definition rule_of (mode : string) (nodes : list node_config) (commands : list cmd_config)
  : AutomationRule :=
  {| nodes_json := nodes;
     commands_json := commands;
     command := None;
     extraction_hint := None;
     condition := None;
     execution_mode := Some mode |}.

(** A database with the single rule [rule], numbered 1, and no execution. *)
Definition db_of (rule : AutomationRule) : Db :=
  {| rules := {[ 1 := rule ]}; rule_executions := ∅ |}.

(** The database after [execute_rule] has created the execution record,
    numbered 0, of [rule]. *)
Definition db_running (rule : AutomationRule) : Db :=
  {| rules := {[ 1 := rule ]};
     rule_executions :=
       {[ 0 := {| rule_id := 1; status := EXECUTING; timeline_json := [] |} ]} |}.

(** A runbook with two servers and one command, which succeeds on the
    first server and exits with status 1 on the second. *)
Definition server (id : Z) (host : string) : Executor.Server :=
  {| Executor.server_id := id; Executor.hostname := host;
     Executor.username := "ubuntu"; Executor.port := 22;
     Executor.auth_type := Executor.PASSWORD;
     Executor.encrypted_credential := "secret" |}.

Definition r_mixed : Executor.Remote :=
  {| Executor.decrypt_credential := fun c => Returns c;
     Executor.import_private_key := fun pem => Returns (ImportedKey pem);
     Executor.ssh_connect := fun _ => Returns ();
     Executor.conn_run := fun srv _ =>
       if Executor.server_id srv =? 1
       then Completes 1 (CompletedProcess 0 "ok" "")
       else Completes 1 (CompletedProcess 1 "" "No such file") |}.

Definition check_disk : Executor.Command :=
  {| Executor.command_id := 1; Executor.script := "df -h";
     Executor.is_universal := true; Executor.command_server_id := None |}.

Definition store_mixed : Executor.Store :=
  {| Executor.runbooks := {[ 1 ]};
     Executor.runbook_servers := {[ 1 := [server 1 "10.0.0.1"; server 2 "10.0.0.2"] ]};
     Executor.runbook_commands := {[ 1 := [check_disk] ]};
     Executor.executions := {[ 5 := Executor.PENDING ]};
     Executor.results := [] |}.

(** An AI engine that is not reachable. *)
Definition ai_down (script output : string) : outcome pydict :=
  Raises (Exn OtherError "no API key").

(** The execution record that [execute_rule] creates for the rule 1. *)
Definition new_execution : RuleExecution :=
  {| rule_id := 1; status := EXECUTING; timeline_json := [] |}.

(** A schedule for two nodes in parallel, the first with six events and
    the second with two: the second node is served first, each item is
    consumed as soon as it is put, the timer fires on the empty queue, and
    the generator finishes. *)
Definition second_first : list label :=
  [Put 1; Get; Put 1; Get] ++ concat (replicate 6 [Put 0; Get])
    ++ [Timeout; Leave; Finish].

(** A schedule in which the single task of a sequential run puts [n]
    items, each one consumed as soon as it is put; the timer then fires on
    the empty queue, and the generator finishes. *)
Definition lockstep (n : nat) : list label :=
  concat (replicate n [Put 0; Get]) ++ [Timeout; Leave; Finish].

(** The state a schedule leads to (the start state when the schedule
    cannot be followed). *)
Definition state_after (ls : list label) (ts : list task) : orch :=
  default (start ts) (run ls (start ts)).

End Examples.

(* ================================================================== *)
(** ** More of Python's [str] and [dict] *)
(* ================================================================== *)

Module PyText.

(** [s.endswith(suffix)]. *)
Definition endswith (suffix s : string) : bool :=
  (String.length suffix <=? String.length s)%nat &&
  String.eqb (Py.drop (String.length s - String.length suffix) s) suffix.

Definition is_upper (c : ascii) : bool :=
  let n := N_of_ascii c in ((65 <=? n) && (n <=? 90))%N.

Definition is_lower (c : ascii) : bool :=
  let n := N_of_ascii c in ((97 <=? n) && (n <=? 122))%N.

Definition to_lower (c : ascii) : ascii :=
  if is_upper c then ascii_of_N (N_of_ascii c + 32) else c.

Definition to_upper (c : ascii) : ascii :=
  if is_lower c then ascii_of_N (N_of_ascii c - 32) else c.

(** [s.lower()] and [s.upper()]. *)
Fixpoint lower (s : string) : string :=
  match s with
  | EmptyString => EmptyString
  | String c s' => String (to_lower c) (lower s')
  end.

Fixpoint upper (s : string) : string :=
  match s with
  | EmptyString => EmptyString
  | String c s' => String (to_upper c) (upper s')
  end.

(** [s.title()]: a letter that follows a letter is put in lower case,
    every other letter in upper case. *)
Fixpoint title_go (previous_is_cased : bool) (s : string) : string :=
  match s with
  | EmptyString => EmptyString
  | String c s' =>
      String (if previous_is_cased then to_lower c else to_upper c)
             (title_go (is_upper c || is_lower c) s')
  end.

Definition title (s : string) : string := title_go false s.

(** [s.replace(old, new)] for a non-empty [old]: the occurrences of [old]
    are found from left to right and do not overlap.  [skip] counts the
    characters of the current occurrence still to be passed over. *)
Fixpoint replace_go (old new : string) (skip : nat) (s : string) : string :=
  match s with
  | EmptyString => EmptyString
  | String c s' =>
      match skip with
      | S k => replace_go old new k s'
      | O =>
          if Py.startswith old s
          then new +:+ replace_go old new (String.length old - 1) s'
          else String c (replace_go old new O s')
      end
  end.

Definition replace (old new s : string) : string := replace_go old new O s.

(** [s.split(sep)] for a non-empty [sep]; [cur] is the piece being read. *)
Fixpoint split_go (sep : string) (skip : nat) (cur s : string) : list string :=
  match s with
  | EmptyString => [cur]
  | String c s' =>
      match skip with
      | S k => split_go sep k cur s'
      | O =>
          if Py.startswith sep s
          then cur :: split_go sep (String.length sep - 1) EmptyString s'
          else split_go sep O (cur +:+ String c EmptyString) s'
      end
  end.

Definition split (sep s : string) : list string := split_go sep O EmptyString s.

(** [s.split()]: the maximal runs of characters that are not white space. *)
Fixpoint split_ws_go (cur s : string) : list string :=
  match s with
  | EmptyString => match cur with EmptyString => [] | _ => [cur] end
  | String c s' =>
      if Py.is_space c
      then match cur with
           | EmptyString => split_ws_go EmptyString s'
           | _ => cur :: split_ws_go EmptyString s'
           end
      else split_ws_go (cur +:+ String c EmptyString) s'
  end.

Definition split_ws (s : string) : list string := split_ws_go EmptyString s.

(** [sep.join(l)]. *)
Fixpoint join (sep : string) (l : list string) : string :=
  match l with
  | [] => EmptyString
  | [x] => x
  | x :: l' => x +:+ sep +:+ join sep l'
  end.

(** A byte that continues a character in UTF-8. *)
Definition is_continuation (c : ascii) : bool :=
  let n := N_of_ascii c in ((128 <=? n) && (n <? 192))%N.

(** [s[:n]]: the first [n] characters, each with all its bytes. *)
Fixpoint take_chars (n : nat) (s : string) : string :=
  match s with
  | EmptyString => EmptyString
  | String c s' =>
      if is_continuation c then String c (take_chars n s')
      else match n with
           | O => EmptyString
           | S n' => String c (take_chars n' s')
           end
  end.

(** [d[k] = v]: the value is replaced in place when the key is there, and
    the pair is added at the end when it is not. *)
Fixpoint set_item (k : string) (v : pyval) (d : pydict) : pydict :=
  match d with
  | [] => [(k, v)]
  | (k', v') :: d' =>
      if String.eqb k k' then (k', v) :: d' else (k', v') :: set_item k v d'
  end.

(** [d.update(other)]. *)
Definition update (d other : pydict) : pydict :=
  foldl (fun acc kv => set_item (fst kv) (snd kv) acc) d other.

(** The value of a string of decimal digits, [acc] being the value of the
    digits read so far. *)
Fixpoint digits_value (acc : N) (s : string) : option N :=
  match s with
  | EmptyString => Some acc
  | String c s' =>
      if Py.is_digit c then digits_value (10 * acc + (N_of_ascii c - 48)) s'
      else None
  end.

(** [int(s)] for a string without white space and underscores: an
    optional sign and at least one digit; [None] is [ValueError]. *)
Definition parse_int (s : string) : option Z :=
  match s with
  | EmptyString => None
  | String c s' =>
      if Ascii.eqb c "-" then
        match s' with
        | EmptyString => None
        | _ => (fun n => (- Z.of_N n)%Z) <$> digits_value 0 s'
        end
      else if Ascii.eqb c "+" then
        match s' with
        | EmptyString => None
        | _ => Z.of_N <$> digits_value 0 s'
        end
      else Z.of_N <$> digits_value 0 s
  end.

(** The characters of a string, as [for ch in s] goes through them. *)
Fixpoint chars_go (cur s : string) : list string :=
  match s with
  | EmptyString => match cur with EmptyString => [] | _ => [cur] end
  | String c s' =>
      if is_continuation c then chars_go (cur +:+ String c EmptyString) s'
      else match cur with
           | EmptyString => chars_go (String c EmptyString) s'
           | _ => cur :: chars_go (String c EmptyString) s'
           end
  end.

Definition chars (s : string) : list string := chars_go EmptyString s.

(** The exceptions of dynamic typing, with the text Python gives them. *)
Definition attribute_error (v : pyval) (attr : string) : exn :=
  Exn OtherError ("'" +:+ Py.type_name v +:+ "' object has no attribute '" +:+ attr +:+ "'").

Definition not_iterable (v : pyval) : exn :=
  Exn OtherError ("'" +:+ Py.type_name v +:+ "' object is not iterable").

(** [needle in v] for a string [needle]: a substring of a string, an
    element of a list, a key of a dict; [TypeError] otherwise. *)
Definition in_ (needle : string) (v : pyval) : outcome bool :=
  match v with
  | PStr s => Returns (Py.contains needle s)
  | PList l => Returns (existsb (fun x => Py.eq_str x needle) l)
  | PDict d => Returns (existsb (fun kv => String.eqb (fst kv) needle) d)
  | _ => Raises (Exn OtherError ("argument of type '" +:+ Py.type_name v
                                 +:+ "' is not iterable"))
  end.

(** [for x in v]: the elements of a list, the characters of a string,
    the keys of a dict; [TypeError] otherwise. *)
Definition iterate (v : pyval) : outcome (list pyval) :=
  match v with
  | PList l => Returns l
  | PStr s => Returns (map PStr (chars s))
  | PDict d => Returns (map (fun kv => PStr (fst kv)) d)
  | _ => Raises (not_iterable v)
  end.

(** [v.get(k, default)]: [AttributeError] unless [v] is a dict. *)
Definition get_attr (v : pyval) (k : string) (default : pyval) : outcome pyval :=
  match v with
  | PDict d => Returns (Py.get_or k default d)
  | _ => Raises (attribute_error v "get")
  end.

(** A method of [str] called on [v]: [AttributeError] unless [v] is a
    string. *)
Definition str_method (v : pyval) (attr : string) (f : string -> string)
  : outcome string :=
  match v with
  | PStr s => Returns (f s)
  | _ => Raises (attribute_error v attr)
  end.

(** A loop whose body may raise: the results of the turns, or the first
    exception. *)
Fixpoint collect {A B} (f : A -> outcome B) (l : list A) : outcome (list B) :=
  match l with
  | [] => Returns []
  | x :: l' => y ← f x; ys ← collect f l'; Returns (y :: ys)
  end.

(** The items handed to [sep.join]: each has to be a string. *)
Fixpoint join_items (i : nat) (l : list pyval) : outcome (list string) :=
  match l with
  | [] => Returns []
  | PStr s :: l' => ss ← join_items (S i) l'; Returns (s :: ss)
  | v :: _ =>
      Raises (Exn OtherError ("sequence item " +:+ pretty i +:+ ": expected str instance, "
                              +:+ Py.type_name v +:+ " found"))
  end.

End PyText.

(* ================================================================== *)
(** ** [executor.py]: the rows of a runbook execution, and the
    synchronous wrapper *)
(* ================================================================== *)

Module ExecutorRows.

Import Executor.

(** The analysis that [execute_runbook] attaches to a result: the AI
    engine is asked only about a successful result with some output. *)
Definition ai_analysis_of (ai : string -> string -> outcome pydict)
    (command : Command) (result : server_result) : pydict :=
  let res := sr_result result in
  if String.eqb (status res) "SUCCESS" && negb (String.eqb (stdout res) "")
  then match ai (script command) (stdout res) with
       | Returns d => d
       | Raises _ => [("summary", PStr "AI analysis unavailable"); ("signals", PList [])]
       end
  else [].

(** The row that [ExecutionCRUD.add_result] is called with. *)
Definition result_row (ai : string -> string -> outcome pydict)
    (execution_id : Z) (command : Command) (result : server_result) : execution_result :=
  let res := sr_result result in
  {| er_execution_id := execution_id;
     er_server_id := sr_server_id result;
     er_command_id := command_id command;
     er_status := if String.eqb (status res) "SUCCESS" then SUCCESS else FAILED;
     er_stdout := stdout res;
     er_stderr := stderr res;
     er_exit_code := exit_code res;
     er_ai_summary := Py.get "summary" (ai_analysis_of ai command result);
     er_ai_signals := Py.get_or "signals" (PList []) (ai_analysis_of ai command result);
     er_ai_resources := Py.get_or "resources" (PList []) (ai_analysis_of ai command result) |}.

(** The rows of a whole execution, command after command and, for each
    command, target server after target server. *)
Definition rows_of (r : Remote) (ai : string -> string -> outcome pydict)
    (execution_id : Z) (servers : list Server) (commands : list Command)
  : list execution_result :=
  flat_map (fun command =>
              map (result_row ai execution_id command)
                  (execute_on_servers r (target_servers servers command) (script command)))
           commands.

(** The environment of [execute_command_on_server], which is handed the
    connection details one by one and no [Server]. *)
Record Host := {
  import_private_key : string -> outcome client_key;
  ssh_connect : connect_options -> outcome unit;
  conn_run : connect_options -> string -> awaited completed_process
}.

(** The options that its coroutine [_run] connects with: every
    [auth_type] other than "password" has the credential imported as a
    private key. *)
Definition sync_connect_options (h : Host) (hostname username credential : string)
    (port : Z) (auth_type : string) : outcome connect_options :=
  if String.eqb auth_type "password"
  then Returns (ConnectOptions (Some hostname) (Some port) username (Some credential) None)
  else key ← import_private_key h credential;
       Returns (ConnectOptions (Some hostname) (Some port) username None (Some [key])).

Definition sync_timeout : Z := 60.

(** The [try] block of [_run]. *)
Definition sync_run_try (h : Host) (hostname username credential command : string)
    (port : Z) (auth_type : string) : outcome command_result :=
  opts ← sync_connect_options h hostname username credential port auth_type;
  _ ← ssh_connect h opts;
  result ← wait_for (conn_run h opts command) sync_timeout;
  Returns (CommandResult (if exit_status result =? 0 then "SUCCESS" else "FAILED")
                         (cp_stdout result) (cp_stderr result) (exit_status result)).

(** [execute_command_on_server(hostname, username, credential, command,
    port, auth_type)]: the coroutine [_run] run to its end, with its
    single [except Exception] clause. *)
Definition execute_command_on_server (h : Host)
    (hostname username credential command : string) (port : Z) (auth_type : string)
  : command_result :=
  match sync_run_try h hostname username credential command port auth_type with
  | Returns res => res
  | Raises e => CommandResult "FAILED" "" (exn_msg e) (-1)
  end.

End ExecutorRows.

(* ================================================================== *)
(** ** [scheduler.py] and the runbook endpoints of [api.py] *)
(* ================================================================== *)

Module Scheduler.

Import Executor.

(** A trigger: [CronTrigger(minute, hour, day, month, day_of_week)] or
    [DateTrigger(run_date)]. *)
Inductive trigger :=
  | CronTrigger (minute hour day month day_of_week : string)
  | DateTrigger (run_date : Z).

(** A job of the scheduler: the argument that [execute_runbook_job] is
    called with, and the trigger. *)
Record job := Job { job_runbook : Z; job_trigger : trigger }.

(** The job store, by job identifier. *)
Abbreviation jobs := (gmap string job).

(** [f"runbook_{runbook_id}"]. *)
Definition job_id_of (runbook_id : Z) : string := "runbook_" +:+ Py.str_int runbook_id.

(** How [schedule_runbook] ends: with the job identifier, or with the
    only exception it raises. *)
Inductive schedule_result :=
  | Scheduled (job_id : string)
  | ValueError (msg : string).

(** [schedule_runbook(runbook_id, schedule_type, cron_expression, run_at)].
    [cron_fields_ok] says whether [CronTrigger] accepts the five fields
    (it raises [ValueError] with [cron_error] when it does not).  The job
    that is there is removed before anything is checked. *)
Definition schedule_runbook
    (cron_fields_ok : list string -> bool) (cron_error : list string -> string)
    (store : jobs) (runbook_id : Z) (schedule_type : string)
    (cron_expression : option string) (run_at : option Z) : jobs * schedule_result :=
  let job_id := job_id_of runbook_id in
  let store := delete job_id store in
  if String.eqb schedule_type "cron" then
    match cron_expression with
    | None | Some EmptyString =>
        (store, ValueError "cron_expression required for cron schedule")
    | Some expression =>
        match PyText.split_ws expression with
        | [minute; hour; day; month; day_of_week] as parts =>
            if cron_fields_ok parts
            then (<[job_id := Job runbook_id (CronTrigger minute hour day month day_of_week)]>
                    store,
                  Scheduled job_id)
            else (store, ValueError (cron_error parts))
        | _ =>
            (store,
             ValueError "Invalid cron expression. Expected: minute hour day month day_of_week")
        end
    end
  else if String.eqb schedule_type "once" then
    match run_at with
    | None => (store, ValueError "run_at required for one-time schedule")
    | Some t => (<[job_id := Job runbook_id (DateTrigger t)]> store, Scheduled job_id)
    end
  else (store, ValueError ("Unknown schedule_type: " +:+ schedule_type)).

(** [unschedule_runbook(runbook_id)]. *)
Definition unschedule_runbook (store : jobs) (runbook_id : Z) : jobs * bool :=
  match store !! job_id_of runbook_id with
  | Some _ => (delete (job_id_of runbook_id) store, true)
  | None => (store, false)
  end.

(** An entry of [get_scheduled_jobs()], without its two time fields. *)
Record job_entry := JobEntry { entry_job_id : string; entry_runbook_id : Z }.

(** The entry of one job: [int(job.id.replace("runbook_", ""))] raises
    [ValueError] ([None] here) when what is left is not a number. *)
Definition job_entry_of (job_id : string) : option job_entry :=
  JobEntry job_id <$> PyText.parse_int (PyText.replace "runbook_" "" job_id).

(** [ExecutionCRUD.create(session, runbook_id, triggered_by)]: a new row
    with status PENDING, under an identifier that is not in use. *)
Definition create_execution (st : Store) : Z * Store :=
  let id := fresh (dom (executions st)) in
  (id, {| runbooks := runbooks st;
          runbook_servers := runbook_servers st;
          runbook_commands := runbook_commands st;
          executions := <[id := PENDING]> (executions st);
          results := results st |}).

(** [execute_runbook_job(runbook_id)], the function that a trigger
    calls: nothing is recorded when the runbook is gone. *)
Definition execute_runbook_job
    (r : Remote) (ai : string -> string -> outcome pydict)
    (st : Store) (runbook_id : Z) : Store :=
  if bool_decide (runbook_id ∈ runbooks st)
  then let '(id, st) := create_execution st in
       execute_runbook r ai st runbook_id id
  else st.

End Scheduler.

Module Api.

Import Executor Scheduler.

Inductive ScheduleType := ONCE | CRON.

(** [schedule_type.value]. *)
Definition schedule_type_value (t : ScheduleType) : string :=
  match t with ONCE => "once" | CRON => "cron" end.

(** The schedule columns of a runbook. *)
Record schedule_columns := {
  is_scheduled : bool;
  schedule_type : option ScheduleType;
  cron_expression : option string
}.

(** What the schedule endpoints read and write: the runbooks with their
    schedule columns, and the job store of the scheduler. *)
Record state := {
  runbook_table : gmap Z schedule_columns;
  job_store : jobs
}.

Inductive response :=
  | Ok (status : string) (job_id : option string)
  | HTTPException (status_code : Z) (detail : string).

(** [schedule_runbook_endpoint(runbook_id, schedule)]. *)
Definition schedule_runbook_endpoint
    (cron_fields_ok : list string -> bool) (cron_error : list string -> string)
    (s : state) (runbook_id : Z)
    (kind : ScheduleType) (cron : option string) (run_at : option Z) : state * response :=
  match runbook_table s !! runbook_id with
  | None => (s, HTTPException 404 "Runbook not found")
  | Some _ =>
      match schedule_runbook cron_fields_ok cron_error (job_store s) runbook_id
              (schedule_type_value kind) cron run_at with
      | (store, Scheduled job_id) =>
          ({| runbook_table :=
                <[runbook_id := {| is_scheduled := true;
                                   schedule_type := Some kind;
                                   cron_expression := cron |}]> (runbook_table s);
              job_store := store |},
           Ok "scheduled" (Some job_id))
      | (store, ValueError msg) =>
          ({| runbook_table := runbook_table s; job_store := store |},
           HTTPException 400 msg)
      end
  end.

(** [unschedule_runbook_endpoint(runbook_id)]: [RunbookCRUD.update]
    leaves the table alone when the runbook is not there. *)
Definition unschedule_runbook_endpoint (s : state) (runbook_id : Z) : state * response :=
  let '(store, success) := unschedule_runbook (job_store s) runbook_id in
  ({| runbook_table :=
        alter (fun _ => {| is_scheduled := false;
                           schedule_type := None;
                           cron_expression := None |}) runbook_id (runbook_table s);
      job_store := store |},
   Ok (if success then "unscheduled" else "not_scheduled") None).

(** [execute_runbook_endpoint(runbook_id)] followed by the background
    task it registers: [None] is the 404 response, otherwise the
    identifier of the new execution and the store once the task is over. *)
Definition execute_runbook_endpoint
    (r : Remote) (ai : string -> string -> outcome pydict)
    (st : Store) (runbook_id : Z) : option (Z * Store) :=
  if bool_decide (runbook_id ∈ runbooks st)
  then let '(id, st) := create_execution st in
       Some (id, execute_runbook r ai st runbook_id id)
  else None.

End Api.

(* ================================================================== *)
(** ** [chat_engine.py]: the intent parser and the rule card *)
(* ================================================================== *)

Module Intent.

Import ChatEngine.

(** [SYSTEM_PROMPT], line by line. *)
Definition SYSTEM_PROMPT : string :=
  "You are Athena, an Advanced Automation AI Agent." +:+ nl +:+
  "Your goal is to parse " +:+ quoted "Plain English + light structure"
    +:+ " requests into sophisticated automation rules." +:+ nl +:+
  nl +:+
  "## CORE RESPONSIBILITY" +:+ nl +:+
  "Convert semi-structured user input into a precise JSON Rule Object." +:+ nl +:+
  "The user will provide lists of IPs, credentials, commands, and conditions. You must structure this for the execution engine."
    +:+ nl +:+
  nl +:+
  "## JSON SCHEMA" +:+ nl +:+
  "Respond ONLY with this JSON structure:" +:+ nl +:+
  nl +:+
  "{" +:+ nl +:+
  "  " +:+ quoted "type" +:+ ": " +:+ quoted "rule" +:+ "," +:+ nl +:+
  "  " +:+ quoted "rule" +:+ ": {" +:+ nl +:+
  "    " +:+ quoted "name" +:+ ": " +:+ quoted "Short descriptive name" +:+ "," +:+ nl +:+
  "    " +:+ quoted "nodes" +:+ ": [" +:+ nl +:+
  "      {" +:+ nl +:+
  "        " +:+ quoted "name" +:+ ": " +:+ quoted "hostname or label" +:+ "," +:+ nl +:+
  "        " +:+ quoted "hostname" +:+ ": " +:+ quoted "192.168.1.1 or example.com" +:+ ","
    +:+ nl +:+
  "        " +:+ quoted "auth" +:+ ": {" +:+ nl +:+
  "          " +:+ quoted "type" +:+ ": " +:+ quoted "password" +:+ " | "
    +:+ quoted "private_key" +:+ " | " +:+ quoted "auto" +:+ "," +:+ nl +:+
  "          " +:+ quoted "username" +:+ ": " +:+ quoted "..." +:+ "," +:+ nl +:+
  "          " +:+ quoted "password" +:+ ": " +:+ quoted "..." +:+ ", " +:+ nl +:+
  "          " +:+ quoted "key_path" +:+ ": " +:+ quoted "..." +:+ nl +:+
  "        }" +:+ nl +:+
  "      }" +:+ nl +:+
  "    ]," +:+ nl +:+
  "    " +:+ quoted "commands" +:+ ": [" +:+ nl +:+
  "      {" +:+ nl +:+
  "        " +:+ quoted "cmd" +:+ ": " +:+ quoted "actual shell command" +:+ "," +:+ nl +:+
  "        " +:+ quoted "logic" +:+ ": "
    +:+ quoted "plain english explanation of success/failure logic (e.g., 'fail if usage > 80%')"
    +:+ nl +:+
  "      }" +:+ nl +:+
  "    ]," +:+ nl +:+
  "    " +:+ quoted "execution" +:+ ": " +:+ quoted "sequential" +:+ " | "
    +:+ quoted "parallel" +:+ "," +:+ nl +:+
  "    " +:+ quoted "aggregation" +:+ ": " +:+ quoted "merge" +:+ " | " +:+ quoted "individual"
    +:+ "," +:+ nl +:+
  "    " +:+ quoted "report" +:+ ": {" +:+ nl +:+
  "        " +:+ quoted "formats" +:+ ": [" +:+ quoted "json" +:+ ", " +:+ quoted "csv"
    +:+ ", " +:+ quoted "excel" +:+ "]," +:+ nl +:+
  "        " +:+ quoted "email_to" +:+ ": [" +:+ quoted "email@example.com" +:+ "]" +:+ nl +:+
  "    }," +:+ nl +:+
  "    " +:+ quoted "schedule" +:+ ": " +:+ quoted "human readable schedule string" +:+ nl +:+
  "  }" +:+ nl +:+
  "}" +:+ nl +:+
  nl +:+
  "## PARSING RULES" +:+ nl +:+
  "1. **Nodes**: Extract every IP/Hostname. If credentials are provided inline (e.g., "
    +:+ quoted "user:pass"
    +:+ "), parse them into the `auth` object. If not provided, assume `auth: {"
    +:+ quoted "type" +:+ ": " +:+ quoted "auto" +:+ "}`." +:+ nl +:+
  "2. **Commands**: For each command line, extract the exact shell command and the logic/condition meant for it. "
    +:+ nl +:+
  "   - Example: " +:+ quoted "df -h (alert > 80%)" +:+ " -> cmd: " +:+ quoted "df -h"
    +:+ ", logic: " +:+ quoted "alert if filesystem usage > 80%" +:+ nl +:+
  "3. **Execution Mode**: If user asks to run " +:+ quoted "at once" +:+ " or "
    +:+ quoted "concurrently" +:+ ", set `execution: " +:+ quoted "parallel"
    +:+ "`. Default is `sequential`." +:+ nl +:+
  "4. **Report**: Extract email addresses and requested formats (Excel, CSV)." +:+ nl +:+
  nl +:+
  "## EXAMPLE INPUT" +:+ nl +:+
  quoted "Check 10.0.0.1 (user: root) and 10.0.0.2. Run uptime and free -m. Send csv to admin@corp.com"
    +:+ nl +:+
  nl +:+
  "## EXAMPLE OUTPUT" +:+ nl +:+
  "{" +:+ nl +:+
  "  " +:+ quoted "type" +:+ ": " +:+ quoted "rule" +:+ "," +:+ nl +:+
  "  " +:+ quoted "rule" +:+ ": {" +:+ nl +:+
  "    " +:+ quoted "name" +:+ ": " +:+ quoted "Uptime & Memory Check" +:+ "," +:+ nl +:+
  "    " +:+ quoted "nodes" +:+ ": [" +:+ nl +:+
  "      {" +:+ quoted "name" +:+ ": " +:+ quoted "10.0.0.1" +:+ ", " +:+ quoted "hostname"
    +:+ ": " +:+ quoted "10.0.0.1" +:+ ", " +:+ quoted "auth" +:+ ": {" +:+ quoted "type"
    +:+ ": " +:+ quoted "password" +:+ ", " +:+ quoted "username" +:+ ": " +:+ quoted "root"
    +:+ "}}," +:+ nl +:+
  "      {" +:+ quoted "name" +:+ ": " +:+ quoted "10.0.0.2" +:+ ", " +:+ quoted "hostname"
    +:+ ": " +:+ quoted "10.0.0.2" +:+ ", " +:+ quoted "auth" +:+ ": {" +:+ quoted "type"
    +:+ ": " +:+ quoted "auto" +:+ "}}" +:+ nl +:+
  "    ]," +:+ nl +:+
  "    " +:+ quoted "commands" +:+ ": [" +:+ nl +:+
  "      {" +:+ quoted "cmd" +:+ ": " +:+ quoted "uptime" +:+ ", " +:+ quoted "logic" +:+ ": "
    +:+ quoted "report output" +:+ "}," +:+ nl +:+
  "      {" +:+ quoted "cmd" +:+ ": " +:+ quoted "free -m" +:+ ", " +:+ quoted "logic" +:+ ": "
    +:+ quoted "report output" +:+ "}" +:+ nl +:+
  "    ]," +:+ nl +:+
  "    " +:+ quoted "execution" +:+ ": " +:+ quoted "sequential" +:+ "," +:+ nl +:+
  "    " +:+ quoted "aggregation" +:+ ": " +:+ quoted "merge" +:+ "," +:+ nl +:+
  "    " +:+ quoted "report" +:+ ": {" +:+ nl +:+
  "      " +:+ quoted "formats" +:+ ": [" +:+ quoted "csv" +:+ "]," +:+ nl +:+
  "      " +:+ quoted "email_to" +:+ ": [" +:+ quoted "admin@corp.com" +:+ "]" +:+ nl +:+
  "    }" +:+ nl +:+
  "  }" +:+ nl +:+
  "}" +:+ nl.

(** The sentence about the known nodes that follows the system prompt
    when there are some. *)
Definition known_nodes_context (known_nodes : option (list string)) : string :=
  match known_nodes with
  | Some (_ :: _ as names) =>
      nl +:+ nl +:+ "Known nodes in the system: " +:+ PyText.join ", " names
  | _ => ""
  end.

(** The two dicts that the [except] clauses return. *)
Definition chat_reply (message : string) : pyval :=
  PDict [("type", PStr "chat"); ("message", PStr message)].

Definition trouble_formatting : string :=
  "I understood your request but had trouble formatting it. Could you rephrase?".

Definition encountered_issue (e : exn) : string :=
  "I encountered an issue: " +:+ exn_msg e +:+ ". Please try again.".

(** [parse_user_intent(message, known_nodes)].  [chat system user] is
    the call of the LLM client followed by the extraction and the
    stripping of the reply (it returns the text of the reply or raises
    something that is not a [JSONDecodeError]); [json_loads] is
    [json.loads], with [None] for [JSONDecodeError]. *)
Definition parse_user_intent
    (chat : string -> string -> outcome string) (json_loads : string -> option pyval)
    (message : string) (known_nodes : option (list string)) : pyval :=
  match chat (SYSTEM_PROMPT +:+ known_nodes_context known_nodes) message with
  | Raises e => chat_reply (encountered_issue e)
  | Returns reply =>
      match json_loads (strip_fence (Py.strip reply)) with
      | Some v => v
      | None => chat_reply trouble_formatting
      end
  end.

(** One entry of [node_items]: a string as it is, a dict by its name,
    else its host name, else a question mark, with the user name of its
    [auth] between parentheses when there is one. *)
Definition node_item_text (n : pyval) : outcome pyval :=
  match n with
  | PStr _ => Returns n
  | PDict d =>
      let name := Py.or_else (Py.or_else (Py.get "name" d) (Py.get "hostname" d))
                             (PStr "?") in
      auth ← PyText.get_attr (Py.get_or "auth" (PDict []) d) "username" PNone;
      Returns (if Py.truthy auth
               then PStr (Py.str name +:+ " (" +:+ Py.str auth +:+ ")")
               else name)
  | _ => Raises (PyText.attribute_error n "get")
  end.

(** [nodes_str]. *)
Definition nodes_text (rule : pydict) : outcome string :=
  let nodes := Py.get_or "nodes" (PList []) rule in
  if Py.truthy nodes
  then ns ← PyText.iterate nodes;
       items ← PyText.collect node_item_text ns;
       texts ← PyText.join_items O items;
       Returns (PyText.join ", " texts)
  else Returns "(no nodes specified)".

(** One entry of [cmd_items]. *)
Definition command_item_text (c : pyval) : outcome string :=
  cmd ← PyText.get_attr c "cmd" (PStr "unknown");
  logic ← PyText.get_attr c "logic" PNone;
  Returns (if Py.truthy logic
           then "• " +:+ Py.str cmd +:+ "  [Logic: " +:+ Py.str logic +:+ "]"
           else "• " +:+ Py.str cmd).

(** [cmd_str], with the fallback to the legacy [command] key. *)
Definition commands_text (rule : pydict) : outcome string :=
  let commands := Py.get_or "commands" (PList []) rule in
  if Py.truthy commands
  then cs ← PyText.iterate commands;
       items ← PyText.collect command_item_text cs;
       Returns (PyText.join (nl +:+ "   ") items)
  else Returns (Py.str (Py.get_or "command" (PStr "(auto-detect)") rule)).

(** [generate_rule_card_text(rule)]. *)
Definition generate_rule_card_text (rule : pydict) : outcome string :=
  nodes_str ← nodes_text rule;
  cmd_str ← commands_text rule;
  mode ← PyText.str_method (Py.get_or "execution" (PStr "sequential") rule) "title"
            PyText.title;
  action ← PyText.str_method (Py.get_or "action" (PStr "Report only") rule) "replace"
              (fun a => PyText.title (PyText.replace "_" " " a));
  Returns ("🧩 Rule Created: " +:+ Py.str (Py.get_or "name" (PStr "Unnamed Rule") rule)
           +:+ nl +:+ nl +:+
           "📍 Nodes:" +:+ nl +:+
           "   • " +:+ nodes_str +:+ nl +:+ nl +:+
           "💻 Commands:" +:+ nl +:+
           "   " +:+ cmd_str +:+ nl +:+ nl +:+
           "⚖️ Execution Mode:" +:+ nl +:+
           "   • " +:+ mode +:+ nl +:+ nl +:+
           "⚡ Action:" +:+ nl +:+
           "   • " +:+ action +:+ nl).

End Intent.

(* ================================================================== *)
(** ** [chat_api.py]: the chat endpoint *)
(* ================================================================== *)

Module Chat.

Import ChatEngine Intent.

(** A row of the table of known nodes. *)
Record KnownNode := {
  kn_name : string;
  kn_hostname : string;
  kn_username : string;
  kn_port : Z;
  kn_auth_type : string;
  kn_credential_encrypted : option string
}.

Record ChatMessage := {
  cm_role : string;
  cm_content : string;
  cm_rule_id : option Z;
  cm_session_id : option Z
}.

(** A row of the table of rules as [send_message] writes it.  A JSON
    column holds the value that its text encodes; the columns that
    [send_message] leaves at their defaults are left out. *)
Record StoredRule := {
  rule_name : string;
  rule_session_id : Z;
  rule_nodes_json : list pyval;
  rule_commands_json : pyval;
  rule_execution_mode : string;
  rule_report_config_json : pyval;
  rule_command : string;
  rule_status : ChatApi.RuleStatus
}.

Record ChatDb := {
  chat_sessions : gmap Z string;           (* the title of each session *)
  chat_messages : list ChatMessage;
  known_node_rows : list KnownNode;
  automation_rules : gmap Z StoredRule
}.

(** What the endpoint calls outside the database. *)
Record Env := {
  decrypt_credential : string -> outcome string;
  chat : string -> string -> outcome string;
  json_loads : string -> option pyval
}.

(** The dict that [get_known_nodes] builds for a row. *)
Definition known_node_config (env : Env) (node : KnownNode) : outcome pydict :=
  credential ←
    match kn_credential_encrypted node with
    | Some (String c rest as encrypted) =>
        plain ← decrypt_credential env encrypted; Returns (PStr plain)
    | _ => Returns PNone
    end;
  Returns [("name", PStr (kn_name node));
           ("hostname", PStr (kn_hostname node));
           ("username", PStr (kn_username node));
           ("port", PInt (kn_port node));
           ("auth_type", PStr (kn_auth_type node));
           ("credential", credential)].

(** [get_known_nodes()]: the dict comprehension over the rows, a later
    row taking the place of an earlier one of the same name. *)
Fixpoint known_nodes_from (env : Env) (acc : gmap string pydict) (rows : list KnownNode)
  : outcome (gmap string pydict) :=
  match rows with
  | [] => Returns acc
  | node :: rows' =>
      cfg ← known_node_config env node;
      known_nodes_from env (<[kn_name node := cfg]> acc) rows'
  end.

Definition get_known_nodes (env : Env) (db : ChatDb) : outcome (gmap string pydict) :=
  known_nodes_from env ∅ (known_node_rows db).

(** [list(known_nodes.keys())]: the names in the order of their first
    row. *)
Fixpoint known_node_names (seen : list string) (rows : list KnownNode) : list string :=
  match rows with
  | [] => []
  | node :: rows' =>
      if bool_decide (kn_name node ∈ seen) then known_node_names seen rows'
      else kn_name node :: known_node_names (kn_name node :: seen) rows'
  end.

(** [save_chat_message(role, content, rule_id, session_id)]. *)
Definition save_chat_message (db : ChatDb) (role content : string)
    (rule_id : option Z) (session_id : Z) : ChatDb :=
  {| chat_sessions := chat_sessions db;
     chat_messages := chat_messages db ++
       [{| cm_role := role; cm_content := content;
           cm_rule_id := rule_id; cm_session_id := Some session_id |}];
     known_node_rows := known_node_rows db;
     automation_rules := automation_rules db |}.

(** An entry of [resolved_nodes].  The config of a known node is the dict
    that [known_nodes] holds under that name, and [config.update] changes
    it in place: such an entry is kept as a reference, and the dict is
    read when the list is written.  Every other entry is a dict of its
    own. *)
Inductive node_ref :=
  | KnownRef (name : string)
  | Own (config : pydict).

(** The state of the loop over the nodes of the rule. *)
Record resolution := Resolution {
  known_configs : gmap string pydict;
  resolved_nodes : list node_ref;
  unresolved_nodes : list string
}.

(** [node_name] for an item of the rule: the item itself when it is a
    string, and its name, else its host name, when it is a dict. *)
Definition node_name_of_item (node_item : pyval) : outcome pyval :=
  match node_item with
  | PStr _ => Returns node_item
  | PDict d => Returns (Py.or_else (Py.get "name" d) (Py.get "hostname" d))
  | _ => Raises (PyText.attribute_error node_item "get")
  end.

(** One turn of [for node_item in rule_data.get("nodes", [])].
    [resolve_node] raises [TypeError] on a name that is not a string. *)
Definition resolve_item (st : resolution) (node_item : pyval) : outcome resolution :=
  node_name ← node_name_of_item node_item;
  match node_name with
  | PStr name =>
      match resolve_node name (known_configs st) with
      | (true, Some config) =>
          let config := match node_item with
                        | PDict d => PyText.update config d
                        | _ => config
                        end in
          match known_configs st !! name with
          | Some _ =>
              Returns (Resolution (<[name := config]> (known_configs st))
                                  (resolved_nodes st ++ [KnownRef name])
                                  (unresolved_nodes st))
          | None =>
              Returns (Resolution (known_configs st)
                                  (resolved_nodes st ++ [Own config])
                                  (unresolved_nodes st))
          end
      | _ =>
          match node_item with
          | PDict d =>
              if Py.truthy (Py.get "hostname" d)
              then Returns (Resolution (known_configs st)
                                       (resolved_nodes st ++ [Own d])
                                       (unresolved_nodes st))
              else Returns (Resolution (known_configs st) (resolved_nodes st)
                                       (unresolved_nodes st ++ [name]))
          | _ => Returns (Resolution (known_configs st) (resolved_nodes st)
                                     (unresolved_nodes st ++ [name]))
          end
      end
  | _ => Raises (Exn OtherError "expected string or bytes-like object")
  end.

(** The whole loop. *)
Fixpoint resolve_items (st : resolution) (items : list pyval) : outcome resolution :=
  match items with
  | [] => Returns st
  | node_item :: items' => st' ← resolve_item st node_item; resolve_items st' items'
  end.

(** The dict behind an entry of [resolved_nodes] when the loop is over. *)
Definition deref (known : gmap string pydict) (r : node_ref) : pyval :=
  match r with
  | KnownRef name => PDict (default [] (known !! name))
  | Own config => PDict config
  end.

(** [json.dumps(resolved_nodes)], as the value it encodes. *)
Definition resolved_json (st : resolution) : list pyval :=
  map (deref (known_configs st)) (resolved_nodes st).

Record ChatResponse := {
  type : string;
  message : option string;
  rule : option pydict;
  rule_id : option Z;
  clarification : option string;
  session_id : option Z
}.

(** How a request ends: with a response and the database it leaves; with
    an exception that no clause catches (status 500); or in a way that
    depends on the database engine and on the validation of the response
    model, about which nothing is said here (a value of the wrong type in
    a column or in a field of the response). *)
Inductive reply :=
  | Answered (response : ChatResponse) (db : ChatDb)
  | InternalError (e : exn)
  | OutOfModel.

Definition unrecognized (name : string) : string :=
  "I don't recognize '" +:+ name +:+ "'. What's its IP address? (e.g., 192.168.1.10)".

(** The branch of [send_message] for a result of type "rule". *)
Definition create_rule (db : ChatDb) (session_id : Z) (known : gmap string pydict)
    (rule_data : pydict) : reply :=
  match PyText.iterate (Py.get_or "nodes" (PList []) rule_data) with
  | Raises e => InternalError e
  | Returns items =>
      match resolve_items (Resolution known [] []) items with
      | Raises e => InternalError e
      | Returns st =>
          match unresolved_nodes st, resolved_nodes st with
          | first :: _, [] =>
              Answered {| type := "clarification"; message := None; rule := None;
                          rule_id := None; clarification := Some (unrecognized first);
                          session_id := Some session_id |}
                       (save_chat_message db "assistant" (unrecognized first) None session_id)
          | _, _ =>
              match Py.get_or "name" (PStr "Unnamed Rule") rule_data,
                    Py.get_or "execution" (PStr "sequential") rule_data with
              | PStr name, PStr execution =>
                  let id := fresh (dom (automation_rules db)) in
                  let row :=
                    {| rule_name := name;
                       rule_session_id := session_id;
                       rule_nodes_json := resolved_json st;
                       rule_commands_json := Py.get_or "commands" (PList []) rule_data;
                       rule_execution_mode := execution;
                       rule_report_config_json := Py.get_or "report" (PDict []) rule_data;
                       rule_command := "DEPRECATED";
                       rule_status := ChatApi.CREATED |} in
                  let db := {| chat_sessions := chat_sessions db;
                               chat_messages := chat_messages db;
                               known_node_rows := known_node_rows db;
                               automation_rules := <[id := row]> (automation_rules db) |} in
                  match generate_rule_card_text rule_data with
                  | Raises e => InternalError e
                  | Returns rule_card =>
                      Answered {| type := "rule"; message := Some rule_card;
                                  rule := Some rule_data; rule_id := Some id;
                                  clarification := None; session_id := Some session_id |}
                               (save_chat_message db "assistant" rule_card (Some id) session_id)
                  end
              | _, _ => OutOfModel
              end
          end
      end
  end.

(** [send_message(request)]. *)
Definition send_message (env : Env) (db : ChatDb) (request_message : string)
    (request_session_id : option Z) : reply :=
  let '(session_id, db) :=
    match request_session_id with
    | Some id =>
        if id =? 0 then
          let id' := fresh (dom (chat_sessions db)) in
          (id', {| chat_sessions := <[id' := "Ad-hoc Session"]> (chat_sessions db);
                   chat_messages := chat_messages db;
                   known_node_rows := known_node_rows db;
                   automation_rules := automation_rules db |})
        else (id, db)
    | None =>
        let id' := fresh (dom (chat_sessions db)) in
        (id', {| chat_sessions := <[id' := "Ad-hoc Session"]> (chat_sessions db);
                 chat_messages := chat_messages db;
                 known_node_rows := known_node_rows db;
                 automation_rules := automation_rules db |})
    end in
  let db := save_chat_message db "user" request_message None session_id in
  match get_known_nodes env db with
  | Raises e => InternalError e
  | Returns known =>
      let names := known_node_names [] (known_node_rows db) in
      match parse_user_intent (chat env) (json_loads env) request_message (Some names) with
      | PDict result =>
          if Py.eq_str (Py.get "type" result) "clarification" then
            match Py.get_or "clarification" (PStr "Could you provide more details?") result
            with
            | PStr text =>
                Answered {| type := "clarification"; message := None; rule := None;
                            rule_id := None; clarification := Some text;
                            session_id := Some session_id |}
                         (save_chat_message db "assistant" text None session_id)
            | _ => OutOfModel
            end
          else if Py.eq_str (Py.get "type" result) "rule" then
            match Py.get_or "rule" (PDict []) result with
            | PDict rule_data => create_rule db session_id known rule_data
            | v => InternalError (PyText.attribute_error v "get")
            end
          else
            match Py.get_or "message"
                    (PStr "I'm here to help automate your infrastructure.") result with
            | PStr text =>
                Answered {| type := "chat"; message := Some text; rule := None;
                            rule_id := None; clarification := None;
                            session_id := Some session_id |}
                         (save_chat_message db "assistant" text None session_id)
            | _ => OutOfModel
            end
      | v => InternalError (PyText.attribute_error v "get")
      end
  end.

(** For a list of plain names: the configs of the names that resolve, in
    order, and the names that do not. *)
Definition configs_of (known : gmap string pydict) (names : list string) : list pyval :=
  omap (fun name => PDict <$> snd (resolve_node name known)) names.

Definition unknown_of (known : gmap string pydict) (names : list string) : list string :=
  filter (fun name => fst (resolve_node name known) = false) names.

End Chat.

(* ================================================================== *)
(** ** More sample environments *)
(* ================================================================== *)

Module Samples.
Import ChatEngine Intent Chat.

(** A known node with a stored password. *)
Definition primary : KnownNode :=
  {| kn_name := "primary"; kn_hostname := "192.168.2.6"; kn_username := "ubuntu";
     kn_port := 22; kn_auth_type := "password";
     kn_credential_encrypted := Some "Z0FBQUFBQm8" |}.

Definition chat_db : ChatDb :=
  {| chat_sessions := {[ 1 := "New Session" ]};
     chat_messages := [];
     known_node_rows := [primary];
     automation_rules := ∅ |}.

(** The dict a reply of the model is parsed into: a rule for [nodes]. *)
Definition uptime_rule (nodes : list pyval) : pydict :=
  [("name", PStr "Uptime check");
   ("nodes", PList nodes);
   ("commands", PList [PDict [("cmd", PStr "uptime"); ("logic", PStr "report output")]]);
   ("execution", PStr "sequential")].

Definition rule_result (nodes : list pyval) : pydict :=
  [("type", PStr "rule"); ("rule", PDict (uptime_rule nodes))].

(** The model answers with a rule for [nodes]; the stored credential
    decrypts to a password. *)
Definition env_rule (nodes : list pyval) : Env :=
  {| decrypt_credential := fun _ => Returns "hunter2";
     chat := fun _ _ => Returns "{}";
     json_loads := fun _ => Some (PDict (rule_result nodes)) |}.

(** The LLM client raises. *)
Definition env_down : Env :=
  {| decrypt_credential := fun _ => Returns "hunter2";
     chat := fun _ _ => Raises (Exn OtherError "Connection error.");
     json_loads := fun _ => None |}.

Definition primary_config : pydict :=
  [("name", PStr "primary"); ("hostname", PStr "192.168.2.6");
   ("username", PStr "ubuntu"); ("port", PInt 22);
   ("auth_type", PStr "password"); ("credential", PStr "hunter2")].

(** The text of the rule card of a rule, empty when it cannot be written. *)
Definition card_of (rule : pydict) : string :=
  match generate_rule_card_text rule with Returns card => card | Raises _ => "" end.

End Samples.

(* ================================================================== *)
(** ** [chat_api.py]: the report of a rule *)
(* ================================================================== *)

Module Report.

Import ChatEngine ChatApi.

(** An entry of [command_results]: what the timeline says about a
    command. *)
Record finding := Finding {
  executed : bool;
  deviation : string;     (* "OK" or "NOK" *)
  remarks : pyval
}.

(** The two variables of the loop over the timeline. *)
Record scan_state := Scan {
  command_results : gmap string finding;
  current_cmd : option string
}.

(** [if current_cmd:]. *)
Definition active (st : scan_state) : option string :=
  match current_cmd st with
  | Some (String c rest as cmd) => Some cmd
  | _ => None
  end.

(** [command_results[cmd]], [command_results[cmd]["status"] = status] and
    [command_results[cmd]["remarks"] = remarks]: [KeyError] when [cmd] is
    not a key. *)
Definition key_error (cmd : string) : exn := Exn OtherError (Py.repr_str cmd).

Definition get_item (results : gmap string finding) (cmd : string) : outcome finding :=
  match results !! cmd with
  | Some f => Returns f
  | None => Raises (key_error cmd)
  end.

Definition set_status (results : gmap string finding) (cmd status : string)
  : outcome (gmap string finding) :=
  f ← get_item results cmd;
  Returns (<[cmd := Finding (executed f) status (remarks f)]> results).

Definition set_remarks (results : gmap string finding) (cmd : string) (text : pyval)
  : outcome (gmap string finding) :=
  f ← get_item results cmd;
  Returns (<[cmd := Finding (executed f) (deviation f) text]> results).

(** [incident_msg[:200]]. *)
Definition first_200 (v : pyval) : outcome pyval :=
  match v with
  | PStr s => Returns (PStr (PyText.take_chars 200 s))
  | PList l => Returns (PList (take 200 l))
  | _ => Raises (Exn OtherError ("'" +:+ Py.type_name v +:+ "' object is not subscriptable"))
  end.

(** One turn of [for event in timeline].  Once the first test has not
    raised, the message is a string, a list or a dict, and the other
    membership tests do not raise. *)
Definition scan_event (st : scan_state) (event : pydict) : outcome scan_state :=
  let event_msg := Py.get_or "message" (PStr "") event in
  let event_status := Py.get_or "status" (PStr "") event in
  let event_type := Py.get_or "type" (PStr "") event in
  let has needle :=
    match PyText.in_ needle event_msg with Returns b => b | Raises _ => false end in
  match PyText.in_ "Running command:" event_msg with
  | Raises e => Raises e
  | Returns true =>
      text ← PyText.str_method event_msg "replace" (PyText.replace "Running command:" "");
      Returns (Scan (<[Py.strip text := Finding true "OK" (PStr "-")]> (command_results st))
                    (Some (Py.strip text)))
  | Returns false =>
      match active st with
      | Some cmd =>
          if has "⚠️" || has "Condition met" || Py.eq_str event_status "warning" then
            marked ← set_status (command_results st) cmd "NOK";
            text ← (if has "Condition met:"
                    then PyText.str_method event_msg "split"
                           (fun m => Py.strip (List.last (PyText.split "Condition met:" m) ""))
                    else PyText.str_method event_msg "replace"
                           (fun m => Py.strip (PyText.replace "⚠️" "" m)));
            results ← set_remarks marked cmd (PStr text);
            Returns (Scan results (current_cmd st))
          else if has "✓" || has "All clear" then
            f ← get_item (command_results st) cmd;
            if String.eqb (deviation f) "NOK" then Returns st
            else
              marked ← set_status (command_results st) cmd "OK";
              text ← PyText.str_method event_msg "replace"
                       (fun m => Py.strip (PyText.replace "All clear:" ""
                                             (PyText.replace "✓" "" m)));
              results ← set_remarks marked cmd
                          (PStr (if String.eqb text "" then "Success" else text));
              Returns (Scan results (current_cmd st))
          else if Py.eq_str event_type "incident" then
            incident_msg ← PyText.get_attr (Py.get_or "details" (PDict []) event)
                             "summary" event_msg;
            marked ← set_status (command_results st) cmd "NOK";
            text ← first_200 incident_msg;
            results ← set_remarks marked cmd text;
            Returns (Scan results (current_cmd st))
          else Returns st
      | None =>
          if Py.eq_str event_type "incident" then
            _ ← PyText.get_attr (Py.get_or "details" (PDict []) event) "summary" event_msg;
            Returns st
          else Returns st
      end
  end.

(** The whole loop, from an empty dict and no current command. *)
Fixpoint scan_from (st : scan_state) (timeline : list event) : outcome scan_state :=
  match timeline with
  | [] => Returns st
  | event :: timeline' => st' ← scan_event st event; scan_from st' timeline'
  end.

Definition scan (timeline : list event) : outcome scan_state :=
  scan_from (Scan ∅ None) timeline.

(** A row of the report. *)
Record row := {
  Nodename : string;
  Nodetype : string;
  Nodeip : string;
  Command : string;
  Deviationstatus : string;
  Deviationremarks : pyval;
  Executionstatus : string;
  Executionremarks : string;
  Parserresult : string
}.

(** The row of a node and a command: what is found about the command is
    looked up by the text of the command alone. *)
Definition report_row (results : gmap string finding) (node : node_config)
    (c : cmd_config) : row :=
  let cmd_text := default "N/A" (cmd c) in
  let cmd_logic := default "" (logic c) in
  let result := results !! cmd_text in
  let deviation_status := match result with Some f => deviation f | None => "OK" end in
  {| Nodename := default "Unknown" (nc_name node);
     Nodetype := PyText.upper (match nc_auth node with
                               | Some a => default "SSH" (auth_type a)
                               | None => "SSH"
                               end);
     Nodeip := default "N/A" (nc_hostname node);
     Command := cmd_text;
     Deviationstatus := deviation_status;
     Deviationremarks := match result with Some f => remarks f | None => PStr "-" end;
     Executionstatus := match result with
                        | Some f => if executed f then "Executed" else "-"
                        | None => "-"
                        end;
     Executionremarks := "-";
     Parserresult := if negb (String.eqb cmd_logic "") && String.eqb deviation_status "NOK"
                     then "Logic: " +:+ cmd_logic else "-" |}.

(** [report_rows]: node after node and, for each node, command after
    command. *)
Definition report_rows (results : gmap string finding) (nodes : list node_config)
    (commands : list cmd_config) : list row :=
  flat_map (fun node => map (report_row results node) commands) nodes.

Definition header : list string :=
  ["Nodename"; "Nodetype"; "Nodeip"; "Command"; "Deviationstatus"; "Deviationremarks";
   "Executionstatus"; "Executionremarks"; "Parserresult"].

(** The cells of a row, as they are handed to the CSV writer and to the
    worksheet. *)
Definition cells (r : row) : list pyval :=
  [PStr (Nodename r); PStr (Nodetype r); PStr (Nodeip r); PStr (Command r);
   PStr (Deviationstatus r); Deviationremarks r; PStr (Executionstatus r);
   PStr (Executionremarks r); PStr (Parserresult r)].

(** [status.value]. *)
Definition status_value (s : RuleStatus) : string :=
  match s with
  | CREATED => "created"
  | EXECUTING => "executing"
  | COMPLETED => "completed"
  | FAILED => "failed"
  end.

(** What [get_report] answers: the report as JSON, the name of the file
    with the rows written by [csv.writer] or put cell by cell into the
    worksheet (what [openpyxl] makes of a cell is outside the model), or
    an HTTP error.  The name of the rule and the time stamps are left
    out. *)
Inductive report :=
  | Json (execution_id : option Z) (status : string) (rows : list row)
  | Csv (filename : string) (header : list string) (table : list (list pyval))
  | Excel (filename : string) (header : list string) (table : list (list pyval))
  | HTTPException (status_code : Z) (detail : string).

(** [get_report(rule_id, format)].  [latest] is the identifier of the
    row that the query for the most recent execution of the rule gives,
    if any; [openpyxl] says whether that package can be imported.  An
    exception raised while the timeline is read is not caught. *)
Definition get_report (db : Db) (latest : option Z) (openpyxl : bool)
    (rule_id : Z) (format : string) : outcome report :=
  match rules db !! rule_id with
  | None => Returns (HTTPException 404 "Rule not found")
  | Some rule =>
      let execution :=
        match latest with
        | Some id => (fun e => (id, e)) <$> rule_executions db !! id
        | None => None
        end in
      let timeline := match execution with Some (_, e) => timeline_json e | None => [] end in
      st ← scan timeline;
      let rows := report_rows (command_results st) (nodes_json rule) (commands_json rule) in
      if String.eqb format "json" then
        Returns (Json (fst <$> execution)
                      (match execution with
                       | Some (_, e) => status_value (ChatApi.status e)
                       | None => "not_executed"
                       end)
                      rows)
      else if String.eqb format "csv" then
        Returns (Csv ("report_rule_" +:+ Py.str_int rule_id +:+ ".csv") header
                     (map cells rows))
      else if String.eqb format "excel" then
        if openpyxl
        then Returns (Excel ("report_rule_" +:+ Py.str_int rule_id +:+ ".xlsx") header
                            (map cells rows))
        else Returns (HTTPException 500
                        "Excel export requires openpyxl. Install with: pip install openpyxl")
      else Returns (HTTPException 400 "Invalid format. Use: json, csv, or excel")
  end.

(** A text with none of the markers that the loop over the timeline looks
    for. *)
Definition plain (s : string) : bool :=
  negb (Py.contains "Running command:" s) && negb (Py.contains "⚠️" s) &&
  negb (Py.contains "Condition met" s) && negb (Py.contains "✓" s) &&
  negb (Py.contains "All clear" s).

(** A command text that the loop reads back as it is: not empty, with no
    white space around it and none of the markers in it. *)
Definition tidy (text : string) : bool :=
  negb (String.eqb text "") && String.eqb (Py.strip text) text && plain text.

(** The text that the worker puts after "Condition met: " or after
    "All clear: ": [analysis.get("summary")], or the default of the
    narrative when it is empty. *)
Definition summary_text (d : pydict) : string :=
  Py.str (Py.or_else (Py.get "summary" d)
            (PStr (if Py.truthy (Py.get "condition_met" d)
                   then "threshold exceeded" else "within normal range"))).

(** What the report is to say about a command whose output the model
    analysed as [d]. *)
Definition verdict (d : pydict) : finding :=
  let text := Py.strip (summary_text d) in
  if Py.truthy (Py.get "condition_met" d)
  then Finding true "NOK" (PStr text)
  else Finding true "OK" (PStr (if String.eqb text "" then "Success" else text)).

(** The analysis that the worker of the node at position [i] gets for
    the command at position [k], when the command ends and the analysis
    is a dict. *)
Definition analysis_at (w : World) (i k : nat) (condition : string) (c : cmd_config)
  : option pydict :=
  match await (conn_run w i k (cmd c)) with
  | Some (Returns result) =>
      match analyze_output_with_llm (chat w i k) (json_loads w) (cp_stdout result)
              (PStr (default "" (logic c))) (PStr condition) with
      | PDict d => Some d
      | _ => None
      end
  | _ => None
  end.

(** Whether a non-empty end of [a] is a beginning of [p]: an occurrence
    of [p] could then start in [a] and go on in what follows [a]. *)
Fixpoint ends_into (a p : string) : bool :=
  match a with
  | EmptyString => false
  | String c a' => Py.startswith (String c a') p || ends_into a' p
  end.

End Report.

(* ================================================================== *)
(** ** [chat_api.py]: the upload of a file of nodes *)
(* ================================================================== *)

Module Upload.

(** What [upload_nodes_file] answers.  An Excel file read with [openpyxl]
    is outside the model: its cells are not only strings. *)
Inductive response :=
  | Imported (node_count : Z) (nodes preview : list pydict)
             (summary suggested_prompt : string)
  | HTTPException (status_code : Z) (detail : string)
  | OutOfModel.

(** [v.strip()]. *)
Definition stripped (v : pyval) : outcome string := PyText.str_method v "strip" Py.strip.

(** The node of a row of [csv.DictReader]: a dict from the names of the
    columns to the fields of the line, with [None] for the columns that
    the line is too short for. *)
Definition node_of_row (row : pydict) : outcome pydict :=
  hostname ← stripped (Py.get_or "hostname"
                         (Py.get_or "ip" (Py.get_or "host" (PStr "") row) row) row);
  name ← stripped (Py.get_or "name"
                     (Py.get_or "hostname" (Py.get_or "ip" (PStr "") row) row) row);
  username ← stripped (Py.get_or "username" (Py.get_or "user" (PStr "ubuntu") row) row);
  type ← stripped (Py.get_or "auth_type" (PStr "key") row);
  Returns [("hostname", PStr hostname); ("name", PStr name);
           ("auth", PDict [("username", PStr username); ("type", PStr type)])].

(** [for row in reader]: a node is kept [if node["hostname"]]. *)
Fixpoint nodes_of_rows (rows : list pydict) : outcome (list pydict) :=
  match rows with
  | [] => Returns []
  | row :: rows' =>
      node ← node_of_row row;
      nodes ← nodes_of_rows rows';
      Returns (if Py.truthy (Py.get "hostname" node) then node :: nodes else nodes)
  end.

Definition is_excel_or_csv (filename : string) : bool :=
  PyText.endswith ".csv" filename || PyText.endswith ".xlsx" filename ||
  PyText.endswith ".xls" filename.

(** [upload_nodes_file(file)].  [csv_rows] is what decoding the content
    and reading it with [csv.DictReader] gives, or the exception that it
    raises; [openpyxl] says whether that package can be imported;
    [str_http] is [str(e)] for an [HTTPException] with the given status
    and detail.  The [HTTPException] raised for [ImportError] is raised
    inside the outer [try], whose [except Exception] catches it. *)
Definition upload_nodes_file (str_http : Z -> string -> string)
    (file_filename : option string) (csv_rows : outcome (list pydict)) (openpyxl : bool)
  : response :=
  match file_filename with
  | None | Some EmptyString => HTTPException 400 "No file provided"
  | Some original =>
      let filename := PyText.lower original in
      if negb (is_excel_or_csv filename)
      then HTTPException 400 "Only CSV and Excel files are supported"
      else
        let answer (nodes : list pydict) : response :=
          match nodes with
          | [] => HTTPException 400 "No valid nodes found in file"
          | _ =>
              let n := Z.of_nat (length nodes) in
              Imported n nodes (take 5 nodes)
                ("Imported " +:+ Py.str_int n +:+ " nodes from " +:+ original)
                ("Run health check on all " +:+ Py.str_int n +:+ " imported nodes")
          end in
        let failed (text : string) : response :=
          HTTPException 400 ("Failed to parse file: " +:+ text) in
        if PyText.endswith ".csv" filename then
          match rows ← csv_rows; nodes_of_rows rows with
          | Returns nodes => answer nodes
          | Raises e => failed (exn_msg e)
          end
        else if openpyxl then OutOfModel
        else failed (str_http 500 "Excel parsing requires openpyxl. Install with: pip install openpyxl")
  end.

(** A line of the file with all its fields. *)
Definition complete (row : pydict) : Prop := Forall (fun kv => exists s, snd kv = PStr s) row.

End Upload.

(* ================================================================== *)
(** ** Sample runs for the report, the scheduler and the upload *)
(* ================================================================== *)

Module ReportSamples.

Import ChatEngine ChatApi Consumer Examples Report.

(** As [w_up], but the model reports a critical finding on every command
    of the first node of the plan. *)
Definition w_first_critical : World :=
  {| known_nodes := ∅;
     path_exists := fun _ => false;
     import_private_key := fun pem => Returns (ImportedKey pem);
     ssh_connect := fun _ _ => Returns ();
     conn_run := fun _ _ _ => Completes 1 (CompletedProcess 0 "/dev/sda1 97%" "");
     chat := fun i _ _ => if Nat.eqb i 0 then Returns "{critical}" else Returns "{ok}";
     json_loads := sample_json_loads |}.

(** Two nodes, one after the other, with two commands each. *)
Definition two_nodes : AutomationRule := rule_of "sequential" [n1; n2] [uptime; df].

(** The database once the stream of the execution 0 of [two_nodes] has
    finalized it, every event having been consumed as soon as it was
    put. *)
Definition db_reported : Db :=
  finalize (db_running two_nodes) 0 new_execution
    (state_after (lockstep 22) (tasks_of w_first_critical two_nodes)).

(** The rows of the JSON report of that execution. *)
Definition reported_rows : list row :=
  match get_report db_reported (Some 0) true 1 "json" with
  | Returns (Json _ _ rows) => rows
  | _ => []
  end.

(** A rule from before [commands_json]: its command is in the legacy
    column. *)
Definition legacy_rule : AutomationRule :=
  {| nodes_json := [n1];
     commands_json := [];
     command := Some "uptime";
     extraction_hint := None;
     condition := None;
     execution_mode := None |}.

End ReportSamples.

Module RunbookSamples.

Import Executor Scheduler Api Examples.

(** A command bound to a server that is not among the servers of the
    runbook. *)
Definition bound_elsewhere : Command :=
  {| command_id := 2; script := "uptime";
     is_universal := false; command_server_id := Some 9 |}.

Definition store_unbound : Store :=
  {| runbooks := {[ 1 ]};
     runbook_servers := {[ 1 := [server 1 "10.0.0.1"] ]};
     runbook_commands := {[ 1 := [bound_elsewhere] ]};
     executions := {[ 5 := PENDING ]};
     results := [] |}.

(** A [CronTrigger] that accepts every five fields. *)
Definition accept_all (parts : list string) : bool := true.

Definition no_error (parts : list string) : string := "".

(** The runbook 1 runs every Sunday at midnight, the runbook 2 is not
    scheduled. *)
Definition weekly : state :=
  {| runbook_table :=
       {[ 1 := {| is_scheduled := true; schedule_type := Some CRON;
                  cron_expression := Some "0 0 * * 0" |};
          2 := {| is_scheduled := false; schedule_type := None;
                  cron_expression := None |} ]};
     job_store := {[ job_id_of 1 := Job 1 (CronTrigger "0" "0" "*" "*" "0") ]} |}.

End RunbookSamples.

Module UploadSamples.

(** A rendering of [str(e)] for an [HTTPException]: the status and the
    detail. *)
Definition str_http (status_code : Z) (detail : string) : string :=
  Py.str_int status_code +:+ ": " +:+ detail.

(** Lines of a file with the columns "name", "hostname", "ip" and
    "username": a full line, a line that stops after the name, and a line
    whose host name is blank. *)
Definition full_line : pydict :=
  [("name", PStr "web1"); ("hostname", PStr " 10.0.0.5 "); ("ip", PStr "");
   ("username", PStr "root")].

Definition short_line : pydict :=
  [("name", PStr "web2"); ("hostname", PNone); ("ip", PNone); ("username", PNone)].

Definition blank_line : pydict :=
  [("name", PStr "web3"); ("hostname", PStr "  "); ("ip", PStr "10.0.0.9");
   ("username", PStr "root")].

End UploadSamples.

(* ================================================================== *)
(** * Properties *)
(* ================================================================== *)

(** ** The consumer loop: what every run preserves *)

Module ConsumerFacts.

Import ChatApi Consumer.

Lemma proj_app j l1 l2 : proj j (l1 ++ l2) = proj j l1 ++ proj j l2.
Proof. apply List.filter_app. Qed.

Lemma proj_all j l : Forall (fun q => q_task q = j) l -> proj j l = l.
Proof.
  induction 1 as [|q l Hq _ IH]; [done|].
  unfold proj in *. simpl. rewrite Hq, Nat.eqb_refl. by f_equal.
Qed.

Lemma done_count_le (l : list task) : (length (List.filter done l) <= length l)%nat.
Proof. induction l as [|t l IH]; simpl; [lia|]. destruct (done t); simpl; lia. Qed.

Lemma done_count_full (l : list task) :
  length (List.filter done l) = length l -> Forall (fun t => done t = true) l.
Proof.
  induction l as [|t l IH]; simpl; [constructor|].
  pose proof (done_count_le l) as Hle.
  destruct (done t) eqn:E; simpl; intros H; [|lia].
  constructor; [done|]. apply IH. lia.
Qed.

Lemma done_count_all (l : list task) :
  Forall (fun t => done t = true) l -> length (List.filter done l) = length l.
Proof.
  induction 1 as [|t l Ht _ IH]; simpl; [done|]. rewrite Ht. simpl. lia.
Qed.

(** A task that puts an item was not done, so the number of done tasks
    does not go down. *)
Lemma done_count_insert (l : list task) j q rest t :
  l !! j = Some (Task (q :: rest) t) ->
  (length (List.filter done l) <= length (List.filter done (<[j := Task rest t]> l)))%nat.
Proof.
  revert j. induction l as [|x l IH]; intros [|j] H; simplify_eq/=; try lia.
  - destruct (done (Task rest t)); simpl; lia.
  - specialize (IH _ H). destruct (done x); simpl; lia.
Qed.

Lemma done_insert_all (l : list task) j q rest t :
  l !! j = Some (Task (q :: rest) t) ->
  ~ Forall (fun t => done t = true) l.
Proof.
  intros H HF. rewrite Forall_lookup in HF. specialize (HF _ _ H). done.
Qed.

Lemma inv_start ts : inv ts (start ts).
Proof.
  split; simpl; try done.
  - intros j t0 H. exists t0. done.
  - lia.
Qed.

Lemma inv_step ts l s s' :
  well_tagged ts -> inv ts s -> step l s = Some s' -> inv ts s'.
Proof.
  intros Hwt [Hlen Hcons Htags Hsteps Hsub Hfin Hph Hfinal] Hstep.
  destruct l as [j| | | | |]; simpl in Hstep.
  - (* Put *)
    destruct (tasks s !! j) as [[[|q rest] t]|] eqn:Hj; simplify_eq.
    assert (Hjlt : (j < length ts)%nat).
    { rewrite <- Hlen. by eapply lookup_lt_Some. }
    destruct (lookup_lt_is_Some_2 ts j Hjlt) as [t0 Ht0].
    assert (Hq : q_task q = j).
    { destruct (Hcons _ _ Ht0) as (t' & Ht' & _ & Heq).
      rewrite Hj in Ht'. injection Ht' as <-. simpl in Heq.
      pose proof (Hwt _ _ Ht0) as HF. rewrite <- Heq in HF.
      apply Forall_app in HF as [_ HF]. by inversion HF. }
    split; simpl; try done.
    + by rewrite length_insert.
    + intros j' t0' Hj'. destruct (Hcons _ _ Hj') as (t' & Ht' & Hterm & Heq).
      destruct (decide (j' = j)) as [->|Hne].
      * rewrite Hj in Ht'. injection Ht' as <-. simpl in *.
        exists (Task rest t). split.
        { apply list_lookup_insert_eq. by eapply lookup_lt_Some. }
        split; [done|]. simpl. rewrite <- Heq.
        rewrite !app_assoc, !proj_app. simpl.
        rewrite Hq, Nat.eqb_refl. by rewrite <- !app_assoc.
      * exists t'. split; [by rewrite list_lookup_insert_ne|]. split; [done|].
        rewrite <- Heq. rewrite app_assoc, proj_app. simpl.
        destruct (Nat.eqb_spec (q_task q) j'); [congruence|].
        by rewrite app_nil_r.
    + rewrite app_assoc. apply Forall_app. split; [done|]. constructor; [lia|done].
    + etrans; [exact Hfin|]. by eapply done_count_insert.
    + intros Hne. specialize (Hph Hne). by eapply done_insert_all in Hph.
    + intros Hf. specialize (Hph ltac:(congruence)). by eapply done_insert_all in Hph.
  - (* Get *)
    destruct (ph s) eqn:Hp; try done. destruct (queue s) as [|q rest] eqn:Hq; try done.
    destruct (finished_tasks s <? length (tasks s))%nat; simplify_eq.
    split; simpl; try done.
    + intros j t0 Hj. destruct (Hcons _ _ Hj) as (t' & ? & ? & Heq).
      exists t'. by rewrite <- app_assoc.
    + by rewrite <- app_assoc.
    + rewrite map_app, List.filter_app. simpl.
      destruct (is_step (q_event q)) eqn:E.
      * rewrite List.filter_app. simpl. rewrite E. by f_equal.
      * by rewrite app_nil_r.
    + rewrite map_app. simpl. destruct (is_step (q_event q)).
      * by apply sublist_app.
      * by apply sublist_inserts_r.
  - (* Timeout *)
    destruct (ph s) eqn:Hp; try done.
    destruct (finished_tasks s <? length (tasks s))%nat; simplify_eq.
    split; simpl; try done.
  - (* Leave *)
    destruct (ph s) eqn:Hp; try done.
    destruct (Nat.ltb_spec (finished_tasks s) (length (tasks s))); simplify_eq.
    split; simpl; try done.
    intros _. apply done_count_full. pose proof (done_count_le (tasks s)). lia.
  - (* DrainGet *)
    destruct (ph s) eqn:Hp; try done. destruct (queue s) as [|q rest] eqn:Hq; simplify_eq.
    split; simpl; try done.
    + intros j t0 Hj. destruct (Hcons _ _ Hj) as (t' & ? & ? & Heq).
      exists t'. by rewrite <- app_assoc.
    + by rewrite <- app_assoc.
    + rewrite map_app, !List.filter_app. simpl. by f_equal.
    + rewrite map_app. by apply sublist_app.
  - (* Finish *)
    destruct (ph s) eqn:Hp; try done. destruct (queue s) as [|q rest] eqn:Hq; simplify_eq.
    split; simpl; try done.
    intros _. by apply Hph.
Qed.

Lemma inv_run ts ls : forall s s',
  well_tagged ts -> inv ts s -> run ls s = Some s' -> inv ts s'.
Proof.
  induction ls as [|l ls IH]; intros s s' Hwt Hinv Hrun; simpl in Hrun.
  - by simplify_eq.
  - destruct (step l s) as [s1|] eqn:Hs; [|done].
    eapply IH; [done| |done]. by eapply inv_step.
Qed.

Lemma inv_reachable ts s : well_tagged ts -> reachable ts s -> inv ts s.
Proof. intros Hwt [ls Hrun]. eapply inv_run; [done|apply inv_start|done]. Qed.

(** *** The tasks that [spawn] builds are well tagged *)

Lemma tag_tagged j i evs : Forall (fun q => q_task q = j) (tag j i evs).
Proof. unfold tag. apply Forall_map. by apply Forall_true. Qed.

Lemma sequential_runner_tagged w commands condition nodes : forall i,
  Forall (fun q => q_task q = O)
         (fst (sequential_runner w commands condition i nodes)).
Proof.
  induction nodes as [|node rest IH]; intros i; simpl; [constructor|].
  destruct (process_node w i node commands condition) as [evs [|]]; simpl.
  - specialize (IH (S i)).
    destruct (sequential_runner w commands condition (S i) rest) as [evs' t]; simpl in *.
    apply Forall_app. split; [apply tag_tagged|done].
  - apply tag_tagged.
Qed.

Lemma spawn_well_tagged w mode nodes commands condition :
  well_tagged (spawn w mode nodes commands condition).
Proof.
  unfold spawn, well_tagged. intros j t0.
  destruct (String.eqb mode "parallel").
  - rewrite list_lookup_imap. destruct (nodes !! j) as [node|]; simpl; [|done].
    intros [= <-]. unfold node_task.
    destruct (process_node w j node commands condition) as [evs t]; simpl.
    apply tag_tagged.
  - pose proof (sequential_runner_tagged w commands condition nodes O) as HF.
    destruct (sequential_runner w commands condition O nodes) as [items t]; simpl in *.
    destruct j as [|j]; simpl; [|done]. by intros [= <-].
Qed.

(** *** A task that never returns keeps the run in the consumer loop *)

Lemma blocked_never_leaves ts s j t0 :
  well_tagged ts -> ts !! j = Some t0 -> term t0 = Blocked ->
  reachable ts s -> ph s = Consuming.
Proof.
  intros Hwt Hj Hb Hr. pose proof (inv_reachable _ _ Hwt Hr) as [_ Hcons _ _ _ _ Hph _].
  destruct (ph s) eqn:Hp; [done| |].
  all: specialize (Hph ltac:(done)); destruct (Hcons _ _ Hj) as (t & Ht & Hterm & _).
  all: rewrite Forall_lookup in Hph; specialize (Hph _ _ Ht).
  all: unfold done in Hph; rewrite Hterm, Hb in Hph; by destruct (pending t).
Qed.

(** *** When every task returns, the run can be completed *)

Lemma backlog_pos ts :
  (0 < backlog ts)%nat -> exists j q rest t, ts !! j = Some (Task (q :: rest) t).
Proof.
  induction ts as [|[[|q rest] t] ts IH]; unfold backlog; simpl; [lia| |].
  - intros H. destruct (IH H) as (j & q & rest & t' & Hj). by exists (S j), q, rest, t'.
  - intros _. by exists O, q, rest, t.
Qed.

Lemma backlog_zero ts :
  backlog ts = O -> all_return ts -> Forall (fun t => done t = true) ts.
Proof.
  intros Hb Hr. induction Hr as [|[p t] ts Ht _ IH]; [constructor|].
  unfold backlog in *. simpl in *. constructor.
  - destruct p; simpl in *; [|lia]. by subst.
  - apply IH. lia.
Qed.

Lemma backlog_insert ts j q rest t :
  ts !! j = Some (Task (q :: rest) t) ->
  S (backlog (<[j := Task rest t]> ts)) = backlog ts.
Proof.
  revert j. induction ts as [|x ts IH]; intros [|j] H; simplify_eq/=.
  - unfold backlog. simpl. lia.
  - specialize (IH _ H). unfold backlog in *. simpl. lia.
Qed.

Lemma progress s :
  all_return (tasks s) -> ph s <> Finalized ->
  exists l s', step l s = Some s' /\ (measure s' < measure s)%nat /\ all_return (tasks s').
Proof.
  intros Hr Hph. destruct (Nat.eq_dec (backlog (tasks s)) O) as [Hz|Hnz].
  - pose proof (done_count_all _ (backlog_zero _ Hz Hr)) as Hdone.
    destruct (ph s) eqn:Hp; [| |done].
    + destruct (Nat.ltb_spec (finished_tasks s) (length (tasks s))) as [Hlt|Hge].
      * destruct (queue s) as [|q rest] eqn:Hq.
        -- exists Timeout. eexists. simpl. rewrite Hp.
           destruct (Nat.ltb_spec (finished_tasks s) (length (tasks s))); [|lia].
           split; [done|]. split; [|done].
           unfold measure, rank. simpl. rewrite Hp, Hq, Hdone.
           rewrite Nat.ltb_irrefl.
           destruct (Nat.ltb_spec (finished_tasks s) (length (tasks s))); simpl; lia.
        -- exists Get. eexists. simpl. rewrite Hp, Hq.
           destruct (Nat.ltb_spec (finished_tasks s) (length (tasks s))); [|lia].
           split; [done|]. split; [|done].
           unfold measure, rank. simpl. rewrite Hp, Hq. simpl. lia.
      * exists Leave. eexists. simpl. rewrite Hp.
        destruct (Nat.ltb_spec (finished_tasks s) (length (tasks s))); [lia|].
        split; [done|]. split; [|done].
        unfold measure, rank. simpl. rewrite Hp.
        destruct (Nat.ltb_spec (finished_tasks s) (length (tasks s))); simpl; lia.
    + destruct (queue s) as [|q rest] eqn:Hq.
      * exists Finish. eexists. simpl. rewrite Hp, Hq.
        split; [done|]. split; [|done].
        unfold measure, rank. simpl. rewrite Hp, Hq. simpl. lia.
      * exists DrainGet. eexists. simpl. rewrite Hp, Hq.
        split; [done|]. split; [|done].
        unfold measure, rank. simpl. rewrite Hp, Hq. simpl. lia.
  - destruct (backlog_pos (tasks s)) as (j & q & rest & t & Hj); [lia|].
    exists (Put j). eexists. simpl. rewrite Hj. split; [done|].
    pose proof (backlog_insert _ _ _ _ _ Hj) as Hb.
    split.
    + unfold measure, rank. simpl. rewrite length_insert, length_app. simpl. lia.
    + unfold all_return in *. apply Forall_insert; [done|].
      rewrite Forall_lookup in Hr. apply (Hr _ _ Hj).
Qed.

Lemma completes_from n : forall s,
  (measure s <= n)%nat -> all_return (tasks s) ->
  exists ls s', run ls s = Some s' /\ ph s' = Finalized.
Proof.
  induction n as [|n IH]; intros s Hm Hr.
  - destruct (ph s) eqn:Hp.
    + unfold measure, rank in Hm. rewrite Hp in Hm.
      destruct (finished_tasks s <? length (tasks s))%nat; lia.
    + unfold measure, rank in Hm. rewrite Hp in Hm. lia.
    + by exists [], s.
  - destruct (ph s) eqn:Hp.
    3: by exists [], s.
    all: destruct (progress s Hr) as (l & s1 & Hs & Hlt & Hr1); [congruence|].
    all: destruct (IH s1) as (ls & s' & Hrun & Hf); [lia|done|].
    all: exists (l :: ls), s'; simpl; by rewrite Hs.
Qed.

(** Every run whose tasks all return can reach the finalisation. *)
Lemma completes ts : all_return ts -> exists s, reachable ts s /\ ph s = Finalized.
Proof.
  intros Hr. destruct (completes_from (measure (start ts)) (start ts)) as (ls & s & Hrun & Hf);
    [lia|done|].
  exists s. split; [by exists ls|done].
Qed.

End ConsumerFacts.

(** ** The regular expressions *)

Module RegexFacts.

Import Regex ChatEngine Spec.

Lemma length_append (a b : string) :
  String.length (a +:+ b) = (String.length a + String.length b)%nat.
Proof. induction a as [|c a IH]; simpl; [done|]. by rewrite IH. Qed.

Lemma append_cons (x : ascii) (a b : string) : String x a +:+ b = String x (a +:+ b).
Proof. reflexivity. Qed.

Lemma append_nil_r (a : string) : a +:+ "" = a.
Proof. induction a as [|x a IH]; [done|]. by rewrite append_cons, IH. Qed.

Lemma append_assoc (a b c : string) : (a +:+ b) +:+ c = a +:+ (b +:+ c).
Proof. induction a as [|x a IH]; [done|]. by rewrite !append_cons, IH. Qed.

Lemma take_drop n : forall s, Py.take n s +:+ Py.drop n s = s.
Proof.
  induction n as [|n IH]; intros [|c s]; simpl; try done. by rewrite append_cons, IH.
Qed.

Lemma take_length n : forall s,
  (n <= String.length s)%nat -> String.length (Py.take n s) = n.
Proof.
  induction n as [|n IH]; intros [|c s]; simpl; try done; try lia.
  intros H. rewrite IH; lia.
Qed.

Lemma drop_append a r : Py.drop (String.length a) (a +:+ r) = r.
Proof. induction a as [|c a IH]; simpl; [by destruct r|done]. Qed.

(** *** The greedy repetition *)

Lemma give_back_sound rest lo : forall n m,
  give_back rest lo n = Some m ->
  exists n' m', (n' <= n)%nat /\ (lo <= n')%nat /\ rest n' = Some m' /\ m = (n' + m')%nat.
Proof.
  induction n as [|n IH]; intros m; simpl.
  - destruct (Nat.leb_spec lo 0); [|done].
    destruct (rest O) as [m'|] eqn:Hr; [|done]. intros [= <-]. exists O, m'. done.
  - destruct (Nat.leb_spec lo (S n)).
    + destruct (rest (S n)) as [m'|] eqn:Hr.
      * intros [= <-]. exists (S n), m'. done.
      * intros H'. destruct (IH _ H') as (n' & m' & ? & ? & ? & ?).
        exists n', m'. repeat split; try done. lia.
    + intros H'. destruct (IH _ H') as (n' & m' & ? & ? & ? & ?).
      exists n', m'. repeat split; try done. lia.
Qed.

Lemma give_back_first rest lo n m' :
  (lo <= n)%nat -> rest n = Some m' -> give_back rest lo n = Some (n + m')%nat.
Proof.
  intros Hlo Hr. destruct n as [|n]; simpl.
  - destruct (Nat.leb_spec lo 0); [|lia]. by rewrite Hr.
  - destruct (Nat.leb_spec lo (S n)); [|lia]. by rewrite Hr.
Qed.

Lemma run_bound k s : forall h, (run k (Some h) s <= h)%nat.
Proof.
  induction s as [|c s IH]; intros [|h]; simpl; try lia.
  destruct (in_class k c); [|lia]. specialize (IH h). lia.
Qed.

Lemma run_length k s : forall hi, (run k hi s <= String.length s)%nat.
Proof.
  induction s as [|c s IH]; intros [[|h]|]; simpl; try lia.
  - destruct (in_class k c); [|lia]. specialize (IH (Some h)). lia.
  - destruct (in_class k c); [|lia]. specialize (IH None). lia.
Qed.

(** The characters that a run of digits covers are digits. *)
Lemma run_digits s : forall hi n,
  (n <= run Digit hi s)%nat -> all_digits (Py.take n s) = true.
Proof.
  induction s as [|c s IH]; intros hi [|n]; simpl; try done.
  destruct hi as [[|h]|]; simpl; try lia.
  - destruct (Py.is_digit c) eqn:Hc; [|lia]. intros H. simpl.
    apply (IH (Some h) n). lia.
  - destruct (Py.is_digit c) eqn:Hc; [|lia]. intros H. simpl.
    apply (IH None n). lia.
Qed.

(** A run of digits stops where the digits stop. *)
Lemma run_stop a rest : forall h,
  all_digits a = true -> (String.length a <= h)%nat -> starts_with_digit rest = false ->
  run Digit (Some h) (a +:+ rest) = String.length a.
Proof.
  induction a as [|c a IH]; intros h Hd Hl Hr.
  - change ("" +:+ rest) with rest.
    destruct h, rest as [|c r]; simpl in *; try done. by rewrite Hr.
  - rewrite append_cons. simpl in *. destruct h as [|h]; [lia|].
    apply andb_true_iff in Hd as [Hc Hd]. rewrite Hc.
    f_equal. apply IH; [done|lia|done].
Qed.

(** *** An octet followed by something that is not a digit *)

Lemma octet_then (c : ascii) (p' : regex) st s m :
  Py.is_digit c = false ->
  match_here (octet :: Lit c :: p') st s = Some m <->
  exists a rest m',
    octet_shaped a /\ s = a +:+ String c rest /\
    match_here p' false rest = Some m' /\ m = (String.length a + S m')%nat.
Proof.
  intros Hc. unfold octet. cbn [match_here]. split.
  - intros H. apply give_back_sound in H as (n' & m'' & Hle & Hlo & Hrest & ->).
    destruct (Py.drop n' s) as [|c' r] eqn:Hd; [done|].
    destruct (Ascii.eqb_spec c c') as [<-|]; [|done].
    destruct (match_here p' false r) as [m'|] eqn:Hm; [|done].
    injection Hrest as <-.
    pose proof (run_bound Digit s 3). pose proof (run_length Digit s (Some 3%nat)).
    exists (Py.take n' s), r, m'. split; [split|split; [|split]].
    + by eapply run_digits.
    + rewrite take_length; lia.
    + by rewrite <- Hd, take_drop.
    + done.
    + rewrite take_length; lia.
  - intros (a & rest & m' & [Hd Hl] & -> & Hm & ->).
    rewrite run_stop; [|done|lia|by simpl].
    apply give_back_first; [lia|].
    rewrite drop_append. rewrite Ascii.eqb_refl, Hm. done.
Qed.

Lemma octet_eol st s m :
  match_here [octet; Eol] st s = Some m <->
  exists a, octet_shaped a /\ (s = a \/ s = a +:+ nl) /\ m = String.length a.
Proof.
  unfold octet. cbn [match_here]. split.
  - intros H. apply give_back_sound in H as (n' & m'' & Hle & Hlo & Hrest & ->).
    pose proof (run_bound Digit s 3). pose proof (run_length Digit s (Some 3%nat)).
    pose proof (take_drop n' s) as Htd.
    exists (Py.take n' s). split; [split|split].
    + by eapply run_digits.
    + rewrite take_length; lia.
    + destruct (Py.drop n' s) as [|c' [|c'' r]] eqn:Hd; simpl in Hrest; try done.
      * left. by rewrite <- Htd at 1; rewrite append_nil_r.
      * right. destruct (Ascii.eqb_spec c' "010"%char) as [->|]; [|done].
        by rewrite <- Htd at 1.
    + destruct (at_eol (Py.drop n' s)); [|done]. injection Hrest as <-.
      rewrite take_length; lia.
  - intros (a & [Hd Hl] & [->| ->] & ->).
    + assert (Hrun : run Digit (Some 3%nat) a = String.length a).
      { rewrite <- (append_nil_r a) at 1. apply run_stop; [done|lia|done]. }
      assert (Hdrop : Py.drop (String.length a) a = "").
      { pose proof (drop_append a "") as H. by rewrite append_nil_r in H. }
      rewrite Hrun, (give_back_first _ _ _ O); [f_equal; lia|lia|].
      by rewrite Hdrop.
    + rewrite run_stop; [|done|lia|done].
      rewrite (give_back_first _ _ _ O); [f_equal; lia|lia|].
      by rewrite drop_append.
Qed.

(** *** The dotted quad *)

Lemma quad_then (c : ascii) (p' : regex) st s m :
  Py.is_digit c = false ->
  match_here (dotted_quad ++ Lit c :: p') st s = Some m <->
  exists q rest m',
    ipv4_shaped q /\ s = q +:+ String c rest /\
    match_here p' false rest = Some m' /\ m = (String.length q + S m')%nat.
Proof.
  intros Hc.
  change (dotted_quad ++ Lit c :: p')
    with (octet :: Lit "." :: octet :: Lit "." :: octet :: Lit "." :: octet :: Lit c :: p').
  split.
  - intros H.
    apply octet_then in H as (a & r1 & m1 & Ha & -> & H & ->); [|done].
    apply octet_then in H as (b & r2 & m2 & Hb & -> & H & ->); [|done].
    apply octet_then in H as (c0 & r3 & m3 & Hc0 & -> & H & ->); [|done].
    apply octet_then in H as (d & rest & m' & Hd & -> & H & ->); [|done].
    exists (a +:+ "." +:+ b +:+ "." +:+ c0 +:+ "." +:+ d), rest, m'.
    split; [by exists a, b, c0, d|]. split; [|split; [done|]].
    + rewrite !append_assoc. reflexivity.
    + rewrite !length_append. simpl. lia.
  - intros (q & rest & m' & (a & b & c0 & d & Ha & Hb & Hc0 & Hd & ->) & -> & Hm & ->).
    apply octet_then; [done|].
    eexists a, (b +:+ "." +:+ c0 +:+ "." +:+ d +:+ String c rest), _.
    split; [done|]. split; [rewrite !append_assoc; reflexivity|]. split.
    + apply octet_then; [done|].
      eexists b, (c0 +:+ "." +:+ d +:+ String c rest), _.
      split; [done|]. split; [reflexivity|]. split; [|reflexivity].
      apply octet_then; [done|].
      eexists c0, (d +:+ String c rest), _.
      split; [done|]. split; [reflexivity|]. split; [|reflexivity].
      apply octet_then; [done|]. exists d, rest, m'. done.
    + rewrite !length_append. simpl. lia.
Qed.

Lemma quad_eol st s m :
  match_here (dotted_quad ++ [Eol]) st s = Some m <->
  exists q, ipv4_shaped q /\ (s = q \/ s = q +:+ nl) /\ m = String.length q.
Proof.
  change (dotted_quad ++ [Eol])
    with (octet :: Lit "." :: octet :: Lit "." :: octet :: Lit "." :: [octet; Eol]).
  split.
  - intros H.
    apply octet_then in H as (a & r1 & m1 & Ha & -> & H & ->); [|done].
    apply octet_then in H as (b & r2 & m2 & Hb & -> & H & ->); [|done].
    apply octet_then in H as (c0 & r3 & m3 & Hc0 & -> & H & ->); [|done].
    apply octet_eol in H as (d & Hd & Hs & ->).
    exists (a +:+ "." +:+ b +:+ "." +:+ c0 +:+ "." +:+ d).
    split; [by exists a, b, c0, d|]. split.
    + destruct Hs as [->| ->]; [by left|right].
      rewrite !append_assoc. reflexivity.
    + rewrite !length_append. simpl. lia.
  - intros (q & (a & b & c0 & d & Ha & Hb & Hc0 & Hd & ->) & Hs & ->).
    assert (Htail : exists tail,
               (tail = "" \/ tail = nl) /\
               s = (a +:+ "." +:+ b +:+ "." +:+ c0 +:+ "." +:+ d) +:+ tail).
    { destruct Hs as [->| ->]; [exists ""|exists nl]; rewrite ?append_nil_r; eauto. }
    destruct Htail as (tail & Htail & ->).
    apply octet_then; [done|].
    eexists a, (b +:+ "." +:+ c0 +:+ "." +:+ d +:+ tail), _.
    split; [done|]. split; [rewrite !append_assoc; reflexivity|]. split.
    + apply octet_then; [done|].
      eexists b, _, _.
      split; [done|]. split; [reflexivity|]. split; [|reflexivity].
      apply octet_then; [done|].
      eexists c0, _, _.
      split; [done|]. split; [reflexivity|]. split; [|reflexivity].
      apply octet_eol. exists d. split; [done|]. split; [|reflexivity].
      destruct Htail as [->| ->]; [left; by rewrite append_nil_r|by right].
    + rewrite !length_append. simpl. lia.
Qed.

(** *** Searching for a pattern that starts with a literal *)

Lemma search_lit_none (c : ascii) (p' : regex) s : forall st off,
  search_from (Lit c :: p') st off s = None <->
  forall pre suf, s = pre +:+ suf -> match_here (Lit c :: p') false suf = None.
Proof.
  induction s as [|x s IH]; intros st off.
  - simpl. split; [|done]. intros _ [|y pre] suf Heq; [|done].
    change ("" +:+ suf) with suf in Heq. by subst suf.
  - cbn [search_from].
    change (match_here (Lit c :: p') st (String x s))
      with (match_here (Lit c :: p') false (String x s)).
    split.
    + intros H pre suf Heq.
      destruct (match_here (Lit c :: p') false (String x s)) eqn:Hm; [done|].
      destruct pre as [|y pre].
      * change ("" +:+ suf) with suf in Heq. by subst suf.
      * rewrite append_cons in Heq. injection Heq as -> Heq.
        by eapply (IH false (S off)).
    + intros H. rewrite (H "" (String x s) eq_refl).
      apply IH. intros pre suf ->. apply (H (String x pre) suf). by rewrite append_cons.
Qed.

Lemma ip_pattern_match suf m :
  match_here ip_pattern false suf = Some m <->
  exists q rest,
    ipv4_shaped q /\ suf = "(" +:+ q +:+ ")" +:+ rest /\ m = S (S (String.length q)).
Proof.
  change ip_pattern with (Lit "(" :: dotted_quad ++ [Lit ")"]). split.
  - destruct suf as [|x suf]; [done|]. cbn [match_here].
    destruct (Ascii.eqb_spec "(" x) as [<-|]; [|done].
    destruct (match_here (dotted_quad ++ [Lit ")"]) false suf) as [m0|] eqn:Hm; [|done].
    intros [= <-].
    apply quad_then in Hm as (q & rest & m' & Hq & -> & Hrest & ->); [|done].
    simpl in Hrest. injection Hrest as <-.
    exists q, rest. split; [done|]. split; [reflexivity|lia].
  - intros (q & rest & Hq & -> & ->).
    change ("(" +:+ q +:+ ")" +:+ rest) with (String "(" (q +:+ String ")" rest)).
    cbn [match_here]. rewrite Ascii.eqb_refl.
    assert (Hm : match_here (dotted_quad ++ [Lit ")"]) false (q +:+ String ")" rest)
                 = Some (String.length q + 1)%nat).
    { apply quad_then; [done|]. exists q, rest, O. done. }
    rewrite Hm. simpl. f_equal. lia.
Qed.

Lemma search_lit_some (c : ascii) (p' : regex) s : forall st off r,
  search_from (Lit c :: p') st off s = Some r ->
  exists pre suf, s = pre +:+ suf /\ match_here (Lit c :: p') false suf = Some (snd r).
Proof.
  induction s as [|x s IH]; intros st off r.
  - simpl. done.
  - cbn [search_from].
    change (match_here (Lit c :: p') st (String x s))
      with (match_here (Lit c :: p') false (String x s)).
    destruct (match_here (Lit c :: p') false (String x s)) as [m|] eqn:Hm.
    + intros [= <-]. by exists "", (String x s).
    + intros H. destruct (IH _ _ _ H) as (pre & suf & -> & Hs).
      exists (String x pre), suf. by rewrite append_cons.
Qed.

(** [re.search(ip_pattern, s)] finds something exactly when [s] has a
    parenthesized IPv4-shaped part. *)
Lemma search_ip_pattern s :
  search ip_pattern s <> None <-> has_parenthesized_ipv4 s.
Proof.
  pose proof (search_lit_none "(" (dotted_quad ++ [Lit ")"]) s true O) as Hnone.
  pose proof (search_lit_some "(" (dotted_quad ++ [Lit ")"]) s true O) as Hsome.
  change (Lit "("%char :: dotted_quad ++ [Lit ")"%char]) with ip_pattern in *.
  fold (search ip_pattern s) in *. split.
  - intros H. destruct (search ip_pattern s) as [r|]; [|done].
    destruct (Hsome r eq_refl) as (pre & suf & -> & Hm).
    apply ip_pattern_match in Hm as (q & rest & Hq & -> & _).
    by exists pre, q, rest.
  - intros (pre & q & post & Hq & ->) H.
    apply Hnone with (pre := pre) (suf := "(" +:+ q +:+ ")" +:+ post) in H; [|done].
    assert (Hm : match_here ip_pattern false ("(" +:+ q +:+ ")" +:+ post)
                 = Some (S (S (String.length q)))).
    { apply ip_pattern_match. by exists q, post. }
    congruence.
Qed.

(** [re.match] of the anchored pattern succeeds on an IPv4-shaped string,
    and also on one followed by a single line feed. *)
Lemma matches_direct_ip s :
  matches direct_ip_pattern s = true <->
  ipv4_shaped s \/ exists q, ipv4_shaped q /\ s = q +:+ nl.
Proof.
  unfold matches. change direct_ip_pattern with (Bol :: dotted_quad ++ [Eol]).
  cbn [match_here]. split.
  - destruct (match_here (dotted_quad ++ [Eol]) true s) as [m|] eqn:Hm; [|done].
    intros _. apply quad_eol in Hm as (q & Hq & [->| ->] & _); [by left|right; eauto].
  - intros H.
    assert (Hm : exists m, match_here (dotted_quad ++ [Eol]) true s = Some m).
    { destruct H as [H|(q & Hq & ->)]; eexists; apply quad_eol; eauto. }
    destruct Hm as [m ->]. done.
Qed.

End RegexFacts.

(** ** [executor.py]: the single-command runner *)

Module ExecutorFacts.

Import Executor.

(** C10.  [SSHExecutor.run_command] always returns a result dict and never
    lets an exception through.  Either the connection was opened and the
    command completed within the timeout, and then the dict carries the
    real exit status, standard output and standard error of the command,
    with status "SUCCESS" exactly when the exit status is 0 (and "FAILED"
    otherwise); or something failed (the connection, the command, or the
    timeout), and then the dict has status "FAILED", an empty standard
    output, exit code -1 and a non-empty standard error that says what
    happened. *)
Theorem run_command_total (r : Remote) (server : Server) (command : string) (timeout : Z) :
  exists res,
    run_command r server command timeout = Returns res /\
    ((exists t p,
        connect r server = Returns () /\
        conn_run r server command = Completes t p /\ t < timeout /\
        exit_code res = exit_status p /\
        stdout res = cp_stdout p /\ stderr res = cp_stderr p /\
        (status res = "SUCCESS" <-> exit_status p = 0) /\
        (status res = "FAILED" <-> exit_status p <> 0))
     \/
     ((~ exists t p,
          connect r server = Returns () /\
          conn_run r server command = Completes t p /\ t < timeout) /\
      status res = "FAILED" /\ stdout res = "" /\ exit_code res = -1 /\
      stderr res <> "" /\
      (stderr res = "Command timed out after " +:+ Py.str_int timeout +:+ " seconds" \/
       (exists m, stderr res = "SSH error: " +:+ m) \/
       (exists m, stderr res = "Unexpected error: " +:+ m)))).
Proof.
  unfold run_command, run_command_try.
  destruct (connect r server) as [[]|e] eqn:Hc; simpl.
  - destruct (conn_run r server command) as [t p|t e|] eqn:Hr; simpl.
    + destruct (Z.ltb_spec t timeout) as [Hlt|Hge]; simpl.
      * eexists. split; [reflexivity|]. left. exists t, p. simpl.
        repeat split; try done.
        all: destruct (Z.eqb_spec (exit_status p) 0); try done.
      * eexists. split; [reflexivity|]. right. simpl.
        repeat split; try done.
        -- intros (t' & p' & _ & [= -> ->] & ?). lia.
        -- by left.
    + destruct (Z.ltb_spec t timeout) as [Hlt|Hge]; simpl.
      * destruct e as [[] m]; simpl; eexists; (split; [reflexivity|]); right; simpl;
          (repeat split; try done); try (by intros (? & ? & _ & ? & _)); eauto.
      * eexists. split; [reflexivity|]. right. simpl.
        repeat split; try done.
        -- by intros (? & ? & _ & ? & _).
        -- by left.
    + eexists. split; [reflexivity|]. right. simpl.
      repeat split; try done.
      * by intros (? & ? & _ & ? & _).
      * by left.
  - destruct e as [[] m]; simpl; eexists; (split; [reflexivity|]); right; simpl;
      (repeat split; try done); try (by intros (? & ? & ? & _)); eauto.
Qed.

End ExecutorFacts.

(** ** [executor.py]: the status of a runbook execution *)

Module RunbookFacts.

Import Executor Spec.

Lemma forallb_id_map {A} (f : A -> bool) (l : list A) :
  forallb id (map f l) = forallb f l.
Proof. induction l as [|x l IH]; simpl; [done|]. by rewrite IH. Qed.

Lemma existsb_id_map {A} (f : A -> bool) (l : list A) :
  existsb id (map f l) = existsb f l.
Proof. induction l as [|x l IH]; simpl; [done|]. by rewrite IH. Qed.

(** The flags and the table of executions after the inner loop. *)
Lemma process_results_flags ai execution_id command rs : forall p,
  let p' := foldl (process_result ai execution_id command) p rs in
  all_success p' = all_success p && forallb succeeded rs /\
  any_success p' = any_success p || existsb succeeded rs /\
  executions (store p') = executions (store p).
Proof.
  induction rs as [|res rs IH]; intros p; simpl.
  - by rewrite andb_true_r, orb_false_r.
  - destruct (IH (process_result ai execution_id command p res)) as (Ha & Hb & Hc).
    rewrite Ha, Hb, Hc. unfold process_result, succeeded. simpl.
    destruct (String.eqb (status (sr_result res)) "SUCCESS"); simpl.
    + by rewrite orb_true_r.
    + by rewrite andb_false_r.
Qed.

(** The flags and the table of executions after the outer loop. *)
Lemma process_commands_flags r ai execution_id servers commands : forall p,
  let p' := foldl (process_command r ai execution_id servers) p commands in
  all_success p' = all_success p && forallb succeeded (all_results r servers commands) /\
  any_success p' = any_success p || existsb succeeded (all_results r servers commands) /\
  executions (store p') = executions (store p).
Proof.
  induction commands as [|c commands IH]; intros p; simpl.
  - by rewrite andb_true_r, orb_false_r.
  - destruct (IH (process_command r ai execution_id servers p c)) as (Ha & Hb & Hc).
    destruct (process_results_flags ai execution_id c
                (execute_on_servers r (target_servers servers c) (script c)) p)
      as (Ha' & Hb' & Hc').
    unfold all_results in *. simpl. unfold process_command in *.
    rewrite Ha, Hb, Hc, Ha', Hb', Hc'.
    rewrite forallb_app, existsb_app.
    by rewrite andb_assoc, orb_assoc.
Qed.

(** [execute_runbook] classifies by command result: SUCCESS when every
    result has status "SUCCESS", otherwise PARTIAL when some result has,
    otherwise FAILED. *)
Lemma execute_runbook_status r ai st runbook_id execution_id servers commands old :
  runbook_id ∈ runbooks st ->
  runbook_servers st !! runbook_id = Some servers -> servers <> [] ->
  runbook_commands st !! runbook_id = Some commands -> commands <> [] ->
  executions st !! execution_id = Some old ->
  executions (execute_runbook r ai st runbook_id execution_id) !! execution_id
    = Some (to_status (classify (map succeeded (all_results r servers commands)))).
Proof.
  intros Hrb Hs Hsne Hc Hcne Hold. unfold execute_runbook. simpl.
  rewrite bool_decide_eq_true_2 by done. simpl. rewrite Hs, Hc. simpl.
  destruct servers as [|srv servers]; [done|].
  destruct commands as [|c commands]; [done|].
  set (p0 := Progress true false (update_status st execution_id RUNNING)).
  destruct (process_commands_flags r ai execution_id (srv :: servers) (c :: commands) p0)
    as (Ha & Hb & He).
  simpl in Ha, Hb, He. simpl. rewrite lookup_alter_eq. fold p0. rewrite He.
  rewrite lookup_alter_eq, Hold. simpl. f_equal.
  unfold final_status, classify. fold p0.
  rewrite Ha, Hb, forallb_id_map, existsb_id_map.
  by destruct (forallb _ _), (existsb _ _).
Qed.

End RunbookFacts.

(** ** [chat_engine.py]: node resolution and the output analyzer *)

Module ChatEngineFacts.

Import ChatEngine ChatApi Spec Examples.

Lemma has_char_app c s1 s2 :
  Py.has_char c (s1 +:+ s2) = Py.has_char c s1 || Py.has_char c s2.
Proof.
  induction s1 as [|c' s1 IH]; simpl; [done|]. rewrite IH. by rewrite orb_assoc.
Qed.

Lemma digits_and_dots_app s1 s2 :
  digits_and_dots (s1 +:+ s2) = digits_and_dots s1 && digits_and_dots s2.
Proof.
  induction s1 as [|c s1 IH]; simpl; [done|]. rewrite IH. by rewrite andb_assoc.
Qed.

Lemma all_digits_dots s : all_digits s = true -> digits_and_dots s = true.
Proof.
  induction s as [|c s IH]; simpl; [done|].
  intros [Hc Hs]%andb_true_iff. rewrite Hc. simpl. by apply IH.
Qed.

Lemma ipv4_shaped_dots s : ipv4_shaped s -> digits_and_dots s = true.
Proof.
  intros (a & b & c & d & [Ha _] & [Hb _] & [Hc _] & [Hd _] & ->).
  rewrite !digits_and_dots_app.
  rewrite (all_digits_dots a), (all_digits_dots b), (all_digits_dots c),
    (all_digits_dots d) by done.
  reflexivity.
Qed.

(** A name of the known-node map resolves to the stored configuration. *)
Lemma resolve_node_known name (known : gmap string pydict) cfg :
  known !! name = Some cfg -> resolve_node name known = (true, Some cfg).
Proof. intros H. unfold resolve_node. by rewrite H. Qed.

(** A name that is not in the map and resolves gets user "ubuntu" and
    port 22; a name that does not resolve gets no configuration. *)
Lemma resolve_node_unknown name (known : gmap string pydict) :
  known !! name = None ->
  (exists cfg, resolve_node name known = (true, Some cfg) /\
               Py.get "username" cfg = PStr "ubuntu" /\ Py.get "port" cfg = PInt 22)
  \/ resolve_node name known = (false, None).
Proof.
  intros H. unfold resolve_node. rewrite H.
  destruct (Regex.search ip_pattern name) as [[off n]|].
  - left. eexists. split; [reflexivity|]. by split.
  - destruct (Regex.matches direct_ip_pattern name).
    + left. eexists. split; [reflexivity|]. by split.
    + by right.
Qed.

(** Which unknown names resolve: those with a parenthesized IPv4-shaped
    part, those that are IPv4-shaped, and those that are IPv4-shaped but
    for a line feed at the end. *)
Lemma resolve_node_resolves_iff name (known : gmap string pydict) :
  known !! name = None ->
  fst (resolve_node name known) = true <->
  has_parenthesized_ipv4 name \/ ipv4_shaped name \/
  exists q, ipv4_shaped q /\ name = q +:+ nl.
Proof.
  intros H. unfold resolve_node. rewrite H.
  pose proof (RegexFacts.search_ip_pattern name) as Hs.
  pose proof (RegexFacts.matches_direct_ip name) as Hm.
  destruct (Regex.search ip_pattern name) as [[off n]|]; simpl.
  - split; [|done]. intros _. left. by apply Hs.
  - destruct (Regex.matches direct_ip_pattern name); simpl.
    + split; [|done]. intros _. right. by apply Hm.
    + split; [done|]. intros [Hp|Hd].
      * by apply Hs in Hp.
      * by apply Hm in Hd.
Qed.

(** C9, at the input where the code leaves the specification.  The name
    "1.2.3.4" followed by a line feed is not in the (empty) map, is not
    IPv4-shaped and has no parenthesized IPv4-shaped part; the
    specification says that it does not resolve, and [resolve_node]
    resolves it, with a host name that ends in a line feed: the [$] of
    the pattern also matches just before a final line feed. *)
Theorem resolve_node_trailing_newline :
  let name := "1.2.3.4" +:+ nl in
  ~ ipv4_shaped name /\ ~ has_parenthesized_ipv4 name /\
  resolve_node name ∅ =
    (true, Some [("name", PStr name); ("hostname", PStr name);
                 ("username", PStr "ubuntu"); ("port", PInt 22)]).
Proof.
  intros name. split; [|split].
  - intros H%ipv4_shaped_dots. done.
  - intros (pre & q & post & _ & Heq).
    assert (Hc : Py.has_char "(" name = true).
    { rewrite Heq, has_char_app. simpl. by rewrite orb_true_r. }
    done.
  - reflexivity.
Qed.

(** The degraded result of the analyzer: on the failure [e] of the LLM call
    or of the parsing of its reply, the dict of the [except] clause. *)
Lemma analyze_failure chat json_loads output hint condition e :
  (chat (analysis_prompt output hint condition) = Raises e \/
   exists reply, chat (analysis_prompt output hint condition) = Returns reply /\
                 json_loads (strip_fence (Py.strip reply)) = Raises e) ->
  analyze_output_with_llm chat json_loads output hint condition = degraded_analysis e.
Proof.
  unfold analyze_output_with_llm, analyze_try.
  intros [H|(reply & H & Hj)]; rewrite H; simpl; [done|]. by rewrite Hj.
Qed.

(** C6, as the code refutes it: when the LLM client raises "Connection
    error.", the analyzer returns a degraded result whose summary is "Could
    not analyze: Connection error.", not "analysis unavailable". *)
Lemma analyzer_summary_counterexample :
  exists d,
    analyze_output_with_llm (chat w_llm_down 0 0) (json_loads w_llm_down)
      "up 5 days" (PStr "report output") (PStr "Check for errors") = PDict d /\
    Py.get "condition_met" d = PBool false /\
    Py.get "severity" d = PStr "info" /\
    Py.get "summary" d = PStr "Could not analyze: Connection error." /\
    Py.get "summary" d <> PStr "analysis unavailable".
Proof. eexists. split; [reflexivity|]. repeat split; done. Qed.

(** C6, amended.  When the LLM call raises, or its reply does not parse,
    the analyzer does not raise: it returns the dict with
    [extracted_value] "unknown", [condition_met] false, [severity] "info"
    and the summary "Could not analyze: " followed by the text of the
    exception.  The worker then reports "condition not met" for the
    command and goes on with the commands that follow on that node. *)
Theorem analyzer_failure_is_absorbed
    (w : World) (i k : nat) (node_name condition : string)
    (c : cmd_config) (rest : list cmd_config) (t : Z) (p : completed_process) (e : exn) :
  let hint := PStr (match logic c with Some l => l | None => "" end) in
  let prompt := analysis_prompt (cp_stdout p) hint (PStr condition) in
  let degraded : pydict :=
    [("extracted_value", PStr "unknown"); ("condition_met", PBool false);
     ("summary", PStr ("Could not analyze: " +:+ exn_msg e)); ("severity", PStr "info")] in
  conn_run w i k (cmd c) = Completes t p ->
  (chat w i k prompt = Raises e \/
   exists reply, chat w i k prompt = Returns reply /\
                 json_loads w (strip_fence (Py.strip reply)) = Raises e) ->
  analyze_output_with_llm (chat w i k) (json_loads w) (cp_stdout p) hint (PStr condition)
    = PDict degraded /\
  run_commands w i k node_name condition (c :: rest) =
    ([ev_executing node_name (cmd c); ev_output_received node_name;
      ev_analyzing node_name; ev_condition_not_met node_name degraded]
       ++ fst (run_commands w i (S k) node_name condition rest),
     snd (run_commands w i (S k) node_name condition rest)).
Proof.
  intros hint prompt degraded Hrun Hfail.
  pose proof (analyze_failure _ _ _ _ _ _ Hfail) as Ha.
  split; [exact Ha|].
  simpl. unfold run_one. rewrite Hrun. simpl.
  fold hint. rewrite Ha. simpl.
  by destruct (run_commands w i (S k) node_name condition rest).
Qed.

Lemma analyzer_failure_is_absorbed_witness :
  analyze_output_with_llm (chat w_llm_down 0 0) (json_loads w_llm_down) "up 5 days"
    (PStr "report output") (PStr "Check for errors")
    = PDict [("extracted_value", PStr "unknown"); ("condition_met", PBool false);
             ("summary", PStr "Could not analyze: Connection error.");
             ("severity", PStr "info")] /\
  run_commands w_llm_down 0 0 "n1" "Check for errors" [uptime] =
    ([ev_executing "n1" (Some "uptime"); ev_output_received "n1"; ev_analyzing "n1";
      ev_condition_not_met "n1"
        [("extracted_value", PStr "unknown"); ("condition_met", PBool false);
         ("summary", PStr "Could not analyze: Connection error.");
         ("severity", PStr "info")]], Normal).
Proof.
  apply (analyzer_failure_is_absorbed w_llm_down 0 0 "n1" "Check for errors" uptime []
           1 (CompletedProcess 0 "up 5 days" "") (Exn OtherError "Connection error.")).
  - reflexivity.
  - left. reflexivity.
Defined.

End ChatEngineFacts.

(** ** [chat_api.py]: the node worker *)

Module WorkerFacts.

Import ChatEngine ChatApi Consumer Examples.

(** The loop over a list of commands that is cut in two. *)
Lemma run_commands_app w i name cond before : forall k after,
  snd (run_commands w i k name cond before) = Normal ->
  run_commands w i k name cond (before ++ after) =
    (fst (run_commands w i k name cond before)
       ++ fst (run_commands w i (k + length before) name cond after),
     snd (run_commands w i (k + length before) name cond after)).
Proof.
  induction before as [|c before IH]; intros k after; simpl.
  - intros _. rewrite Nat.add_0_r. by destruct (run_commands w i k name cond after).
  - destruct (run_one w i k name cond c) as [evs [|e|]]; simpl; try done.
    intros H. specialize (IH (S k) after).
    destruct (run_commands w i (S k) name cond before) as [evs1 e1]; simpl in *.
    rewrite IH by done. simpl.
    replace (k + S (length before))%nat with (S (k + length before)) by lia.
    by rewrite app_assoc.
Qed.

Lemma run_commands_cons_normal w i k name cond c rest evs :
  run_one w i k name cond c = (evs, Normal) ->
  run_commands w i k name cond (c :: rest) =
    (evs ++ fst (run_commands w i (S k) name cond rest),
     snd (run_commands w i (S k) name cond rest)).
Proof.
  intros H. simpl. rewrite H. by destruct (run_commands w i (S k) name cond rest).
Qed.

(** The loop, cut at the command of position [k]. *)
Lemma run_commands_at w i name cond commands k c :
  commands !! k = Some c ->
  snd (run_commands w i O name cond (take k commands)) = Normal ->
  run_commands w i O name cond commands =
    (fst (run_commands w i O name cond (take k commands))
       ++ fst (run_commands w i k name cond (c :: drop (S k) commands)),
     snd (run_commands w i k name cond (c :: drop (S k) commands))).
Proof.
  intros Hk Hn.
  rewrite <- (take_drop_middle commands k c Hk) at 1.
  rewrite run_commands_app by done.
  rewrite length_take_le; [done|]. apply lookup_lt_Some in Hk. lia.
Qed.

(** What the worker puts on the queue when the connection is opened. *)
Lemma process_node_connected w i node commands condition opts :
  connect_options_of w node = Returns opts ->
  ssh_connect w i opts = Returns () ->
  process_node_try w i node commands condition =
    (ev_connecting (node_name_of node) :: ev_connected (node_name_of node)
       :: fst (run_commands w i O (node_name_of node) condition commands),
     snd (run_commands w i O (node_name_of node) condition commands)).
Proof.
  intros Ho Hc. unfold process_node_try. rewrite Ho, Hc.
  by destruct (run_commands w i O (node_name_of node) condition commands).
Qed.

(** The events of a worker are those of its [try] block, and one [error]
    event more when the block raised. *)
Lemma process_node_events w i node commands condition :
  fst (process_node w i node commands condition) =
    fst (process_node_try w i node commands condition) ++
    match snd (process_node_try w i node commands condition) with
    | Raised e => [ev_error (node_name_of node) e]
    | _ => []
    end.
Proof.
  unfold process_node.
  destruct (process_node_try w i node commands condition) as [evs [|e|]]; simpl;
    by rewrite ?app_nil_r.
Qed.

(** C8.  For a command that the worker reaches (the connection is open and
    the commands before it ran to their end) and that runs successfully,
    with an analysis that is a dict, the worker puts on the queue, in this
    order and next to one another: the step "executing", the step "output
    received" with status "success", the step "analyzing", and then either
    (condition met) the step "condition met" with status "warning"
    immediately followed by an incident event that carries the severity and
    the summary of the analysis, or (condition not met) the step "all
    clear" with status "success". *)
Theorem command_event_order
    (w : World) (i : nat) (node : node_config) (commands : list cmd_config)
    (condition : string) (k : nat) (c : cmd_config) (opts : connect_options)
    (t : Z) (p : completed_process) (d : pydict) :
  let name := node_name_of node in
  let hint := PStr (match logic c with Some l => l | None => "" end) in
  let summary := Py.get "summary" d in
  let emitted : list event :=
    [ [("type", PStr "step");
       ("message", PStr ("Running command: " +:+ Py.str (Py.of_opt (cmd c))))];
      [("type", PStr "step"); ("message", PStr "Output received successfully");
       ("status", PStr "success")];
      [("type", PStr "step"); ("message", PStr "Analyzing output...")] ] ++
    (if Py.truthy (Py.get "condition_met" d)
     then [ [("type", PStr "step");
             ("message", PStr ("⚠️ Condition met: " +:+
                               Py.str (Py.or_else summary (PStr "threshold exceeded"))));
             ("status", PStr "warning")];
            [("type", PStr "incident");
             ("message", PStr ("🚨 Incident raised: " +:+ Py.str summary));
             ("severity", Py.get "severity" d);
             ("node", PStr name);
             ("details", PDict d)] ]
     else [ [("type", PStr "step");
             ("message", PStr ("✓ All clear: " +:+
                               Py.str (Py.or_else summary (PStr "within normal range"))));
             ("status", PStr "success")] ]) in
  commands !! k = Some c ->
  connect_options_of w node = Returns opts ->
  ssh_connect w i opts = Returns () ->
  snd (run_commands w i O name condition (take k commands)) = Normal ->
  conn_run w i k (cmd c) = Completes t p ->
  analyze_output_with_llm (chat w i k) (json_loads w) (cp_stdout p) hint (PStr condition)
    = PDict d ->
  run_one w i k name condition c = (emitted, Normal) /\
  exists post,
    fst (process_node w i node commands condition) =
      (ev_connecting name :: ev_connected name
         :: fst (run_commands w i O name condition (take k commands)))
      ++ emitted ++ post.
Proof.
  intros name hint summary emitted Hk Ho Hc Hbefore Hrun Han.
  assert (Hone : run_one w i k name condition c = (emitted, Normal)).
  { unfold run_one. rewrite Hrun. simpl. fold hint. rewrite Han.
    unfold emitted. by destruct (Py.truthy (Py.get "condition_met" d)). }
  split; [exact Hone|].
  rewrite process_node_events, (process_node_connected _ _ _ _ _ _ Ho Hc).
  cbn [fst snd]. fold name. rewrite (run_commands_at _ _ _ _ _ _ _ Hk Hbefore).
  rewrite (run_commands_cons_normal _ _ _ _ _ _ _ _ Hone). cbn [fst snd].
  eexists. rewrite !app_comm_cons, <- !app_assoc. reflexivity.
Qed.

Lemma command_event_order_witness :
  run_one w_critical 0 1 "n1" "Check for errors" df =
    ([ [("type", PStr "step"); ("message", PStr "Running command: df -h")];
       [("type", PStr "step"); ("message", PStr "Output received successfully");
        ("status", PStr "success")];
       [("type", PStr "step"); ("message", PStr "Analyzing output...")];
       [("type", PStr "step"); ("message", PStr "⚠️ Condition met: disk almost full");
        ("status", PStr "warning")];
       [("type", PStr "incident"); ("message", PStr "🚨 Incident raised: disk almost full");
        ("severity", PStr "critical"); ("node", PStr "n1");
        ("details", PDict critical_analysis)] ], Normal).
Proof.
  exact (proj1 (command_event_order w_critical 0 n1 [uptime; df] "Check for errors" 1 df
                  (ConnectOptions (Some "10.0.0.1") None "ubuntu" None None)
                  1 (CompletedProcess 0 "/dev/sda1 97%" "") critical_analysis
                  eq_refl eq_refl eq_refl eq_refl eq_refl eq_refl)).
Defined.

(** *** Counting the events of a worker *)

Lemma run_one_no_error w i k name cond c :
  Forall (fun ev => is_error ev = false) (fst (run_one w i k name cond c)).
Proof.
  unfold run_one. destruct (await (conn_run w i k (cmd c))) as [[p|e]|]; simpl.
  - destruct (analyze_output_with_llm _ _ _ _ _) as [ |b|z|s|l|d]; simpl;
      try (repeat constructor).
    destruct (Py.truthy (Py.get "condition_met" d)); simpl; repeat constructor.
  - repeat constructor.
  - repeat constructor.
Qed.

Lemma run_commands_no_error w i name cond commands : forall k,
  Forall (fun ev => is_error ev = false) (fst (run_commands w i k name cond commands)).
Proof.
  induction commands as [|c rest IH]; intros k; simpl; [constructor|].
  pose proof (run_one_no_error w i k name cond c) as H1.
  destruct (run_one w i k name cond c) as [evs [|e|]]; simpl in *; try done.
  specialize (IH (S k)).
  destruct (run_commands w i (S k) name cond rest) as [evs' e']; simpl in *.
  by apply Forall_app.
Qed.

Lemma process_node_try_no_error w i node commands condition :
  Forall (fun ev => is_error ev = false)
         (fst (process_node_try w i node commands condition)).
Proof.
  unfold process_node_try.
  destruct (connect_options_of w node) as [opts|e]; simpl; [|repeat constructor].
  destruct (ssh_connect w i opts) as [[]|e]; simpl; [|repeat constructor].
  pose proof (run_commands_no_error w i (node_name_of node) condition commands O) as H.
  destruct (run_commands w i O (node_name_of node) condition commands) as [evs e]; simpl in *.
  repeat constructor. done.
Qed.

Lemma is_executing_executing name c : is_executing (ev_executing name c) = true.
Proof. destruct c; reflexivity. Qed.

Lemma is_executing_output_received name : is_executing (ev_output_received name) = false.
Proof. reflexivity. Qed.

Lemma is_executing_analyzing name : is_executing (ev_analyzing name) = false.
Proof. reflexivity. Qed.

Lemma is_executing_condition_met name d : is_executing (ev_condition_met name d) = false.
Proof. reflexivity. Qed.

Lemma is_executing_condition_not_met name d :
  is_executing (ev_condition_not_met name d) = false.
Proof. reflexivity. Qed.

Lemma is_executing_incident name d : is_executing (ev_incident name d) = false.
Proof. reflexivity. Qed.

Lemma is_executing_connecting name : is_executing (ev_connecting name) = false.
Proof. reflexivity. Qed.

Lemma is_executing_connected name : is_executing (ev_connected name) = false.
Proof. reflexivity. Qed.

Lemma is_executing_error name e : is_executing (ev_error name e) = false.
Proof. reflexivity. Qed.

(** A turn of the loop puts exactly one "executing" step on the queue. *)
Lemma run_one_executing w i k name cond c :
  length (List.filter is_executing (fst (run_one w i k name cond c))) = 1%nat.
Proof.
  unfold run_one. destruct (await (conn_run w i k (cmd c))) as [[p|e]|].
  2,3: cbn [fst List.filter]; by rewrite is_executing_executing.
  destruct (analyze_output_with_llm _ _ _ _ _) as [ |b|z|s|l|d].
  6: destruct (Py.truthy (Py.get "condition_met" d)).
  all: cbn [fst List.filter app];
    rewrite ?is_executing_executing, ?is_executing_output_received,
      ?is_executing_analyzing, ?is_executing_condition_met,
      ?is_executing_condition_not_met, ?is_executing_incident; reflexivity.
Qed.

Lemma run_commands_executing w i name cond commands : forall k,
  snd (run_commands w i k name cond commands) = Normal ->
  length (List.filter is_executing (fst (run_commands w i k name cond commands)))
    = length commands.
Proof.
  induction commands as [|c rest IH]; intros k; simpl; [done|].
  pose proof (run_one_executing w i k name cond c) as H1.
  destruct (run_one w i k name cond c) as [evs [|e|]]; simpl in *; try done.
  specialize (IH (S k)).
  destruct (run_commands w i (S k) name cond rest) as [evs' e']; simpl in *.
  intros He. rewrite List.filter_app, length_app, H1, IH by done. done.
Qed.

(** *** A worker depends on its own node only *)

Lemma connect_options_local j w w' node :
  same_at j w w' -> connect_options_of w node = connect_options_of w' node.
Proof.
  intros (Hk & Hp & Hi & _).
  unfold connect_options_of, credential_of, local_keys. rewrite Hk.
  rewrite (List.filter_ext _ _ Hp).
  destruct (if bool_decide _ then _ else _) as [[|ch rest]|]; try done.
  destruct (Py.contains _ _); [|done]. by rewrite Hi.
Qed.

Lemma run_one_local j w w' k name cond c :
  same_at j w w' -> run_one w j k name cond c = run_one w' j k name cond c.
Proof.
  intros (_ & _ & _ & _ & Hr & Hc & Hj).
  unfold run_one. rewrite Hr.
  destruct (await (conn_run w' j k (cmd c))) as [[p|e]|]; try done.
  unfold analyze_output_with_llm, analyze_try. rewrite Hc.
  destruct (chat w' j k _) as [reply|e]; simpl; [|done]. by rewrite Hj.
Qed.

Lemma run_commands_local j w w' name cond commands : forall k,
  same_at j w w' ->
  run_commands w j k name cond commands = run_commands w' j k name cond commands.
Proof.
  induction commands as [|c rest IH]; intros k H; simpl; [done|].
  rewrite (run_one_local j w w') by done.
  destruct (run_one w' j k name cond c) as [evs [|e|]]; try done.
  by rewrite IH.
Qed.

Lemma process_node_local j w w' node commands condition :
  same_at j w w' ->
  process_node w j node commands condition = process_node w' j node commands condition.
Proof.
  intros H. unfold process_node, process_node_try.
  rewrite (connect_options_local j w w') by done.
  destruct (connect_options_of w' node) as [opts|e]; [|done].
  destruct H as (H1 & H2 & H3 & Hc & H5) eqn:E. rewrite Hc.
  destruct (ssh_connect w' j opts) as [[]|e]; [|done].
  by rewrite (run_commands_local j w w').
Qed.

(** *** The sequential runner goes on after a node that returned *)

Lemma sequential_runner_app w commands condition before : forall i after,
  snd (sequential_runner w commands condition i before) = Done ->
  sequential_runner w commands condition i (before ++ after) =
    (fst (sequential_runner w commands condition i before)
       ++ fst (sequential_runner w commands condition (i + length before) after),
     snd (sequential_runner w commands condition (i + length before) after)).
Proof.
  induction before as [|node before IH]; intros i after; simpl.
  - intros _. rewrite Nat.add_0_r.
    by destruct (sequential_runner w commands condition i after).
  - destruct (process_node w i node commands condition) as [evs [|]]; simpl; [|done].
    specialize (IH (S i) after).
    destruct (sequential_runner w commands condition (S i) before) as [evs1 t1]; simpl in *.
    intros H. rewrite IH by done. simpl.
    replace (i + S (length before))%nat with (S (i + length before)) by lia.
    by rewrite app_assoc.
Qed.

Lemma sequential_runner_at w commands condition nodes i node :
  nodes !! i = Some node ->
  snd (process_node w i node commands condition) = Done ->
  snd (sequential_runner w commands condition O (take i nodes)) = Done ->
  sequential_runner w commands condition O nodes =
    (fst (sequential_runner w commands condition O (take i nodes))
       ++ tag 0 i (fst (process_node w i node commands condition))
       ++ fst (sequential_runner w commands condition (S i) (drop (S i) nodes)),
     snd (sequential_runner w commands condition (S i) (drop (S i) nodes))).
Proof.
  intros Hi Hd Hbefore.
  rewrite <- (take_drop_middle nodes i node Hi) at 1.
  rewrite sequential_runner_app by done.
  rewrite length_take_le by (apply lookup_lt_Some in Hi; lia).
  simpl. destruct (process_node w i node commands condition) as [evs t]; simpl in *.
  subst t. by destruct (sequential_runner w commands condition (S i) (drop (S i) nodes)).
Qed.

Lemma spawn_parallel_lookup w nodes commands condition j other :
  nodes !! j = Some other ->
  spawn w "parallel" nodes commands condition !! j
    = Some (node_task w commands condition j other).
Proof. intros H. unfold spawn. simpl. rewrite list_lookup_imap, H. done. Qed.

(** *** A transport error ends one worker, and only that one *)

Lemma filter_none {A} (f : A -> bool) (l : list A) :
  Forall (fun x => f x = false) l -> List.filter f l = [].
Proof. induction 1 as [|x l Hx _ IH]; simpl; [done|]. by rewrite Hx. Qed.

(** What the [try] block has put on the queue when the failure occurs. *)
Lemma transport_failure_try w i node commands condition n e :
  transport_failure w i node commands condition n e ->
  snd (process_node_try w i node commands condition) = Raised e /\
  length (List.filter is_executing (fst (process_node_try w i node commands condition))) = n /\
  (n <= length commands)%nat.
Proof.
  intros [e' Hk|opts e' Ho Hc|opts k c t e' Ho Hc Hk Hbefore Hrun].
  - unfold process_node_try. rewrite Hk. cbn [fst snd List.filter].
    rewrite is_executing_connecting. repeat split; simpl; lia.
  - unfold process_node_try. rewrite Ho, Hc. cbn [fst snd List.filter].
    rewrite is_executing_connecting. repeat split; simpl; lia.
  - rewrite (process_node_connected _ _ _ _ _ _ Ho Hc).
    rewrite (run_commands_at _ _ _ _ _ _ _ Hk Hbefore).
    assert (Hone : run_one w i k (node_name_of node) condition c
                   = ([ev_executing (node_name_of node) (cmd c)], Raised e')).
    { unfold run_one. by rewrite Hrun. }
    assert (Hcons : run_commands w i k (node_name_of node) condition
                      (c :: drop (S k) commands)
                    = ([ev_executing (node_name_of node) (cmd c)], Raised e')).
    { simpl. by rewrite Hone. }
    rewrite Hcons. cbn [fst snd]. split; [done|].
    pose proof (lookup_lt_Some _ _ _ Hk) as Hlt.
    split; [|lia].
    cbn [List.filter]. rewrite is_executing_connecting, is_executing_connected.
    rewrite List.filter_app, length_app.
    rewrite (run_commands_executing _ _ _ _ _ _ Hbefore).
    rewrite length_take_le by lia.
    cbn [List.filter]. rewrite is_executing_executing. simpl. lia.
Qed.

(** C5.  When a transport or connect error [e] occurs on the node at
    position [i] (while the key is imported, while the connection is
    opened, or while a command runs), the worker of that node returns,
    having put exactly one error event on the queue, as its last event;
    it has started [n] commands, the failing one included, and none of
    those after it.  The workers of the other nodes do not depend on what
    happens to this node; in parallel mode each other node has its own
    task, and in sequential mode the runner goes on with the node at
    position [i + 1] once this worker has returned. *)
Theorem transport_error_is_local
    (w : World) (i : nat) (node : node_config) (commands : list cmd_config)
    (condition : string) (n : nat) (e : exn) :
  transport_failure w i node commands condition n e ->
  let evs := fst (process_node w i node commands condition) in
  snd (process_node w i node commands condition) = Done /\
  (exists pre, evs = pre ++ [ev_error (node_name_of node) e] /\
               Forall (fun ev => is_error ev = false) pre) /\
  length (List.filter is_error evs) = 1%nat /\
  length (List.filter is_executing evs) = n /\
  (n <= length commands)%nat /\
  (forall w' j other,
      j <> i -> same_at j w w' ->
      process_node w j other commands condition
        = process_node w' j other commands condition) /\
  (forall nodes j other,
      nodes !! i = Some node -> nodes !! j = Some other ->
      spawn w "parallel" nodes commands condition !! j
        = Some (node_task w commands condition j other)) /\
  (forall nodes,
      nodes !! i = Some node ->
      snd (sequential_runner w commands condition O (take i nodes)) = Done ->
      sequential_runner w commands condition O nodes =
        (fst (sequential_runner w commands condition O (take i nodes))
           ++ tag 0 i evs
           ++ fst (sequential_runner w commands condition (S i) (drop (S i) nodes)),
         snd (sequential_runner w commands condition (S i) (drop (S i) nodes)))).
Proof.
  intros Hf evs.
  destruct (transport_failure_try _ _ _ _ _ _ _ Hf) as (Hraised & Hcount & Hle).
  pose proof (process_node_try_no_error w i node commands condition) as Hclean.
  assert (Hpn : process_node w i node commands condition
                = (fst (process_node_try w i node commands condition)
                     ++ [ev_error (node_name_of node) e], Done)).
  { unfold process_node.
    destruct (process_node_try w i node commands condition) as [pre fin]; simpl in *.
    by subst fin. }
  unfold evs. rewrite Hpn. cbn [fst snd].
  split; [done|]. split; [by eexists|].
  split; [|split; [|split; [done|]]].
  - rewrite List.filter_app, (filter_none _ _ Hclean). reflexivity.
  - rewrite List.filter_app, length_app, Hcount. cbn [List.filter].
    rewrite is_executing_error. simpl. lia.
  - split; [|split].
    + intros w' j other _ Hs. by apply process_node_local.
    + intros nodes j other _ Hj. by apply spawn_parallel_lookup.
    + intros nodes Hi Hbefore.
      rewrite (sequential_runner_at _ _ _ _ _ _ Hi); [by rewrite Hpn| |done].
      by rewrite Hpn.
Qed.

Lemma transport_error_is_local_witness :
  process_node w_one_down 1 n2 [uptime] "Check for errors" =
    ([ [("type", PStr "step"); ("message", PStr "Connecting to n2...")];
       [("type", PStr "error");
        ("message", PStr "Execution failed: Connection refused")] ], Done) /\
  sequential_runner w_one_down [uptime] "Check for errors" O [n1; n2; n1] =
    (fst (sequential_runner w_one_down [uptime] "Check for errors" O [n1])
       ++ tag 0 1 (fst (process_node w_one_down 1 n2 [uptime] "Check for errors"))
       ++ fst (sequential_runner w_one_down [uptime] "Check for errors" 2 [n1]),
     Done).
Proof.
  pose proof (transport_error_is_local w_one_down 1 n2 [uptime] "Check for errors" O
                (Exn SSHError "Connection refused")
                (fail_connect w_one_down 1 n2 [uptime] "Check for errors"
                   (ConnectOptions (Some "10.0.0.2") None "ubuntu" None None)
                   (Exn SSHError "Connection refused") eq_refl eq_refl)) as H.
  split; [reflexivity|].
  exact (proj2 (proj2 (proj2 (proj2 (proj2 (proj2 (proj2 H)))))) [n1; n2; n1]
               eq_refl eq_refl).
Defined.

End WorkerFacts.

(** ** [chat_api.py]: the orchestrator *)

Module OrchestratorFacts.

Import ChatEngine ChatApi Consumer ConsumerFacts WorkerFacts Examples.

(** *** The single task of sequential mode *)

(** Each item of the runner is an event of the worker of the node that its
    label names. *)
Lemma sequential_runner_honest w commands condition nodes : forall i,
  Forall (fun q => exists a node,
            q_node q = (i + a)%nat /\ nodes !! a = Some node /\
            q_event q ∈ fst (process_node w (i + a) node commands condition))
         (fst (sequential_runner w commands condition i nodes)).
Proof.
  induction nodes as [|node rest IH]; intros i; simpl; [constructor|].
  assert (Hhead : Forall (fun q => exists a node0,
            q_node q = (i + a)%nat /\ (node :: rest) !! a = Some node0 /\
            q_event q ∈ fst (process_node w (i + a) node0 commands condition))
          (tag 0 i (fst (process_node w i node commands condition)))).
  { unfold tag. apply Forall_map, Forall_forall. intros ev Hev. simpl.
    exists O, node. rewrite Nat.add_0_r. done. }
  destruct (process_node w i node commands condition) as [evs [|]]; simpl in *; [|done].
  specialize (IH (S i)).
  destruct (sequential_runner w commands condition (S i) rest) as [evs' t]; simpl in *.
  apply Forall_app. split; [done|].
  eapply Forall_impl; [exact IH|]. simpl. intros q (a & node0 & Hq & Ha & Hin).
  exists (S a), node0. replace (i + S a)%nat with (S i + a)%nat by lia. done.
Qed.

Lemma node_ordered_app (l1 l2 : list qitem) :
  node_ordered l1 -> node_ordered l2 ->
  (forall x y, x ∈ l1 -> y ∈ l2 -> (q_node x <= q_node y)%nat) ->
  node_ordered (l1 ++ l2).
Proof.
  intros H1 H2 H12 p q x y Hp Hq Hlt.
  apply lookup_app_Some in Hp as [Hp|[Hp1 Hp2]];
    apply lookup_app_Some in Hq as [Hq|[Hq1 Hq2]].
  - by eapply H1.
  - apply lookup_lt_Some in Hp. lia.
  - assert (q_node y <= q_node x)%nat; [|lia].
    apply H12; apply list_elem_of_lookup; eauto.
  - specialize (H2 _ _ _ _ Hp2 Hq2 Hlt). lia.
Qed.

Lemma node_ordered_prefix (l1 l2 : list qitem) :
  node_ordered (l1 ++ l2) -> node_ordered l1.
Proof.
  intros H p q x y Hp Hq. apply (H p q x y); by apply lookup_app_l_Some.
Qed.

Lemma sequential_runner_ordered w commands condition nodes : forall i,
  node_ordered (fst (sequential_runner w commands condition i nodes)) /\
  Forall (fun q => (i <= q_node q)%nat)
         (fst (sequential_runner w commands condition i nodes)).
Proof.
  induction nodes as [|node rest IH]; intros i; simpl.
  - split; [|constructor]. intros p q x y Hp. done.
  - assert (Hsame : forall evs, Forall (fun q => q_node q = i) (tag 0 i evs)).
    { intros evs. unfold tag. apply Forall_map. by apply Forall_true. }
    assert (Hflat : forall evs, node_ordered (tag 0 i evs)).
    { intros evs p q x y Hp Hq Hlt. pose proof (Hsame evs) as HF.
      rewrite Forall_lookup in HF. rewrite (HF _ _ Hp), (HF _ _ Hq) in Hlt. lia. }
    destruct (process_node w i node commands condition) as [evs [|]]; simpl.
    + destruct (IH (S i)) as [Hord Hge].
      destruct (sequential_runner w commands condition (S i) rest) as [evs' t]; simpl in *.
      split.
      * apply node_ordered_app; [done..|].
        intros x y Hx Hy. pose proof (Hsame evs) as HF.
        rewrite Forall_forall in HF, Hge. rewrite (HF _ Hx).
        specialize (Hge _ Hy). lia.
      * apply Forall_app. split.
        -- eapply Forall_impl; [apply Hsame|]. simpl. intros; lia.
        -- eapply Forall_impl; [exact Hge|]. simpl. intros; lia.
    + split; [done|]. eapply Forall_impl; [apply Hsame|]. simpl. intros; lia.
Qed.

(** When the runner returns, its items are the events of every node, node
    after node. *)
Lemma sequential_runner_complete w commands condition nodes : forall i,
  snd (sequential_runner w commands condition i nodes) = Done ->
  map q_event (fst (sequential_runner w commands condition i nodes)) =
    concat (imap (fun a node => fst (process_node w (i + a) node commands condition))
                 nodes).
Proof.
  induction nodes as [|node rest IH]; intros i; simpl; [done|].
  rewrite Nat.add_0_r.
  destruct (process_node w i node commands condition) as [evs [|]]; simpl; [|done].
  specialize (IH (S i)).
  destruct (sequential_runner w commands condition (S i) rest) as [evs' t]; simpl in *.
  intros Ht. rewrite map_app, IH by done. f_equal.
  - unfold tag. rewrite map_map. simpl. apply map_id.
  - f_equal. apply imap_ext. intros a x _. simpl.
    by replace (i + S a)%nat with (S (i + a)) by lia.
Qed.

(** In a run with a single task, what has been yielded, what is in the
    queue and what is still to be put make up the items of the task. *)
Lemma single_task_run items t s :
  Forall (fun q => q_task q = O) items ->
  reachable [Task items t] s ->
  exists rest, tasks s = [Task rest t] /\ yielded s ++ queue s ++ rest = items.
Proof.
  intros Htag Hr.
  assert (Hwt : well_tagged [Task items t]).
  { intros [|j] t0 Hj; simplify_eq/=. done. }
  pose proof (inv_reachable _ _ Hwt Hr) as [Hlen Hcons Htags _ _ _ _ _].
  destruct (Hcons O (Task items t) eq_refl) as ([rest t'] & Ht & Hterm & Heq).
  simpl in *. subst t'.
  rewrite proj_all in Heq.
  2: { eapply Forall_impl; [exact Htags|]. simpl. intros; lia. }
  exists rest. split; [|by rewrite <- app_assoc in Heq].
  destruct (tasks s) as [|x [|y l]]; simpl in *; try done. by injection Ht as ->.
Qed.

(** C7.  In sequential mode (any execution mode other than "parallel"), at
    every moment of every run, the events yielded so far are ordered by
    node: an event of a node that comes earlier in the plan has been
    yielded before every event of a node that comes later.  Each yielded
    event is an event of the worker of the node it is attributed to, and
    when the run is finalized the yielded events are exactly the events of
    the first node, then those of the second, and so on: the single task
    finishes a node before it starts the next. *)
Theorem sequential_order
    (w : World) (mode : string) (nodes : list node_config)
    (commands : list cmd_config) (condition : string) (s : orch) :
  String.eqb mode "parallel" = false ->
  reachable (spawn w mode nodes commands condition) s ->
  node_ordered (yielded s) /\
  Forall (fun q => exists node,
            nodes !! q_node q = Some node /\
            q_event q ∈ fst (process_node w (q_node q) node commands condition))
         (yielded s) /\
  (ph s = Finalized ->
   map q_event (yielded s) =
     concat (imap (fun a node => fst (process_node w a node commands condition)) nodes)).
Proof.
  intros Hmode Hr. unfold spawn in Hr. rewrite Hmode in Hr.
  pose proof (sequential_runner_tagged w commands condition nodes O) as Htag.
  pose proof (sequential_runner_honest w commands condition nodes O) as Hhon.
  pose proof (sequential_runner_ordered w commands condition nodes O) as [Hord _].
  pose proof (sequential_runner_complete w commands condition nodes O) as Hcomp.
  destruct (sequential_runner w commands condition O nodes) as [items t]; simpl in *.
  assert (Hwt : well_tagged [Task items t]).
  { intros [|j] t0 Hj; simplify_eq/=. done. }
  destruct (single_task_run _ _ _ Htag Hr) as (rest & Hts & Heq).
  split; [|split].
  - rewrite <- Heq in Hord. by eapply node_ordered_prefix.
  - rewrite <- Heq in Hhon. apply Forall_app in Hhon as [Hhon _].
    eapply Forall_impl; [exact Hhon|]. simpl. intros q (a & node & Hq & Ha & Hin).
    exists node. by rewrite Hq.
  - intros Hf.
    pose proof (inv_reachable _ _ Hwt Hr) as [_ _ _ _ _ _ Hph Hfin].
    specialize (Hph ltac:(congruence)). rewrite Hts in Hph.
    apply Forall_cons in Hph as [Hd _]. unfold done in Hd. simpl in Hd.
    destruct rest; [|done]. destruct t; [|done].
    rewrite (Hfin Hf) in Heq. simpl in Heq. rewrite app_nil_r in Heq.
    rewrite Heq. by apply Hcomp.
Qed.

Lemma sequential_order_witness :
  let s := state_after (lockstep 12)
             (spawn w_up "sequential" [n1; n2] [uptime] "Check for errors") in
  ph s = Finalized /\
  node_ordered (yielded s) /\
  map q_event (yielded s) =
    fst (process_node w_up 0 n1 [uptime] "Check for errors") ++
    fst (process_node w_up 1 n2 [uptime] "Check for errors").
Proof.
  intros s.
  assert (Hr : reachable (spawn w_up "sequential" [n1; n2] [uptime] "Check for errors") s).
  { exists (lockstep 12). vm_compute. reflexivity. }
  destruct (sequential_order w_up "sequential" [n1; n2] [uptime] "Check for errors" s
              eq_refl Hr) as (Hord & _ & Hall).
  split; [reflexivity|]. split; [exact Hord|].
  rewrite (Hall eq_refl). simpl. by rewrite app_nil_r.
Defined.

(** *** Runs of [stream_execution] *)

Lemma tasks_of_well_tagged w rule : well_tagged (tasks_of w rule).
Proof. apply spawn_well_tagged. Qed.

(** A run on an execution and a rule that exist is a run of the consumer
    loop to its finalisation. *)
Lemma stream_execution_run w db id execution rule stream db' :
  rule_executions db !! id = Some execution ->
  rules db !! rule_id execution = Some rule ->
  stream_execution w db id stream db' ->
  exists s, reachable (tasks_of w rule) s /\ ph s = Finalized /\
            stream = map q_event (yielded s) ++ [ev_complete] /\
            db' = finalize db id execution s.
Proof.
  intros He Hr Hs. inversion Hs; subst; simplify_eq. eauto.
Qed.

(** When every task returns, the run can be completed. *)
Lemma stream_execution_exists w db id execution rule :
  rule_executions db !! id = Some execution ->
  rules db !! rule_id execution = Some rule ->
  all_return (tasks_of w rule) ->
  exists stream db', stream_execution w db id stream db'.
Proof.
  intros He Hr Hall. destruct (completes _ Hall) as (s & Hreach & Hf).
  eexists _, _. by eapply stream_run.
Qed.

(** The run of a schedule that leads to the finalisation, as a run of
    [stream_execution] on the database that [execute_rule] has prepared. *)
Lemma scheduled_run w rule ls :
  ph (state_after ls (tasks_of w rule)) = Finalized ->
  stream_execution w (db_running rule) 0
    (map q_event (yielded (state_after ls (tasks_of w rule))) ++ [ev_complete])
    (finalize (db_running rule) 0 new_execution (state_after ls (tasks_of w rule))).
Proof.
  intros Hf.
  apply (stream_run w (db_running rule) 0 new_execution rule); [done|done| |done].
  exists ls. unfold state_after in *.
  destruct (run ls (start (tasks_of w rule))) as [s|]; [done|]. done.
Defined.

(** C2, as the code refutes it: two nodes in parallel, the second of which
    refuses the connection.  The error event of the second node is
    consumed by the consumer loop and yielded to the client, and it is not
    in the timeline of the finalized execution record. *)
Lemma timeline_drops_error_counterexample :
  let rule := rule_of "parallel" [n1; n2] [uptime] in
  let error := ev_error "n2" (Exn SSHError "Connection refused") in
  exists stream db' record,
    stream_execution w_one_down (db_running rule) 0 stream db' /\
    rule_executions db' !! 0 = Some record /\
    List.filter is_error stream = [error] /\
    List.filter is_error (timeline_json record) = [].
Proof.
  intros rule error.
  eexists _, _, _. split; [|split; [|split]].
  - apply (scheduled_run w_one_down rule second_first). vm_compute. reflexivity.
  - apply lookup_insert_eq.
  - vm_compute. reflexivity.
  - vm_compute. reflexivity.
Qed.

(** A step of such a run is a step of the orchestrator, and the queue is
    empty when it is a timeout. *)
Lemma prompt_step_step l s s' :
  prompt_step l s = Some s' ->
  step l s = Some s' /\ (l = Timeout -> queue s = []).
Proof.
  unfold prompt_step. destruct l, (queue s) eqn:Hq; try done.
  all: intros Hs; split; [exact Hs|done].
Qed.

(** When the timer fires on an empty queue only, the draining loop finds
    nothing to drain, and the timeline of the run is exactly the step
    events among the observed ones. *)
Lemma prompt_run_quiet ls : forall s s',
  prompt_run ls s = Some s' ->
  ((ph s <> Consuming \/ (length (tasks s) <= finished_tasks s)%nat) ->
   queue s = [] /\ Forall (fun t => done t = true) (tasks s)) ->
  timeline s = List.filter is_step (map q_event (yielded s)) ->
  ((ph s' <> Consuming \/ (length (tasks s') <= finished_tasks s')%nat) ->
   queue s' = [] /\ Forall (fun t => done t = true) (tasks s')) /\
  timeline s' = List.filter is_step (map q_event (yielded s')).
Proof.
  induction ls as [|l ls IH]; intros s s' Hrun Hq Ht; simpl in Hrun.
  - by simplify_eq.
  - destruct (prompt_step l s) as [s1|] eqn:Hs; [|done].
    apply prompt_step_step in Hs as [Hs Hempty].
    apply (IH s1 s' Hrun); clear IH Hrun.
    + destruct l as [j| | | | |]; simpl in Hs.
      * destruct (tasks s !! j) as [[[|q rest] t]|] eqn:Hj; simplify_eq. simpl.
        rewrite length_insert. intros Hc. destruct (Hq Hc) as [_ Hd].
        exfalso. apply (Forall_lookup_1 _ _ _ _ Hd) in Hj. done.
      * destruct (ph s) eqn:Hp; try done. destruct (queue s) as [|q rest]; try done.
        destruct (Nat.ltb_spec (finished_tasks s) (length (tasks s))); simplify_eq.
        simpl. intros [?|?]; [done|lia].
      * destruct (ph s) eqn:Hp; try done.
        destruct (Nat.ltb_spec (finished_tasks s) (length (tasks s))); simplify_eq.
        simpl. intros [?|Hc]; [done|]. split; [by apply Hempty|].
        apply done_count_full. pose proof (done_count_le (tasks s)). lia.
      * destruct (ph s) eqn:Hp; try done.
        destruct (Nat.ltb_spec (finished_tasks s) (length (tasks s))); simplify_eq.
        simpl. intros _. apply Hq. right. lia.
      * destruct (ph s) eqn:Hp; try done.
        destruct (Hq ltac:(left; congruence)) as [Hnil _].
        by rewrite Hnil in Hs.
      * destruct (ph s) eqn:Hp; try done. destruct (queue s) eqn:Hqueue; simplify_eq.
        simpl. intros _. destruct (Hq ltac:(left; congruence)) as [_ Hd]. done.
    + destruct l as [j| | | | |]; simpl in Hs.
      * destruct (tasks s !! j) as [[[|q rest] t]|] eqn:Hj; by simplify_eq.
      * destruct (ph s) eqn:Hp; try done. destruct (queue s) as [|q rest]; try done.
        destruct (Nat.ltb_spec (finished_tasks s) (length (tasks s))); simplify_eq.
        simpl. rewrite map_app, List.filter_app, Ht. simpl.
        destruct (is_step (q_event q)); by rewrite ?app_nil_r.
      * destruct (ph s) eqn:Hp; try done.
        destruct (Nat.ltb_spec (finished_tasks s) (length (tasks s))); by simplify_eq.
      * destruct (ph s) eqn:Hp; try done.
        destruct (Nat.ltb_spec (finished_tasks s) (length (tasks s))); by simplify_eq.
      * destruct (ph s) eqn:Hp; try done.
        destruct (Hq ltac:(left; congruence)) as [Hnil _].
        by rewrite Hnil in Hs.
      * destruct (ph s) eqn:Hp; try done. destruct (queue s) eqn:Hqueue; by simplify_eq.
Qed.

(** In such a run, no error event and no incident event is ever retained
    in the timeline. *)
Lemma prompt_run_steps_only ts ls s :
  prompt_run ls (start ts) = Some s ->
  timeline s = List.filter is_step (map q_event (yielded s)).
Proof.
  intros Hrun. apply (prompt_run_quiet ls (start ts) s Hrun); [|done].
  simpl. intros [?|Hlen]; [done|]. destruct ts; [done|simpl in Hlen; lia].
Qed.

(** C2, amended.  In every completed run, the stream is the events that
    the consumer took from the queue, in the order it took them, followed
    by the closing "complete" event: no event is dropped from the stream.
    Every event that a task put on the queue has been taken, in the order
    in which that task put it, and every task has returned: the consumer
    does not finalize before the queue is empty and every task is done.
    The timeline of the finalized record is a subsequence of the observed
    events which has all their step events, in the order of observation. *)
Theorem stream_retains_events
    (w : World) (db : Db) (id : Z) (execution : RuleExecution) (rule : AutomationRule)
    (stream : list event) (db' : Db) :
  rule_executions db !! id = Some execution ->
  rules db !! rule_id execution = Some rule ->
  stream_execution w db id stream db' ->
  exists observed kept,
    stream = map q_event observed ++ [ev_complete] /\
    rule_executions db' !! id =
      Some {| rule_id := rule_id execution; status := COMPLETED; timeline_json := kept |} /\
    (forall j t0, tasks_of w rule !! j = Some t0 ->
                  term t0 = Done /\ proj j observed = pending t0) /\
    Forall (fun q => (q_task q < length (tasks_of w rule))%nat) observed /\
    List.filter is_step kept = List.filter is_step (map q_event observed) /\
    sublist kept (map q_event observed).
Proof.
  intros He Hr Hs.
  destruct (stream_execution_run _ _ _ _ _ _ _ He Hr Hs) as (s & Hreach & Hf & -> & ->).
  pose proof (inv_reachable _ _ (tasks_of_well_tagged w rule) Hreach)
    as [Hlen Hcons Htags Hsteps Hsub _ Hph Hfin].
  specialize (Hph ltac:(congruence)). specialize (Hfin Hf).
  rewrite Hfin, app_nil_r in Hcons, Htags.
  exists (yielded s), (timeline s). split; [done|]. split; [apply lookup_insert_eq|].
  split; [|done].
  intros j t0 Hj. destruct (Hcons _ _ Hj) as (t & Ht & Hterm & Heq).
  rewrite Forall_lookup in Hph. specialize (Hph _ _ Ht).
  unfold done in Hph. destruct (pending t) eqn:Hp; [|done].
  destruct (term t) eqn:Ht'; [|done].
  rewrite app_nil_r in Heq. by rewrite <- Hterm.
Qed.

Lemma stream_retains_events_witness :
  let rule := rule_of "parallel" [n1; n2] [uptime] in
  exists stream db' observed kept,
    stream_execution w_one_down (db_running rule) 0 stream db' /\
    stream = map q_event observed ++ [ev_complete] /\
    rule_executions db' !! 0 =
      Some {| rule_id := 1; status := COMPLETED; timeline_json := kept |} /\
    List.filter is_step kept = List.filter is_step (map q_event observed).
Proof.
  intros rule.
  assert (Hs := scheduled_run w_one_down rule second_first eq_refl).
  destruct (stream_retains_events w_one_down (db_running rule) 0 new_execution rule
              _ _ eq_refl eq_refl Hs)
    as (observed & kept & H1 & H2 & _ & _ & H3 & _).
  eexists _, _, observed, kept.
  split; [exact Hs|]. split; [exact H1|]. split; [exact H2|exact H3].
Defined.

(** *** A plan without nodes *)

Lemma tasks_of_no_nodes w rule :
  nodes_json rule = [] ->
  Forall (fun t => pending t = []) (tasks_of w rule) /\ all_return (tasks_of w rule).
Proof.
  intros Hn. unfold tasks_of, spawn, all_return. rewrite Hn. simpl.
  destruct (String.eqb _ "parallel"); simpl; split; repeat constructor.
Qed.

(** Tasks with nothing to put leave the stream and the timeline empty. *)
Lemma no_items ts s :
  well_tagged ts -> Forall (fun t => pending t = []) ts -> reachable ts s ->
  yielded s = [] /\ timeline s = [].
Proof.
  intros Hwt Hnone Hr.
  pose proof (inv_reachable _ _ Hwt Hr) as [_ Hcons Htags _ Hsub _ _ _].
  assert (Hy : yielded s = []).
  { destruct (yielded s) as [|q l] eqn:Hy; [done|]. exfalso.
    apply Forall_app in Htags as [Htags _]. apply Forall_cons in Htags as [Hq _].
    destruct (lookup_lt_is_Some_2 ts _ Hq) as [t0 Ht0].
    destruct (Hcons _ _ Ht0) as (t & _ & _ & Heq).
    rewrite Forall_lookup in Hnone. rewrite (Hnone _ _ Ht0) in Heq.
    unfold proj in Heq. simpl in Heq. rewrite Nat.eqb_refl in Heq. done. }
  split; [done|]. rewrite Hy in Hsub. simpl in Hsub. by apply sublist_nil_r.
Qed.

(** C3, as the code refutes it: for a rule without nodes, [execute_rule]
    creates the execution record, and the run of [stream_execution] streams
    one event, which is the closing "complete" event and not an error, and
    stores the record as completed. *)
Lemma empty_plan_counterexample :
  let rule := rule_of "sequential" [] [uptime] in
  execute_rule (db_of rule) 1 = Some (0, db_running rule) /\
  exists stream db' record,
    stream_execution w_up (db_running rule) 0 stream db' /\
    stream = [ev_complete] /\ is_error ev_complete = false /\
    rule_executions db' !! 0 = Some record /\ status record = COMPLETED.
Proof.
  intros rule. split; [vm_compute; reflexivity|].
  eexists _, _, _. split; [|split; [|split; [|split]]].
  - apply (scheduled_run w_up rule (lockstep 0)). reflexivity.
  - reflexivity.
  - reflexivity.
  - apply lookup_insert_eq.
  - reflexivity.
Qed.

(** C3, amended.  A plan with an empty node list is not rejected: no
    worker has anything to put on the queue, the run completes, and every
    completed run streams the single closing "complete" event and
    finalizes the execution record as completed, with an empty timeline.
    A plan with an empty command list is not rejected either: the worker
    of each node starts, with the "connecting" step as its first event. *)
Theorem empty_plan_completes
    (w : World) (db : Db) (id : Z) (execution : RuleExecution) (rule : AutomationRule) :
  rule_executions db !! id = Some execution ->
  rules db !! rule_id execution = Some rule ->
  nodes_json rule = [] ->
  Forall (fun t => pending t = []) (tasks_of w rule) /\
  (exists stream db', stream_execution w db id stream db') /\
  (forall stream db',
      stream_execution w db id stream db' ->
      stream = [ev_complete] /\
      rule_executions db' !! id =
        Some {| rule_id := rule_id execution; status := COMPLETED; timeline_json := [] |}) /\
  (forall i node condition,
      exists rest,
        fst (process_node w i node [] condition) = ev_connecting (node_name_of node) :: rest).
Proof.
  intros He Hr Hn. destruct (tasks_of_no_nodes w rule Hn) as [Hnone Hall].
  split; [done|]. split; [by eapply stream_execution_exists|]. split.
  - intros stream db' Hs.
    destruct (stream_execution_run _ _ _ _ _ _ _ He Hr Hs) as (s & Hreach & _ & -> & ->).
    destruct (no_items _ _ (tasks_of_well_tagged w rule) Hnone Hreach) as [Hy Ht].
    rewrite Hy. split; [done|]. unfold finalize. simpl. rewrite Ht.
    apply lookup_insert_eq.
  - intros i node condition. unfold process_node, process_node_try.
    destruct (connect_options_of w node) as [opts|e]; [|by eexists].
    destruct (ssh_connect w i opts) as [[]|e]; by eexists.
Qed.

Lemma empty_plan_completes_witness :
  let rule := rule_of "parallel" [] [uptime] in
  tasks_of w_up rule = [] /\
  forall stream db',
    stream_execution w_up (db_running rule) 0 stream db' ->
    stream = [ev_complete] /\
    rule_executions db' !! 0 =
      Some {| rule_id := 1; status := COMPLETED; timeline_json := [] |}.
Proof.
  intros rule. split; [reflexivity|].
  exact (proj1 (proj2 (proj2
           (empty_plan_completes w_up (db_running rule) 0 new_execution rule
              eq_refl eq_refl eq_refl)))).
Defined.

(** *** The status of a finished run *)

(** C1, as the code refutes it: a plan whose only node refuses the
    connection.  The worker emits an error event and no node succeeds, so
    that the specification classifies the run as failed; the finalized
    record of the run has the status COMPLETED. *)
Lemma completed_despite_failure_counterexample :
  let rule := rule_of "sequential" [n1] [uptime] in
  process_node w_all_down 0 n1 [uptime] "Check for errors" =
    ([ev_connecting "n1"; ev_error "n1" (Exn SSHError "Connection refused")], Done) /\
  Spec.classify [false] = Spec.Failed /\
  exists stream db' record,
    stream_execution w_all_down (db_running rule) 0 stream db' /\
    List.filter is_error stream = [ev_error "n1" (Exn SSHError "Connection refused")] /\
    rule_executions db' !! 0 = Some record /\
    status record = COMPLETED /\ status record <> FAILED.
Proof.
  intros rule. split; [reflexivity|]. split; [reflexivity|].
  eexists _, _, _. split; [|split; [|split; [|split]]].
  - apply (scheduled_run w_all_down rule (lockstep 2)). reflexivity.
  - vm_compute. reflexivity.
  - apply lookup_insert_eq.
  - reflexivity.
  - done.
Qed.

(** C1, amended.  When a streaming run finishes, the status of the
    finalized execution record is COMPLETED, for every plan and whatever
    the outcomes of the nodes, error events included.  The three-way
    classification exists in the runbook executor only, where it goes by
    command result and not by node: SUCCESS when every result succeeded,
    FAILED when none did, PARTIAL otherwise. *)
Theorem completion_status
    (w : World) (db : Db) (id : Z) (execution : RuleExecution) (rule : AutomationRule)
    (stream : list event) (db' : Db)
    (r : Executor.Remote) (ai : string -> string -> outcome pydict)
    (st : Executor.Store) (runbook_id execution_id : Z)
    (servers : list Executor.Server) (commands : list Executor.Command)
    (old : Executor.ExecutionStatus) :
  rule_executions db !! id = Some execution ->
  rules db !! rule_id execution = Some rule ->
  stream_execution w db id stream db' ->
  runbook_id ∈ Executor.runbooks st ->
  Executor.runbook_servers st !! runbook_id = Some servers -> servers <> [] ->
  Executor.runbook_commands st !! runbook_id = Some commands -> commands <> [] ->
  Executor.executions st !! execution_id = Some old ->
  (exists kept,
     rule_executions db' !! id =
       Some {| rule_id := rule_id execution; status := COMPLETED; timeline_json := kept |}) /\
  Executor.executions (Executor.execute_runbook r ai st runbook_id execution_id)
    !! execution_id
    = Some (Spec.to_status
              (Spec.classify (map Executor.succeeded
                                  (Executor.all_results r servers commands)))).
Proof.
  intros He Hr Hs Hrb Hsv Hsne Hc Hcne Hold. split.
  - destruct (stream_execution_run _ _ _ _ _ _ _ He Hr Hs) as (s & _ & _ & _ & ->).
    exists (timeline s). apply lookup_insert_eq.
  - by eapply RunbookFacts.execute_runbook_status.
Qed.

Lemma completion_status_witness :
  (exists stream db' kept,
     stream_execution w_all_down (db_running (rule_of "sequential" [n1] [uptime])) 0
       stream db' /\
     rule_executions db' !! 0 =
       Some {| rule_id := 1; status := COMPLETED; timeline_json := kept |}) /\
  Executor.executions (Executor.execute_runbook r_mixed ai_down store_mixed 1 5) !! 5
    = Some Executor.PARTIAL.
Proof.
  assert (Hs := scheduled_run w_all_down (rule_of "sequential" [n1] [uptime])
                  (lockstep 2) eq_refl).
  destruct (completion_status w_all_down
              (db_running (rule_of "sequential" [n1] [uptime])) 0 new_execution
              (rule_of "sequential" [n1] [uptime]) _ _
              r_mixed ai_down store_mixed 1 5
              [server 1 "10.0.0.1"; server 2 "10.0.0.2"] [check_disk] Executor.PENDING
              eq_refl eq_refl Hs ltac:(set_solver) eq_refl ltac:(done) eq_refl ltac:(done)
              eq_refl) as [[kept Hk] Hrun].
  split; [by eexists _, _, kept|]. exact Hrun.
Defined.

(** *** A command that never ends *)

(** C4, at the input where the code leaves the specification: one node,
    one command that never ends.  The single-command runner gives up after
    its timeout and says so.  The worker of the streaming path waits for
    the command with no timeout: it never returns, the consumer loop never
    ends, and no run of [stream_execution] completes. *)
Theorem streaming_command_has_no_timeout :
  let rule := rule_of "sequential" [n1] [tail_f] in
  (forall r server command,
      Executor.connect r server = Returns () ->
      Executor.conn_run r server command = Hangs ->
      Executor.run_command r server command Executor.default_timeout =
        Returns (Executor.CommandResult "FAILED" ""
                   "Command timed out after 300 seconds" (-1))) /\
  process_node w_hang 0 n1 [tail_f] "Check for errors" =
    ([ev_connecting "n1"; ev_connected "n1";
      ev_executing "n1" (Some "tail -f /var/log/syslog")], Blocked) /\
  (forall s, reachable (tasks_of w_hang rule) s -> ph s = Consuming) /\
  ~ exists stream db', stream_execution w_hang (db_running rule) 0 stream db'.
Proof.
  intros rule.
  assert (Hstuck : forall s, reachable (tasks_of w_hang rule) s -> ph s = Consuming).
  { intros s. eapply (blocked_never_leaves _ s O); [apply tasks_of_well_tagged|..];
      reflexivity. }
  split; [|split; [reflexivity|split; [done|]]].
  - intros r server command Hc Hr.
    unfold Executor.run_command, Executor.run_command_try. by rewrite Hc, Hr.
  - intros (stream & db' & Hs).
    destruct (stream_execution_run w_hang (db_running rule) 0 new_execution rule
                stream db' eq_refl eq_refl Hs) as (s & Hreach & Hf & _).
    rewrite (Hstuck s Hreach) in Hf. done.
Qed.

End OrchestratorFacts.

(* ================================================================== *)
(** * Further properties *)
(* ================================================================== *)

(** ** [chat_api.py]: when a stream completes, and what a hung node holds up *)

Module StreamFacts.

Import ChatEngine ChatApi Consumer ConsumerFacts WorkerFacts OrchestratorFacts Examples.






(** X1.  Given the execution record and its rule, [stream_execution] has a
    run that reaches its closing [complete] event and finalizes the record
    exactly when every task it started returns: a single task that never
    returns keeps every run in the consumer loop, and when all of them
    return the loop can always be left. *)
Theorem stream_completes_iff_tasks_return
    (w : World) (db : Db) (id : Z) (execution : RuleExecution) (rule : AutomationRule) :
  rule_executions db !! id = Some execution ->
  rules db !! rule_id execution = Some rule ->
  (exists stream db', stream_execution w db id stream db')
  <-> Forall (fun t => term t = Done) (tasks_of w rule).
Proof.
  intros He Hr. split.
  - intros (stream & db' & Hs).
    destruct (stream_execution_run _ _ _ _ _ _ _ He Hr Hs) as (s & Hreach & Hf & _).
    apply Forall_lookup. intros j t0 Hj.
    destruct (term t0) eqn:Ht; [done|].
    pose proof (blocked_never_leaves _ _ _ _ (tasks_of_well_tagged w rule) Hj Ht Hreach).
    congruence.
  - intros Hall. by eapply stream_execution_exists.
Qed.

Lemma stream_completes_iff_tasks_return_witness :
  (exists stream db',
      stream_execution w_up (db_running (rule_of "sequential" [n1] [uptime])) 0 stream db')
  <-> Forall (fun t => term t = Done) (tasks_of w_up (rule_of "sequential" [n1] [uptime])).
Proof.
  apply (stream_completes_iff_tasks_return w_up _ 0 new_execution
           (rule_of "sequential" [n1] [uptime])); reflexivity.
Defined.



(** X3.  In sequential mode a node whose worker never returns holds up the
    whole plan: the single task puts the events of the nodes before it and
    the events of that node up to the point where it waits, and then never
    returns, so that at no moment of any run has an event of a later node
    been yielded.  In parallel mode the task of every other node is
    started all the same. *)
Theorem hung_node_blocks_later_nodes
    (w : World) (mode : string) (nodes : list node_config) (commands : list cmd_config)
    (condition : string) (i : nat) (node : node_config) :
  nodes !! i = Some node ->
  snd (process_node w i node commands condition) = Blocked ->
  snd (sequential_runner w commands condition O (take i nodes)) = Done ->
  sequential_runner w commands condition O nodes =
    (fst (sequential_runner w commands condition O (take i nodes))
       ++ tag 0 i (fst (process_node w i node commands condition)),
     Blocked) /\
  (String.eqb mode "parallel" = false ->
   forall s, reachable (spawn w mode nodes commands condition) s ->
             Forall (fun q => (q_node q <= i)%nat) (yielded s)) /\
  (forall j other,
      nodes !! j = Some other ->
      spawn w "parallel" nodes commands condition !! j
        = Some (node_task w commands condition j other)).
Proof.
  intros Hi Hb Hbefore.
  assert (Hrun : sequential_runner w commands condition O nodes =
    (fst (sequential_runner w commands condition O (take i nodes))
       ++ tag 0 i (fst (process_node w i node commands condition)),
     Blocked)).
  { rewrite <- (take_drop_middle nodes i node Hi) at 1.
    rewrite sequential_runner_app by done.
    rewrite length_take_le by (apply lookup_lt_Some in Hi; lia).
    simpl. destruct (process_node w i node commands condition) as [evs t]; simpl in *.
    by subst t. }
  split; [exact Hrun|]. split.
  - intros Hmode s Hreach. unfold spawn in Hreach. rewrite Hmode, Hrun in Hreach.
    assert (Hitems : Forall (fun q => (q_node q <= i)%nat)
              (fst (sequential_runner w commands condition O (take i nodes))
                 ++ tag 0 i (fst (process_node w i node commands condition)))).
    { apply Forall_app. split.
      - eapply Forall_impl; [apply sequential_runner_honest|]. simpl.
        intros q (a & node' & Hq & Ha & _). apply lookup_lt_Some in Ha.
        rewrite length_take in Ha. lia.
      - unfold tag. apply Forall_map. apply Forall_true. simpl. lia. }
    assert (Htag : Forall (fun q => q_task q = O)
              (fst (sequential_runner w commands condition O (take i nodes))
                 ++ tag 0 i (fst (process_node w i node commands condition)))).
    { apply Forall_app. split; [apply sequential_runner_tagged|apply tag_tagged]. }
    destruct (single_task_run _ _ _ Htag Hreach) as (rest & _ & Heq).
    rewrite <- Heq in Hitems. by apply Forall_app in Hitems as [? _].
  - intros j other Hj. by apply spawn_parallel_lookup.
Qed.

Lemma hung_node_blocks_later_nodes_witness :
  sequential_runner w_hang [tail_f] "Check for errors" O [n1; n2] =
    (fst (sequential_runner w_hang [tail_f] "Check for errors" O (take 0 [n1; n2]))
       ++ tag 0 0 (fst (process_node w_hang 0 n1 [tail_f] "Check for errors")),
     Blocked) /\
  (String.eqb "sequential" "parallel" = false ->
   forall s, reachable (spawn w_hang "sequential" [n1; n2] [tail_f] "Check for errors") s ->
             Forall (fun q => (q_node q <= 0)%nat) (yielded s)) /\
  (forall j other,
      [n1; n2] !! j = Some other ->
      spawn w_hang "parallel" [n1; n2] [tail_f] "Check for errors" !! j
        = Some (node_task w_hang [tail_f] "Check for errors" j other)).
Proof.
  apply (hung_node_blocks_later_nodes w_hang "sequential" [n1; n2] [tail_f]
           "Check for errors" 0 n1); reflexivity.
Defined.

(** X4.  In a run in which the timer of the consumer loop fires on an
    empty queue only, the draining loop after it finds the queue empty:
    the timeline that is persisted holds exactly the step events among the
    events yielded, in order, and no error event and no incident event. *)
Theorem prompt_timeline_is_steps
    (ts : list task) (ls : list label) (s : orch) :
  prompt_run ls (start ts) = Some s ->
  run ls (start ts) = Some s /\
  timeline s = List.filter is_step (map q_event (yielded s)) /\
  Forall (fun e => is_step e = true) (timeline s) /\
  (ph s <> Consuming -> queue s = []).
Proof.
  intros Hrun.
  assert (Hsame : forall ls s0 s1, prompt_run ls s0 = Some s1 -> run ls s0 = Some s1).
  { clear. induction ls as [|l ls IH]; intros s0 s1; simpl; [done|].
    destruct (prompt_step l s0) as [s2|] eqn:Hs; [|done].
    apply prompt_step_step in Hs as [-> _]. apply IH. }
  split; [by apply Hsame|].
  destruct (prompt_run_quiet ls (start ts) s Hrun) as [Hq Ht]; [|done|].
  { simpl. intros [?|Hlen]; [done|]. destruct ts; [done|simpl in Hlen; lia]. }
  split; [exact Ht|]. split.
  - rewrite Ht. apply Forall_forall. intros e He.
    apply list_elem_of_In, filter_In in He. tauto.
  - intros Hph. apply Hq. by left.
Qed.

Lemma prompt_timeline_is_steps_witness :
  let ts := tasks_of w_one_down (rule_of "parallel" [n1; n2] [uptime]) in
  let s := state_after second_first ts in
  run second_first (start ts) = Some s /\
  timeline s = List.filter is_step (map q_event (yielded s)) /\
  Forall (fun e => is_step e = true) (timeline s) /\
  (ph s <> Consuming -> queue s = []).
Proof.
  apply (prompt_timeline_is_steps
           (tasks_of w_one_down (rule_of "parallel" [n1; n2] [uptime])) second_first).
  vm_compute. reflexivity.
Defined.

End StreamFacts.

(** ** [executor.py]: the results and the rows of a runbook execution *)

Module RunbookRowFacts.

Import Executor ExecutorRows RunbookFacts.

Lemma run_command_returns r server command timeout :
  exists res, run_command r server command timeout = Returns res.
Proof.
  unfold run_command.
  destruct (run_command_try r server command timeout) as [res|[[] m]]; simpl; eauto.
Qed.

Lemma execute_on_servers_cons r server servers command :
  execute_on_servers r (server :: servers) command =
    match run_command r server command default_timeout with
    | Returns res => ServerResult (server_id server) (hostname server) res
    | Raises e => ServerResult (server_id server) (hostname server)
                               (CommandResult "FAILED" "" (exn_msg e) (-1))
    end :: execute_on_servers r servers command.
Proof.
  unfold execute_on_servers, execute_on_server. simpl. f_equal.
  by destruct (run_command r server command default_timeout).
Qed.

Lemma execute_on_servers_ids r servers command :
  map sr_server_id (execute_on_servers r servers command) = map server_id servers.
Proof.
  induction servers as [|server servers IH]; [done|].
  rewrite execute_on_servers_cons.
  destruct (run_command_returns r server command default_timeout) as (res & Hres).
  rewrite Hres. simpl. by rewrite IH.
Qed.

(** X5.  [execute_on_servers] gives one result for each server, in the
    order of the servers, labelled with the identifier and the host name
    of that server; the result is the dict that [run_command] returned for
    that server with the default timeout, so that the branch for an
    exception gathered from a server is never taken. *)
Theorem execute_on_servers_one_result_per_server
    (r : Remote) (servers : list Server) (command : string) :
  map sr_server_id (execute_on_servers r servers command) = map server_id servers /\
  map sr_hostname (execute_on_servers r servers command) = map hostname servers /\
  Forall2 (fun server res =>
             run_command r server command default_timeout = Returns (sr_result res))
          servers (execute_on_servers r servers command).
Proof.
  induction servers as [|server servers (IH1 & IH2 & IH3)].
  - repeat split; constructor.
  - rewrite execute_on_servers_cons.
    destruct (run_command_returns r server command default_timeout) as (res & Hres).
    rewrite Hres. simpl. rewrite IH1, IH2. repeat split. by constructor.
Qed.

(** The inner loop adds one row for each result, in order, and leaves the
    other tables alone. *)
Lemma process_results_rows ai execution_id command rs : forall p,
  let p' := foldl (process_result ai execution_id command) p rs in
  results (store p') = results (store p) ++ map (result_row ai execution_id command) rs /\
  runbooks (store p') = runbooks (store p) /\
  runbook_servers (store p') = runbook_servers (store p) /\
  runbook_commands (store p') = runbook_commands (store p).
Proof.
  induction rs as [|res rs IH]; intros p; simpl.
  - by rewrite app_nil_r.
  - destruct (IH (process_result ai execution_id command p res)) as (H1 & H2 & H3 & H4).
    rewrite H1, H2, H3, H4. simpl. by rewrite <- app_assoc.
Qed.

Lemma process_commands_rows r ai execution_id servers commands : forall p,
  let p' := foldl (process_command r ai execution_id servers) p commands in
  results (store p') = results (store p) ++ rows_of r ai execution_id servers commands /\
  runbooks (store p') = runbooks (store p) /\
  runbook_servers (store p') = runbook_servers (store p) /\
  runbook_commands (store p') = runbook_commands (store p).
Proof.
  induction commands as [|c commands IH]; intros p; simpl.
  - by rewrite app_nil_r.
  - destruct (IH (process_command r ai execution_id servers p c)) as (H1 & H2 & H3 & H4).
    destruct (process_results_rows ai execution_id c
                (execute_on_servers r (target_servers servers c) (script c)) p)
      as (H1' & H2' & H3' & H4').
    unfold process_command in *. rewrite H1, H2, H3, H4, H1', H2', H3', H4'.
    unfold rows_of. simpl. by rewrite <- app_assoc.
Qed.

(** The rows of [execute_runbook] when the runbook has servers and
    commands. *)
Lemma execute_runbook_results r ai st runbook_id execution_id servers commands :
  runbook_id ∈ runbooks st ->
  runbook_servers st !! runbook_id = Some servers -> servers <> [] ->
  runbook_commands st !! runbook_id = Some commands -> commands <> [] ->
  results (execute_runbook r ai st runbook_id execution_id)
    = results st ++ rows_of r ai execution_id servers commands.
Proof.
  intros Hrb Hs Hsne Hc Hcne. unfold execute_runbook. simpl.
  rewrite bool_decide_eq_true_2 by done. simpl. rewrite Hs, Hc. simpl.
  destruct servers as [|srv servers]; [done|].
  destruct commands as [|c commands]; [done|].
  set (p0 := Progress true false (update_status st execution_id RUNNING)).
  destruct (process_commands_rows r ai execution_id (srv :: servers) (c :: commands) p0)
    as (H1 & _). simpl in H1. simpl. exact H1.
Qed.

(** X6.  For a runbook with servers and commands, [execute_runbook] only
    adds rows to the table of results: the rows that were there stay as
    they are, in front, and one row follows for each command and each
    server the command targets, command after command in the order of the
    runbook and server after server within a command.  Each new row
    carries the identifier of the execution, and its status is SUCCESS
    exactly when the result of that command on that server has status
    "SUCCESS", and FAILED otherwise. *)
Theorem execute_runbook_rows
    (r : Remote) (ai : string -> string -> outcome pydict) (st : Store)
    (runbook_id execution_id : Z) (servers : list Server) (commands : list Command) :
  runbook_id ∈ runbooks st ->
  runbook_servers st !! runbook_id = Some servers -> servers <> [] ->
  runbook_commands st !! runbook_id = Some commands -> commands <> [] ->
  exists rows,
    results (execute_runbook r ai st runbook_id execution_id) = results st ++ rows /\
    map (fun row => (er_command_id row, er_server_id row)) rows =
      flat_map (fun c => map (fun s => (command_id c, server_id s))
                             (target_servers servers c)) commands /\
    Forall (fun row => er_execution_id row = execution_id) rows /\
    map er_status rows =
      map (fun res => if succeeded res then SUCCESS else FAILED)
          (all_results r servers commands).
Proof.
  intros Hrb Hs Hsne Hc Hcne.
  exists (rows_of r ai execution_id servers commands).
  split; [by apply execute_runbook_results|].
  unfold rows_of, all_results. clear Hc Hcne. split; [|split].
  - induction commands as [|c commands IH]; simpl; [done|].
    rewrite map_app, IH. f_equal. rewrite map_map. simpl.
    rewrite <- (map_map sr_server_id (fun i => (command_id c, i))).
    rewrite (execute_on_servers_ids r (target_servers servers c) (script c)).
    by rewrite map_map.
  - induction commands as [|c commands IH]; simpl; [constructor|].
    apply Forall_app. split; [|done]. apply Forall_map. by apply Forall_true.
  - induction commands as [|c commands IH]; simpl; [done|].
    rewrite !map_app, IH. f_equal. by rewrite map_map.
Qed.

Lemma execute_runbook_rows_witness :
  exists rows,
    results (execute_runbook Examples.r_mixed Examples.ai_down Examples.store_mixed 1 5)
      = results Examples.store_mixed ++ rows /\
    map (fun row => (er_command_id row, er_server_id row)) rows =
      flat_map (fun c => map (fun s => (command_id c, server_id s))
                             (target_servers
                                [Examples.server 1 "10.0.0.1"; Examples.server 2 "10.0.0.2"] c))
               [Examples.check_disk] /\
    Forall (fun row => er_execution_id row = 5) rows /\
    map er_status rows =
      map (fun res => if succeeded res then SUCCESS else FAILED)
          (all_results Examples.r_mixed
             [Examples.server 1 "10.0.0.1"; Examples.server 2 "10.0.0.2"]
             [Examples.check_disk]).
Proof.
  apply (execute_runbook_rows Examples.r_mixed Examples.ai_down Examples.store_mixed 1 5
           [Examples.server 1 "10.0.0.1"; Examples.server 2 "10.0.0.2"]
           [Examples.check_disk]).
  - vm_compute. reflexivity.
  - reflexivity.
  - discriminate.
  - reflexivity.
  - discriminate.
Defined.

(** X7.  [execute_runbook] gives up before any command is run when the
    runbook is not there, when it has no server, or when it has no
    command: no row is added to the table of results, the execution, when
    it is in the table, ends with status FAILED, and no other execution
    is touched. *)
Theorem execute_runbook_rejects_empty
    (r : Remote) (ai : string -> string -> outcome pydict) (st : Store)
    (runbook_id execution_id : Z) :
  runbook_id ∉ runbooks st \/
  default [] (runbook_servers st !! runbook_id) = [] \/
  default [] (runbook_commands st !! runbook_id) = [] ->
  let st' := execute_runbook r ai st runbook_id execution_id in
  results st' = results st /\
  executions st' !! execution_id = (fun _ => FAILED) <$> executions st !! execution_id /\
  (forall other, other <> execution_id ->
                 executions st' !! other = executions st !! other).
Proof.
  intros H.
  assert (Hst : execute_runbook r ai st runbook_id execution_id =
                update_status (update_status st execution_id RUNNING) execution_id FAILED).
  { unfold execute_runbook. simpl.
    destruct (bool_decide (runbook_id ∈ runbooks st)) eqn:Hin; simpl; [|done].
    apply bool_decide_eq_true in Hin.
    destruct H as [H|[H|H]]; [done| |].
    - by rewrite H.
    - rewrite H. by destruct (default [] (runbook_servers st !! runbook_id)). }
  simpl. rewrite Hst. simpl. split; [done|]. split.
  - rewrite !lookup_alter_eq. by destruct (executions st !! execution_id).
  - intros other Hne. by rewrite !lookup_alter_ne.
Qed.

Lemma execute_runbook_rejects_empty_witness :
  let st' := execute_runbook Examples.r_mixed Examples.ai_down Examples.store_mixed 2 5 in
  results st' = results Examples.store_mixed /\
  executions st' !! 5 = (fun _ => FAILED) <$> executions Examples.store_mixed !! 5 /\
  (forall other, other <> 5 ->
                 executions st' !! other = executions Examples.store_mixed !! other).
Proof.
  apply (execute_runbook_rejects_empty Examples.r_mixed Examples.ai_down
           Examples.store_mixed 2 5).
  left. vm_compute. intros H. discriminate H.
Defined.

(** X8.  A runbook whose commands are all bound to servers that are not
    among its servers runs nothing and still succeeds: no row is added to
    the table of results, and the execution ends with status SUCCESS. *)
Theorem execute_runbook_vacuous_success
    (r : Remote) (ai : string -> string -> outcome pydict) (st : Store)
    (runbook_id execution_id : Z) (servers : list Server) (commands : list Command)
    (old : ExecutionStatus) :
  runbook_id ∈ runbooks st ->
  runbook_servers st !! runbook_id = Some servers -> servers <> [] ->
  runbook_commands st !! runbook_id = Some commands -> commands <> [] ->
  executions st !! execution_id = Some old ->
  Forall (fun c => is_universal c = false /\
                   Forall (fun s => command_server_id c <> Some (server_id s)) servers)
         commands ->
  let st' := execute_runbook r ai st runbook_id execution_id in
  results st' = results st /\ executions st' !! execution_id = Some SUCCESS.
Proof.
  intros Hrb Hs Hsne Hc Hcne Hold Hnone.
  assert (Htarget : Forall (fun c => target_servers servers c = []) commands).
  { eapply Forall_impl; [exact Hnone|]. simpl. intros c [Hu Hf].
    unfold target_servers. rewrite Hu. clear -Hf.
    induction Hf as [|s servers Hs _ IH]; [done|].
    rewrite filter_cons. by rewrite decide_False. }
  simpl. split.
  - rewrite (execute_runbook_results _ _ _ _ _ servers commands) by done.
    assert (rows_of r ai execution_id servers commands = []) as ->; [|by rewrite app_nil_r].
    unfold rows_of. clear -Htarget.
    induction Htarget as [|c commands Hc _ IH]; simpl; [done|]. by rewrite Hc, IH.
  - rewrite (execute_runbook_status _ _ _ _ _ servers commands old) by done.
    assert (all_results r servers commands = []) as ->; [|done].
    unfold all_results. clear -Htarget.
    induction Htarget as [|c commands Hc _ IH]; simpl; [done|]. by rewrite Hc, IH.
Qed.

Lemma execute_runbook_vacuous_success_witness :
  results (execute_runbook Examples.r_mixed Examples.ai_down RunbookSamples.store_unbound 1 5) = results RunbookSamples.store_unbound /\
  executions (execute_runbook Examples.r_mixed Examples.ai_down RunbookSamples.store_unbound 1 5) !! 5 = Some SUCCESS.
Proof.
  apply (execute_runbook_vacuous_success Examples.r_mixed Examples.ai_down RunbookSamples.store_unbound 1 5
           [Examples.server 1 "10.0.0.1"] [RunbookSamples.bound_elsewhere] PENDING).
  - vm_compute. reflexivity.
  - reflexivity.
  - discriminate.
  - reflexivity.
  - discriminate.
  - reflexivity.
  - repeat constructor; simpl; discriminate.
Defined.

(** X9.  The AI engine is asked only about a result that succeeded with
    some output: among the rows that [execute_runbook] adds, a row whose
    status is FAILED or whose standard output is empty has no summary and
    empty lists of signals and resources, whatever the engine would have
    answered. *)
Theorem execute_runbook_analysis_needs_output
    (r : Remote) (ai : string -> string -> outcome pydict) (st : Store)
    (runbook_id execution_id : Z) (servers : list Server) (commands : list Command) :
  runbook_id ∈ runbooks st ->
  runbook_servers st !! runbook_id = Some servers -> servers <> [] ->
  runbook_commands st !! runbook_id = Some commands -> commands <> [] ->
  exists rows,
    results (execute_runbook r ai st runbook_id execution_id) = results st ++ rows /\
    Forall (fun row =>
              er_status row = FAILED \/ er_stdout row = "" ->
              er_ai_summary row = PNone /\ er_ai_signals row = PList [] /\
              er_ai_resources row = PList [])
           rows.
Proof.
  intros Hrb Hs Hsne Hc Hcne.
  exists (rows_of r ai execution_id servers commands).
  split; [by apply execute_runbook_results|].
  unfold rows_of. clear.
  induction commands as [|c commands IH]; simpl; [constructor|].
  apply Forall_app. split; [|done]. apply Forall_map. apply Forall_true.
  intros res. unfold result_row, ai_analysis_of. simpl.
  destruct (String.eqb_spec (status (sr_result res)) "SUCCESS") as [Hok|Hko]; simpl.
  - intros [?|Hout]; [done|]. by rewrite Hout.
  - done.
Qed.

Lemma execute_runbook_analysis_needs_output_witness :
  exists rows,
    results (execute_runbook Examples.r_mixed Examples.ai_down Examples.store_mixed 1 5)
      = results Examples.store_mixed ++ rows /\
    Forall (fun row =>
              er_status row = FAILED \/ er_stdout row = "" ->
              er_ai_summary row = PNone /\ er_ai_signals row = PList [] /\
              er_ai_resources row = PList [])
           rows.
Proof.
  apply (execute_runbook_analysis_needs_output Examples.r_mixed Examples.ai_down
           Examples.store_mixed 1 5
           [Examples.server 1 "10.0.0.1"; Examples.server 2 "10.0.0.2"]
           [Examples.check_disk]).
  - vm_compute. reflexivity.
  - reflexivity.
  - discriminate.
  - reflexivity.
  - discriminate.
Defined.

(** The table of executions after [execute_runbook]: the status of the
    execution is set, when it is there, to one of the three statuses that
    end an execution, and nothing else changes. *)
Lemma execute_runbook_executions r ai st runbook_id execution_id :
  exists final,
    (final = SUCCESS \/ final = FAILED \/ final = PARTIAL) /\
    executions (execute_runbook r ai st runbook_id execution_id)
      = alter (fun _ => final) execution_id (executions st).
Proof.
  assert (Htwice : forall a b (m : gmap Z ExecutionStatus),
             alter (fun _ => b) execution_id (alter (fun _ => a) execution_id m)
             = alter (fun _ => b) execution_id m).
  { intros a b m. apply map_eq. intros i. destruct (decide (i = execution_id)) as [->|Hne].
    - rewrite !lookup_alter_eq. by destruct (m !! execution_id).
    - by rewrite !lookup_alter_ne. }
  unfold execute_runbook. simpl.
  destruct (bool_decide (runbook_id ∈ runbooks st)); simpl.
  2: { exists FAILED. split; [tauto|]. apply Htwice. }
  destruct (default [] (runbook_servers st !! runbook_id)) as [|srv servers] eqn:Hs.
  { exists FAILED. split; [tauto|]. apply Htwice. }
  destruct (default [] (runbook_commands st !! runbook_id)) as [|c commands] eqn:Hc.
  { exists FAILED. split; [tauto|]. apply Htwice. }
  set (p0 := Progress true false (update_status st execution_id RUNNING)).
  destruct (process_commands_flags r ai execution_id (srv :: servers) (c :: commands) p0)
    as (_ & _ & He). simpl in He.
  exists (final_status (foldl (process_command r ai execution_id (srv :: servers)) p0
                          (c :: commands))).
  split.
  - unfold final_status. destruct (all_success _); [tauto|]. destruct (any_success _); tauto.
  - simpl. rewrite He. apply Htwice.
Qed.

(** X10.  An execution started by the scheduler or by the execute endpoint
    always ends.  When the runbook is not there, nothing is recorded (and
    the endpoint answers 404).  Otherwise a new execution record is
    created under an identifier that was not in use, and once
    [execute_runbook] is over its status is SUCCESS, FAILED or PARTIAL,
    never PENDING or RUNNING, while the status of every other execution
    is what it was. *)
Theorem started_execution_ends
    (r : Remote) (ai : string -> string -> outcome pydict) (st : Store) (runbook_id : Z) :
  let id := fresh (dom (executions st)) in
  let st' := Scheduler.execute_runbook_job r ai st runbook_id in
  (runbook_id ∉ runbooks st ->
   st' = st /\ Api.execute_runbook_endpoint r ai st runbook_id = None) /\
  (runbook_id ∈ runbooks st ->
   Api.execute_runbook_endpoint r ai st runbook_id = Some (id, st') /\
   executions st !! id = None /\
   (executions st' !! id = Some SUCCESS \/ executions st' !! id = Some FAILED \/
    executions st' !! id = Some PARTIAL) /\
   (forall other, other <> id -> executions st' !! other = executions st !! other)).
Proof.
  simpl. unfold Scheduler.execute_runbook_job, Api.execute_runbook_endpoint. split.
  - intros Hnot. by rewrite bool_decide_eq_false_2.
  - intros Hin. rewrite bool_decide_eq_true_2 by done. simpl.
    split; [done|]. split.
    { apply not_elem_of_dom. apply is_fresh. }
    set (id := fresh (dom (executions st))).
    set (st1 := {| runbooks := runbooks st; runbook_servers := runbook_servers st;
                   runbook_commands := runbook_commands st;
                   executions := <[id := PENDING]> (executions st);
                   results := results st |}).
    destruct (execute_runbook_executions r ai st1 runbook_id id) as (final & Hfinal & He).
    rewrite He. simpl. split.
    + rewrite lookup_alter_eq, lookup_insert_eq. simpl.
      destruct Hfinal as [-> | [-> | ->]]; tauto.
    + intros other Hne. by rewrite lookup_alter_ne, lookup_insert_ne.
Qed.

(** X11.  [execute_command_on_server] never raises, and its result has
    status "SUCCESS" exactly when the connection was opened and the
    command completed within 60 seconds with exit status 0.  A command
    that does not complete within the 60 seconds gives status "FAILED",
    exit code -1 and an empty standard error: the time-out is reported
    with the text of [asyncio.TimeoutError], which is empty. *)
Theorem execute_command_on_server_result
    (h : Host) (hostname username credential command : string) (port : Z)
    (auth_type : string) :
  let res := execute_command_on_server h hostname username credential command port
               auth_type in
  (status res = "SUCCESS" <->
   exists opts t p,
     sync_connect_options h hostname username credential port auth_type = Returns opts /\
     ssh_connect h opts = Returns () /\
     conn_run h opts command = Completes t p /\ t < 60 /\ exit_status p = 0) /\
  (forall opts,
     sync_connect_options h hostname username credential port auth_type = Returns opts ->
     ssh_connect h opts = Returns () ->
     (conn_run h opts command = Hangs \/
      (exists t p, conn_run h opts command = Completes t p /\ 60 <= t) \/
      (exists t e, conn_run h opts command = Fails t e /\ 60 <= t)) ->
     res = CommandResult "FAILED" "" "" (-1)) /\
  (status res = "SUCCESS" \/ status res = "FAILED").
Proof.
  simpl. unfold execute_command_on_server, sync_run_try, sync_timeout.
  destruct (sync_connect_options h hostname username credential port auth_type)
    as [opts|e] eqn:Ho; simpl.
  2: { split; [|split; [done|tauto]]. split; [done|]. by intros (? & ? & ? & ? & _). }
  destruct (ssh_connect h opts) as [[]|e] eqn:Hc; simpl.
  2: { split; [|split; [|tauto]].
       - split; [done|]. intros (o & ? & ? & Heq & Hc' & _). injection Heq as <-.
         congruence.
       - intros o Heq. injection Heq as <-. congruence. }
  assert (Hopts : forall o, Returns opts = Returns o -> o = opts) by (by intros o [= ->]).
  destruct (conn_run h opts command) as [t p|t e|] eqn:Hr; simpl.
  - destruct (Z.ltb_spec t 60) as [Hlt|Hge]; simpl.
    + split; [|split].
      * destruct (Z.eqb_spec (exit_status p) 0) as [Hz|Hnz]; simpl.
        -- split; [|done]. intros _. by exists opts, t, p.
        -- split; [done|]. intros (o & t' & p' & Heq & _ & Hr' & _ & Hz).
           apply Hopts in Heq as ->. rewrite Hr in Hr'. by simplify_eq.
      * intros o Heq _ Hlate. apply Hopts in Heq as ->. rewrite Hr in Hlate.
        destruct Hlate as [?|[(t' & p' & Hr' & ?)|(t' & e' & Hr' & _)]]; simplify_eq. lia.
      * destruct (exit_status p =? 0); tauto.
    + split; [|split; [done|tauto]]. split; [done|].
      intros (o & t' & p' & Heq & _ & Hr' & ? & _).
      apply Hopts in Heq as ->. rewrite Hr in Hr'. simplify_eq. lia.
  - destruct (Z.ltb_spec t 60) as [Hlt|Hge]; simpl.
    + split; [|split; [|tauto]].
      * split; [done|]. intros (o & t' & p' & Heq & _ & Hr' & _).
        apply Hopts in Heq as ->. rewrite Hr in Hr'. done.
      * intros o Heq _ Hlate. apply Hopts in Heq as ->. rewrite Hr in Hlate.
        destruct Hlate as [?|[(t' & p' & Hr' & ?)|(t' & e' & Hr' & ?)]]; simplify_eq. lia.
    + split; [|split; [done|tauto]]. split; [done|].
      intros (o & t' & p' & Heq & _ & Hr' & _).
      apply Hopts in Heq as ->. rewrite Hr in Hr'. done.
  - split; [|split; [done|tauto]]. split; [done|].
    intros (o & t' & p' & Heq & _ & Hr' & _).
    apply Hopts in Heq as ->. rewrite Hr in Hr'. done.
Qed.

End RunbookRowFacts.

(** ** [scheduler.py] and the schedule endpoints of [api.py] *)

Module SchedulerFacts.

Import Scheduler Api.

(** *** Job identifiers *)

Lemma job_id_of_inj a b : job_id_of a = job_id_of b -> a = b.
Proof.
  unfold job_id_of. intros H. simpl in H. injection H as H.
  change ("" +:+ Py.str_int a) with (Py.str_int a) in H.
  change ("" +:+ Py.str_int b) with (Py.str_int b) in H.
  by apply (inj pretty) in H.
Qed.

(** The decimal digits that [pretty] writes in front of [s]. *)
Lemma pretty_N_go_digits x : forall s,
  exists d,
    pretty_N_go x s = d +:+ s /\
    Spec.all_digits d = true /\
    ((0 < x)%N -> d <> "") /\
    (forall acc rest,
        exists k, PyText.digits_value acc (d +:+ rest)
                  = PyText.digits_value (acc * 10 ^ k + x) rest).
Proof.
  induction (N.lt_wf_0 x) as [x _ IH]. intros s.
  destruct (decide (x = 0)%N) as [->|Hpos].
  - exists "". rewrite pretty_N_go_0. repeat split; [lia|].
    intros acc rest. exists 0%N. simpl. f_equal. lia.
  - rewrite pretty_N_go_step by lia.
    destruct (IH (x `div` 10)%N ltac:(apply N.div_lt; lia)
                 (String (pretty_N_char (x `mod` 10)) s)) as (d & Hd & Hall & _ & Hval).
    assert (Hm : (x `mod` 10 < 10)%N) by (apply N.mod_lt; lia).
    assert (Hchar : Py.is_digit (pretty_N_char (x `mod` 10)) = true /\
                    (N_of_ascii (pretty_N_char (x `mod` 10)) - 48 = x `mod` 10)%N).
    { clear -Hm. set (m := (x `mod` 10)%N) in *. clearbody m.
      assert (m = 0 \/ m = 1 \/ m = 2 \/ m = 3 \/ m = 4 \/ m = 5 \/ m = 6 \/ m = 7 \/
              m = 8 \/ m = 9)%N as Hcases by lia.
      repeat (destruct Hcases as [->|Hcases]; [by vm_compute|]). by subst. }
    destruct Hchar as [Hdig Hnum].
    exists (d +:+ String (pretty_N_char (x `mod` 10)) "").
    rewrite Hd. split; [|split; [|split]].
    + by rewrite RegexFacts.append_assoc.
    + clear -Hall Hdig. induction d as [|c d IH]; simpl in *.
      * by rewrite Hdig.
      * apply andb_true_iff in Hall as [-> Hall]. simpl. by apply IH.
    + intros _. by destruct d.
    + intros acc rest. destruct (Hval acc (String (pretty_N_char (x `mod` 10)) rest))
        as (k & Hk).
      exists (k + 1)%N. rewrite RegexFacts.append_assoc, RegexFacts.append_cons.
      change ("" +:+ rest) with rest.
      rewrite Hk. simpl. rewrite Hdig, Hnum. f_equal.
      rewrite N.pow_add_r, N.pow_1_r.
      pose proof (N.div_mod x 10 ltac:(lia)). lia.
Qed.

Lemma digits_value_pretty (p : positive) :
  exists d, pretty (Npos p) = d /\ d <> "" /\ Spec.all_digits d = true /\
            PyText.digits_value 0 d = Some (Npos p).
Proof.
  destruct (pretty_N_go_digits (Npos p) "") as (d & Hd & Hall & Hne & Hval).
  exists d. rewrite RegexFacts.append_nil_r in Hd.
  split; [by unfold pretty, pretty_N; rewrite decide_False by done|].
  split; [apply Hne; lia|]. split; [done|].
  destruct (Hval 0%N "") as (k & Hk). rewrite RegexFacts.append_nil_r in Hk.
  rewrite Hk. simpl. f_equal.
Qed.

(** [int(str(n))] is [n]. *)
Lemma parse_int_pretty (n : Z) : PyText.parse_int (Py.str_int n) = Some n.
Proof.
  unfold Py.str_int, pretty, pretty_Z. destruct n as [|p|p].
  - done.
  - destruct (digits_value_pretty p) as (d & Hd & Hne & Hall & Hval).
    change (pretty p) with (pretty (Npos p)). rewrite Hd.
    destruct d as [|c d]; [done|]. simpl in Hall.
    apply andb_true_iff in Hall as [Hc Hall].
    unfold PyText.parse_int.
    assert (Ascii.eqb c "-" = false) as ->.
    { destruct (Ascii.eqb_spec c "-") as [->|]; [by vm_compute in Hc|done]. }
    assert (Ascii.eqb c "+" = false) as ->.
    { destruct (Ascii.eqb_spec c "+") as [->|]; [by vm_compute in Hc|done]. }
    by rewrite Hval.
  - destruct (digits_value_pretty p) as (d & Hd & Hne & Hall & Hval).
    change (pretty p) with (pretty (Npos p)). rewrite Hd.
    rewrite RegexFacts.append_cons. change ("" +:+ d) with d.
    unfold PyText.parse_int. simpl. destruct d as [|c d]; [done|]. by rewrite Hval.
Qed.

(** A text without the first character of [old] has no occurrence of
    [old] to replace. *)
Lemma replace_go_absent c old new s :
  Py.has_char c s = false ->
  PyText.replace_go (String c old) new O s = s.
Proof.
  induction s as [|a s IH]; simpl; [done|].
  intros H. apply orb_false_iff in H as [Ha Hs].
  rewrite Ha. simpl. by rewrite IH.
Qed.

Lemma has_char_digits c d :
  Py.is_digit c = false -> Spec.all_digits d = true -> Py.has_char c d = false.
Proof.
  intros Hc. induction d as [|a d IH]; simpl; [done|].
  intros H. apply andb_true_iff in H as [Ha Hd]. rewrite IH by done.
  destruct (Ascii.eqb_spec c a) as [->|]; [congruence|done].
Qed.

Lemma has_char_pretty c (n : Z) :
  Py.is_digit c = false -> c <> "-"%char -> Py.has_char c (Py.str_int n) = false.
Proof.
  intros Hc Hdash. unfold Py.str_int, pretty, pretty_Z. destruct n as [|p|p].
  - simpl. destruct (Ascii.eqb_spec c "0") as [->|]; [by vm_compute in Hc|done].
  - destruct (digits_value_pretty p) as (d & Hd & _ & Hall & _).
    change (pretty p) with (pretty (Npos p)). rewrite Hd. by apply has_char_digits.
  - destruct (digits_value_pretty p) as (d & Hd & _ & Hall & _).
    change (pretty p) with (pretty (Npos p)). rewrite Hd.
    rewrite RegexFacts.append_cons. change ("" +:+ d) with d. simpl.
    rewrite has_char_digits by done.
    destruct (Ascii.eqb_spec c "-"); done.
Qed.

(** X12.  The identifier under which a runbook is scheduled names that
    runbook and no other: two runbooks never share a job identifier, and
    the entry that [get_scheduled_jobs] builds for the job of a runbook
    gets the number of that runbook back out of the identifier. *)
Theorem job_id_round_trip (runbook_id : Z) :
  job_entry_of (job_id_of runbook_id) = Some (JobEntry (job_id_of runbook_id) runbook_id) /\
  (forall other, job_id_of other = job_id_of runbook_id -> other = runbook_id).
Proof.
  split; [|intros other; apply job_id_of_inj].
  unfold job_entry_of, job_id_of, PyText.replace. simpl.
  rewrite replace_go_absent by (by apply has_char_pretty).
  change ("" +:+ "" +:+ Py.str_int runbook_id) with (Py.str_int runbook_id).
  by rewrite parse_int_pretty.
Qed.

(** *** Scheduling *)

(** What [schedule_runbook] does to the job store. *)
Lemma schedule_runbook_store ok err store runbook_id kind cron run_at :
  let '(store', res) := schedule_runbook ok err store runbook_id kind cron run_at in
  match res with
  | Scheduled job_id =>
      job_id = job_id_of runbook_id /\
      exists tr, store' = <[job_id_of runbook_id := Job runbook_id tr]>
                            (delete (job_id_of runbook_id) store)
  | ValueError _ => store' = delete (job_id_of runbook_id) store
  end.
Proof.
  unfold schedule_runbook.
  destruct (String.eqb kind "cron").
  - destruct cron as [[|c e]|]; [done| |done].
    destruct (PyText.split_ws (String c e)) as [|p1 [|p2 [|p3 [|p4 [|p5 [|p6 l]]]]]];
      try done.
    destruct (ok _); [|done]. split; [done|]. eauto.
  - destruct (String.eqb kind "once"); [|done].
    destruct run_at; [|done]. split; [done|]. eauto.
Qed.

(** X13.  A request to schedule a runbook that is turned down with
    status 400 (no cron expression, a cron expression that does not have
    five fields or that [CronTrigger] refuses, no date for a one-time
    schedule) has already removed the job the runbook had: afterwards the
    runbook has no job, while its schedule columns, that is whether it is
    marked as scheduled, are what they were, and the jobs of the other
    runbooks are untouched. *)
Theorem rejected_schedule_removes_job
    (ok : list string -> bool) (err : list string -> string)
    (s s' : state) (runbook_id : Z) (kind : ScheduleType)
    (cron : option string) (run_at : option Z) (msg : string) :
  schedule_runbook_endpoint ok err s runbook_id kind cron run_at
    = (s', HTTPException 400 msg) ->
  job_store s' !! job_id_of runbook_id = None /\
  runbook_table s' = runbook_table s /\
  (forall other, other <> runbook_id ->
                 job_store s' !! job_id_of other = job_store s !! job_id_of other).
Proof.
  unfold schedule_runbook_endpoint.
  destruct (runbook_table s !! runbook_id) as [cols|]; [|done].
  pose proof (schedule_runbook_store ok err (job_store s) runbook_id
                (schedule_type_value kind) cron run_at) as Hstore.
  destruct (schedule_runbook ok err (job_store s) runbook_id
              (schedule_type_value kind) cron run_at) as [store [job_id|m]]; [done|].
  intros [= <- <-]. simpl. subst store. split; [|split; [done|]].
  - apply lookup_delete_eq.
  - intros other Hne. apply lookup_delete_ne. intros H. by apply job_id_of_inj in H.
Qed.

Lemma rejected_schedule_removes_job_witness :
  let s' := fst (schedule_runbook_endpoint RunbookSamples.accept_all RunbookSamples.no_error RunbookSamples.weekly 1 CRON (Some "0 0 *") None) in
  job_store s' !! job_id_of 1 = None /\
  runbook_table s' = runbook_table RunbookSamples.weekly /\
  (forall other, other <> 1 ->
                 job_store s' !! job_id_of other = job_store RunbookSamples.weekly !! job_id_of other).
Proof.
  apply (rejected_schedule_removes_job RunbookSamples.accept_all RunbookSamples.no_error RunbookSamples.weekly _ 1 CRON (Some "0 0 *") None
           "Invalid cron expression. Expected: minute hour day month day_of_week").
  vm_compute. reflexivity.
Defined.

(** X14.  Scheduling and unscheduling compose: a request that is
    answered "scheduled" leaves the runbook with exactly one job, under
    its own identifier and calling that runbook, marks it as scheduled
    with the type and the expression of the request, and leaves the jobs
    of the other runbooks alone; unscheduling it then removes the job,
    clears the mark and answers "unscheduled", and unscheduling it once
    more answers "not_scheduled". *)
Theorem schedule_then_unschedule
    (ok : list string -> bool) (err : list string -> string)
    (s s1 : state) (runbook_id : Z) (kind : ScheduleType)
    (cron : option string) (run_at : option Z) (status : string) (job_id : option string) :
  schedule_runbook_endpoint ok err s runbook_id kind cron run_at = (s1, Ok status job_id) ->
  status = "scheduled" /\ job_id = Some (job_id_of runbook_id) /\
  (exists tr, job_store s1 !! job_id_of runbook_id = Some (Job runbook_id tr)) /\
  runbook_table s1 !! runbook_id =
    Some {| is_scheduled := true; schedule_type := Some kind; cron_expression := cron |} /\
  (forall other, other <> runbook_id ->
                 job_store s1 !! job_id_of other = job_store s !! job_id_of other) /\
  exists s2 s3,
    unschedule_runbook_endpoint s1 runbook_id = (s2, Ok "unscheduled" None) /\
    job_store s2 !! job_id_of runbook_id = None /\
    runbook_table s2 !! runbook_id =
      Some {| is_scheduled := false; schedule_type := None; cron_expression := None |} /\
    unschedule_runbook_endpoint s2 runbook_id = (s3, Ok "not_scheduled" None).
Proof.
  unfold schedule_runbook_endpoint.
  destruct (runbook_table s !! runbook_id) as [cols|]; [|done].
  pose proof (schedule_runbook_store ok err (job_store s) runbook_id
                (schedule_type_value kind) cron run_at) as Hstore.
  destruct (schedule_runbook ok err (job_store s) runbook_id
              (schedule_type_value kind) cron run_at) as [store [j|m]]; [|done].
  destruct Hstore as (-> & tr & ->). intros [= <- <- <-].
  split; [done|]. split; [done|]. cbn [job_store runbook_table].
  split; [exists tr; apply lookup_insert_eq|].
  split; [apply lookup_insert_eq|].
  split.
  { intros other Hne.
    assert (job_id_of other <> job_id_of runbook_id) by (by intros ?%job_id_of_inj).
    by rewrite lookup_insert_ne, lookup_delete_ne. }
  unfold unschedule_runbook_endpoint, unschedule_runbook. cbn [job_store runbook_table].
  rewrite lookup_insert_eq. eexists _, _. split; [done|].
  cbn [job_store runbook_table]. rewrite lookup_delete_eq.
  split; [done|]. split; [|done].
  by rewrite lookup_alter_eq, lookup_insert_eq.
Qed.

Lemma schedule_then_unschedule_witness :
  let s1 := fst (schedule_runbook_endpoint RunbookSamples.accept_all RunbookSamples.no_error RunbookSamples.weekly 2 CRON
                   (Some "*/5 * * * *") None) in
  "scheduled" = "scheduled" /\ Some (job_id_of 2) = Some (job_id_of 2) /\
  (exists tr, job_store s1 !! job_id_of 2 = Some (Job 2 tr)) /\
  runbook_table s1 !! 2 =
    Some {| is_scheduled := true; schedule_type := Some CRON;
            cron_expression := Some "*/5 * * * *" |} /\
  (forall other, other <> 2 ->
                 job_store s1 !! job_id_of other = job_store RunbookSamples.weekly !! job_id_of other) /\
  exists s2 s3,
    unschedule_runbook_endpoint s1 2 = (s2, Ok "unscheduled" None) /\
    job_store s2 !! job_id_of 2 = None /\
    runbook_table s2 !! 2 =
      Some {| is_scheduled := false; schedule_type := None; cron_expression := None |} /\
    unschedule_runbook_endpoint s2 2 = (s3, Ok "not_scheduled" None).
Proof.
  apply (schedule_then_unschedule RunbookSamples.accept_all RunbookSamples.no_error RunbookSamples.weekly _ 2 CRON
           (Some "*/5 * * * *") None "scheduled" (Some (job_id_of 2))).
  vm_compute. reflexivity.
Defined.

End SchedulerFacts.

(** ** [chat_engine.py]: the Markdown fence around a reply *)

Module FenceFacts.

Import Regex ChatEngine RegexFacts.

Lemma run_zero k s : run k (Some O) s = O.
Proof. by destruct s. Qed.

(** The equations of the matcher. *)
Lemma match_lit a p st c s :
  match_here (Lit a :: p) st (String c s)
    = if Ascii.eqb a c then S <$> match_here p false s else None.
Proof. reflexivity. Qed.

Lemma match_bol p s : match_here (Bol :: p) true s = match_here p true s.
Proof. reflexivity. Qed.

Lemma match_eol p st s :
  match_here (Eol :: p) st s = if at_eol s then match_here p st s else None.
Proof. reflexivity. Qed.

Lemma match_rep k lo hi p st s :
  match_here (Rep k lo hi :: p) st s
    = give_back (fun n => match_here p (st && (n =? 0)%nat) (Py.drop n s)) lo (run k hi s).
Proof. reflexivity. Qed.

Lemma sub_go_cons p st c s :
  sub_go p O st (String c s)
    = match match_here p st (String c s) with
      | Some (S n) => sub_go p n false s
      | _ => String c (sub_go p O false s)
      end.
Proof. reflexivity. Qed.

(** Three literals do not match a text that does not start with them. *)
Lemma match_lits_mismatch a b d p st s :
  Py.startswith (String a (String b (String d ""))) s = false ->
  match_here (Lit a :: Lit b :: Lit d :: p) st s = None.
Proof.
  destruct s as [|x s]; [done|]. rewrite match_lit. cbn [Py.startswith].
  destruct (Ascii.eqb a x); [|done]. cbn [andb].
  destruct s as [|y s]; [done|]. rewrite match_lit.
  destruct (Ascii.eqb b y); [|done]. cbn [andb].
  destruct s as [|z s]; [done|]. rewrite match_lit.
  destruct (Ascii.eqb d z); [|done]. done.
Qed.

(** The closing pattern at a back quote: there is no white space to
    pass. *)
Lemma match_close_at_quote st rest :
  match_here fence_close st (String "`" rest)
    = match_here [Lit "`"; Lit "`"; Lit "`"; Eol] st (String "`" rest).
Proof.
  unfold fence_close. rewrite match_rep.
  assert (run Space None (String "`" rest) = O) as -> by reflexivity.
  cbn [give_back Nat.leb Py.drop Nat.eqb]. rewrite andb_true_r.
  by destruct (match_here _ st (String "`" rest)).
Qed.

(** What is left of a text once its leading white space is passed. *)
Lemma drop_run_space s : Py.drop (run Space None s) s = Py.lstrip s.
Proof.
  induction s as [|c s IH]; simpl; [done|].
  destruct (Py.is_space c); simpl; [exact IH|done].
Qed.

(** A pattern anchored at the start matches nowhere else. *)
Lemma sub_go_bol p s : sub_go (Bol :: p) O false s = s.
Proof. induction s as [|c s IH]; simpl; [done|]. by rewrite IH. Qed.

(** Passing over [k] characters. *)
Lemma sub_go_skip p : forall k s,
  (k <= String.length s)%nat -> sub_go p k false s = sub_go p O false (Py.drop k s).
Proof.
  induction k as [|k IH]; intros [|c s] Hk; simpl in *; try done; try lia.
  apply IH. lia.
Qed.

Lemma sub_go_skip_all p s : sub_go p (String.length s) false s = "".
Proof. induction s as [|c s IH]; simpl; done. Qed.

(** The opening fence and the white space after it are taken off. *)
Lemma sub_fence_open body :
  sub_empty fence_open ("```json" +:+ body) = Py.lstrip body.
Proof.
  unfold sub_empty. rewrite !append_cons. change ("" +:+ body) with body.
  cbn [sub_go].
  assert (Hm : match_here fence_open true
                 (String "`" (String "`" (String "`" (String "j" (String "s"
                    (String "o" (String "n" body)))))))
               = Some (7 + run Space None body)%nat).
  { unfold fence_open. simpl. rewrite run_zero. simpl.
    rewrite (give_back_first _ O (run Space None body) O) by (done || lia).
    simpl. by rewrite Nat.add_0_r. }
  rewrite Hm. simpl.
  pose proof (run_length Space body None) as Hlen.
  rewrite sub_go_skip by done. rewrite drop_run_space. apply sub_go_bol.
Qed.

(** A text is made of white space when nothing is left of it once the
    white space in front is taken off, and as well when nothing is left
    once the white space at the end is. *)
Lemma rstrip_empty_iff s : Py.rstrip s = "" <-> Py.lstrip s = "".
Proof.
  induction s as [|c s IH]; simpl; [done|].
  destruct (Py.is_space c) eqn:Hc.
  - rewrite <- IH. destruct (Py.rstrip s); done.
  - split; [|done]. destruct (Py.rstrip s); done.
Qed.

Lemma rstrip_cons c s :
  Py.lstrip (String c s) <> "" -> Py.rstrip (String c s) = String c (Py.rstrip s).
Proof.
  simpl. destruct (Py.rstrip s) as [|x r] eqn:Hr; [|done].
  apply rstrip_empty_iff in Hr. destruct (Py.is_space c); [by rewrite Hr|done].
Qed.

Lemma has_char_lstrip c s : Py.has_char c s = false -> Py.has_char c (Py.lstrip s) = false.
Proof.
  induction s as [|x s IH]; simpl; [done|]. intros H.
  apply orb_false_iff in H as [Hx Hs].
  destruct (Py.is_space x); [by apply IH|]. simpl. by rewrite Hx, Hs.
Qed.

Lemma lstrip_fence u : Py.lstrip (u +:+ "```") = Py.lstrip u +:+ "```".
Proof.
  induction u as [|c u IH]; [done|]. rewrite append_cons. simpl.
  destruct (Py.is_space c); [exact IH|]. by rewrite append_cons.
Qed.

Lemma run_space_fence u : run Space None (u +:+ "```") = run Space None u.
Proof.
  induction u as [|c u IH]; [done|]. rewrite append_cons. simpl.
  destruct (Py.is_space c); [by rewrite IH|done].
Qed.

Lemma run_space_all u : Py.lstrip u = "" -> run Space None u = String.length u.
Proof.
  induction u as [|c u IH]; simpl; [done|].
  destruct (Py.is_space c); [|done]. intros H. by rewrite IH.
Qed.

Lemma run_space_some u :
  Py.lstrip u <> "" -> (run Space None u < String.length u)%nat.
Proof.
  induction u as [|c u IH]; simpl; [done|].
  destruct (Py.is_space c); [|lia]. intros H. specialize (IH H). lia.
Qed.

Lemma drop_app_le n : forall u v,
  (n <= String.length u)%nat -> Py.drop n (u +:+ v) = Py.drop n u +:+ v.
Proof.
  induction n as [|n IH]; intros [|c u] v H; simpl in *; try done; try lia.
  apply IH. lia.
Qed.

Lemma drop_nonempty n : forall u, (n < String.length u)%nat -> Py.drop n u <> "".
Proof.
  induction n as [|n IH]; intros [|c u] H; simpl in *; try done; try lia.
  apply IH. lia.
Qed.

Lemma drop_has_char c n : forall u,
  Py.has_char c u = false -> Py.has_char c (Py.drop n u) = false.
Proof.
  induction n as [|n IH]; intros [|x u] H; simpl in *; try done.
  apply orb_false_iff in H as [_ H]. by apply IH.
Qed.

Lemma give_back_none rest lo : forall n,
  (forall n', (n' <= n)%nat -> rest n' = None) -> give_back rest lo n = None.
Proof.
  induction n as [|n IH]; intros H; simpl.
  - rewrite (H O) by lia. by destruct (lo <=? 0)%nat.
  - rewrite (H (S n)) by lia. destruct (lo <=? S n)%nat; apply IH; intros; apply H; lia.
Qed.

(** Where the closing pattern matches in a text that ends with the fence
    and has no other back quote: at the white space in front of the
    fence. *)
Lemma match_fence_close st u :
  Py.has_char "`" u = false ->
  match_here fence_close st (u +:+ "```")
    = if decide (Py.lstrip u = "") then Some (String.length u + 3)%nat else None.
Proof.
  intros Hu. unfold fence_close. cbn [match_here].
  rewrite run_space_fence.
  destruct (decide (Py.lstrip u = "")) as [Hall|Hsome].
  - rewrite run_space_all by done.
    apply give_back_first; [lia|].
    cbv beta. rewrite drop_app_le by done.
    assert (Py.drop (String.length u) u = "") as ->.
    { clear. induction u; simpl; done. }
    done.
  - apply give_back_none. intros n Hn.
    pose proof (run_space_some u Hsome) as Hlt.
    cbv beta. rewrite drop_app_le by lia.
    pose proof (drop_nonempty n u ltac:(lia)) as Hne.
    pose proof (drop_has_char "`" n u Hu) as Hc.
    destruct (Py.drop n u) as [|x r]; [done|]. rewrite append_cons.
    cbn [Py.has_char] in Hc. apply orb_false_iff in Hc as [-> _]. done.
Qed.

Lemma length_app_fence u : String.length (u +:+ "```") = (String.length u + 3)%nat.
Proof. induction u as [|c u IH]; [done|]. rewrite append_cons. simpl. by rewrite IH. Qed.

(** The closing fence and the white space in front of it are taken off. *)
Lemma sub_fence_close t : forall st,
  Py.has_char "`" t = false ->
  sub_go fence_close O st (t +:+ "```") = Py.rstrip t.
Proof.
  induction t as [|c t IH]; intros st Ht.
  - by destruct st.
  - pose proof (match_fence_close st (String c t) Ht) as Hm.
    rewrite append_cons in *. cbn [sub_go]. rewrite Hm.
    simpl in Ht. apply orb_false_iff in Ht as [Hc Ht].
    destruct (decide (Py.lstrip (String c t) = "")) as [Hall|Hsome].
    + change (String.length (String c t) + 3)%nat with (S (String.length t + 3)).
      cbn iota. rewrite <- length_app_fence, sub_go_skip_all.
      symmetry. by apply rstrip_empty_iff.
    + rewrite IH by done. symmetry. by apply rstrip_cons.
Qed.

(** X15.  A reply that the model wrapped in a fence opened with three
    back quotes and "json" and closed with three back quotes, with no
    other back quote in it, is unwrapped before it is handed to
    [json.loads]: what is left is the text between the two fences,
    without the white space around it. *)
Theorem strip_fence_unwraps_json (body : string) :
  Py.has_char "`" body = false ->
  strip_fence ("```json" +:+ body +:+ "```") = Py.strip body.
Proof.
  intros Hb. unfold strip_fence.
  assert (Py.startswith "```" ("```json" +:+ body +:+ "```") = true) as -> by done.
  rewrite sub_fence_open, lstrip_fence. unfold sub_empty.
  rewrite sub_fence_close by (by apply has_char_lstrip). done.
Qed.

Lemma strip_fence_unwraps_json_witness :
  strip_fence ("```json" +:+ (nl +:+ "{}" +:+ nl) +:+ "```") = Py.strip (nl +:+ "{}" +:+ nl).
Proof. apply (strip_fence_unwraps_json (nl +:+ "{}" +:+ nl)). reflexivity. Defined.

(** X16.  A reply wrapped in a bare fence, three back quotes with no
    "json" after them, keeps its opening fence: only the closing fence
    and the white space in front of it are taken off, so that the text
    handed to [json.loads] still starts with the three back quotes. *)
Theorem strip_fence_keeps_bare_fence (body : string) :
  body <> "" ->
  Py.has_char "`" body = false ->
  Py.startswith "jso" body = false ->
  strip_fence ("```" +:+ body +:+ "```") = "```" +:+ Py.rstrip body.
Proof.
  intros Hne Hb Hj. unfold strip_fence.
  assert (Py.startswith "```" ("```" +:+ body +:+ "```") = true) as -> by done.
  destruct body as [|c body]; [done|]. clear Hne.
  pose proof Hb as Hb'. cbn [Py.has_char] in Hb'. apply orb_false_iff in Hb' as [Hc _].
  rewrite !append_cons.
  change ("" +:+ String c (body +:+ "```")) with (String c (body +:+ "```")).
  assert (Hopen : sub_empty fence_open
                    (String "`" (String "`" (String "`" (String c (body +:+ "```")))))
                  = String "`" (String "`" (String "`" (String c (body +:+ "```"))))).
  { unfold sub_empty. rewrite sub_go_cons.
    assert (match_here fence_open true
              (String "`" (String "`" (String "`" (String c (body +:+ "```"))))) = None)
      as ->.
    { unfold fence_open. rewrite match_bol. do 3 rewrite match_lit.
      change (Ascii.eqb "`" "`") with true. cbn iota.
      rewrite match_lits_mismatch; [done|].
      cbn [Py.startswith] in *.
      destruct (Ascii.eqb "j" c); [|done]. cbn [andb] in *.
      destruct body as [|c2 body]; [done|]. rewrite append_cons.
      destruct (Ascii.eqb "s" c2); [|done]. cbn [andb] in *.
      destruct body as [|c3 body]; [done|]. rewrite append_cons.
      destruct (Ascii.eqb "o" c3); done. }
    f_equal. apply sub_go_bol. }
  rewrite Hopen. unfold sub_empty.
  assert (Hnot_eol : at_eol (String c (body +:+ "```")) = false).
  { cbn [at_eol]. by destruct body. }
  assert (Hquote : forall st rest,
            match_here [Lit "`"; Lit "`"; Lit "`"; Eol] st (String "`" rest) = None ->
            sub_go fence_close O st (String "`" rest)
              = String "`" (sub_go fence_close O false rest)).
  { intros st rest H. by rewrite sub_go_cons, match_close_at_quote, H. }
  rewrite Hquote.
  2: { rewrite !match_lit. change (Ascii.eqb "`" "`") with true. cbn iota.
       by rewrite match_eol, Hnot_eol. }
  rewrite Hquote.
  2: { rewrite !match_lit. change (Ascii.eqb "`" "`") with true. cbn iota.
       by rewrite Hc. }
  rewrite Hquote.
  2: { rewrite !match_lit. change (Ascii.eqb "`" "`") with true. cbn iota.
       by rewrite Hc. }
  rewrite <- (append_cons c body "```").
  by rewrite sub_fence_close.
Qed.

Lemma strip_fence_keeps_bare_fence_witness :
  strip_fence ("```" +:+ (nl +:+ "{}" +:+ nl) +:+ "```")
    = "```" +:+ Py.rstrip (nl +:+ "{}" +:+ nl).
Proof.
  apply (strip_fence_keeps_bare_fence (nl +:+ "{}" +:+ nl)); [discriminate|reflexivity..].
Defined.

End FenceFacts.

(** ** [chat_engine.py]: narratives and labelled addresses *)

Module ChatEngineMoreFacts.

Import Regex ChatEngine RegexFacts Spec Intent FenceFacts.

(** X17.  A step that is not one of the twelve names of the table comes
    back as it is, whatever the details are. *)
Theorem narrative_of_unknown_step (step : string) (details : option pydict) :
  step ∉ ["connecting"; "connected"; "executing"; "output_received"; "analyzing";
          "value_extracted"; "condition_checking"; "condition_met";
          "condition_not_met"; "incident_raised"; "completed"; "failed"] ->
  generate_execution_narrative step details = step.
Proof.
  intros H. unfold generate_execution_narrative.
  repeat (rewrite not_elem_of_cons in H; destruct H as [? H]).
  repeat (match goal with
          | |- context [String.eqb step ?k] =>
              destruct (String.eqb_spec step k); [done|]
          end).
  done.
Qed.

Lemma narrative_of_unknown_step_witness :
  generate_execution_narrative "rolled_back" None = "rolled_back".
Proof.
  apply (narrative_of_unknown_step "rolled_back" None).
  intros H. repeat (apply elem_of_cons in H as [H|H]; [discriminate H|]).
  by apply elem_of_nil in H.
Defined.

Lemma take_append a r : Py.take (String.length a) (a +:+ r) = a.
Proof.
  induction a as [|c a IH]; simpl; [by destruct r|]. by rewrite IH.
Qed.

Lemma ip_pattern_at_address st q rest :
  ipv4_shaped q ->
  match_here ip_pattern st ("(" +:+ q +:+ ")" +:+ rest) = Some (S (S (String.length q))).
Proof.
  intros Hq.
  assert (H : match_here ip_pattern false ("(" +:+ q +:+ ")" +:+ rest)
              = Some (S (S (String.length q)))).
  { apply ip_pattern_match. by exists q, rest. }
  by destruct st.
Qed.

Lemma ip_pattern_not_at c st s :
  Ascii.eqb "(" c = false -> match_here ip_pattern st (String c s) = None.
Proof. intros H. unfold ip_pattern. by rewrite match_lit, H. Qed.

(** The search passes a label without parenthesis, and finds the address
    behind it. *)
Lemma search_after_label label q rest : forall st off,
  Py.has_char "(" label = false -> ipv4_shaped q ->
  search_from ip_pattern st off (label +:+ "(" +:+ q +:+ ")" +:+ rest)
    = Some ((off + String.length label)%nat, S (S (String.length q))).
Proof.
  induction label as [|c label IH]; intros st off Hl Hq.
  - change ("" +:+ "(" +:+ q +:+ ")" +:+ rest) with ("(" +:+ q +:+ ")" +:+ rest).
    pose proof (ip_pattern_at_address st q rest Hq) as Hm.
    rewrite append_cons in *. cbn [search_from]. rewrite Hm. simpl. by rewrite Nat.add_0_r.
  - cbn [Py.has_char] in Hl. apply orb_false_iff in Hl as [Hc Hl].
    rewrite append_cons. cbn [search_from].
    rewrite ip_pattern_not_at by done. rewrite IH by done.
    simpl. do 2 f_equal. lia.
Qed.

(** The substitution keeps a label without parenthesis and removes the
    address behind it. *)
Lemma sub_after_label label q : forall st,
  Py.has_char "(" label = false -> ipv4_shaped q ->
  sub_go ip_pattern O st (label +:+ "(" +:+ q +:+ ")") = label.
Proof.
  induction label as [|c label IH]; intros st Hl Hq.
  - change ("" +:+ "(" +:+ q +:+ ")") with ("(" +:+ q +:+ ")").
    pose proof (ip_pattern_at_address st q "" Hq) as Hm.
    rewrite append_nil_r in Hm.
    rewrite append_cons in *. rewrite sub_go_cons, Hm.
    change ("" +:+ q +:+ ")") with (q +:+ ")").
    assert (S (String.length q) = String.length (q +:+ ")")) as ->.
    { rewrite length_append. simpl. lia. }
    apply sub_go_skip_all.
  - cbn [Py.has_char] in Hl. apply orb_false_iff in Hl as [Hc Hl].
    rewrite append_cons, sub_go_cons.
    rewrite ip_pattern_not_at by done. by rewrite IH.
Qed.

(** X18.  A name that is not a known node and is made of a label without
    parenthesis followed by an IPv4-shaped address between parentheses
    resolves to that address: the host name of the config is the address,
    and its name is the label without the white space around it, or the
    whole name when nothing is left of the label. *)
Theorem resolve_node_labelled_address
    (label q : string) (known : gmap string pydict) :
  known !! (label +:+ "(" +:+ q +:+ ")") = None ->
  Py.has_char "(" label = false ->
  ipv4_shaped q ->
  resolve_node (label +:+ "(" +:+ q +:+ ")") known =
    (true,
     Some [("name", PStr (if String.eqb (Py.strip label) ""
                          then label +:+ "(" +:+ q +:+ ")" else Py.strip label));
           ("hostname", PStr q);
           ("username", PStr "ubuntu");
           ("port", PInt 22)]).
Proof.
  intros Hk Hl Hq. unfold resolve_node. rewrite Hk. unfold search.
  pose proof (search_after_label label q "" true O Hl Hq) as Hs.
  rewrite append_nil_r in Hs. rewrite Hs.
  unfold sub_empty. rewrite sub_after_label by done.
  cbn [Nat.add Nat.sub].
  assert (Py.drop (S (String.length label)) (label +:+ "(" +:+ q +:+ ")") = q +:+ ")") as ->.
  { clear. induction label as [|c label IH]; [done|]. by rewrite append_cons. }
  replace (String.length q - 0)%nat with (String.length q) by lia.
  by rewrite take_append.
Qed.

Lemma resolve_node_labelled_address_witness :
  resolve_node ("web-1 " +:+ "(" +:+ "10.0.0.5" +:+ ")") ∅ =
    (true,
     Some [("name", PStr (if String.eqb (Py.strip "web-1 ") ""
                          then "web-1 " +:+ "(" +:+ "10.0.0.5" +:+ ")"
                          else Py.strip "web-1 "));
           ("hostname", PStr "10.0.0.5");
           ("username", PStr "ubuntu");
           ("port", PInt 22)]).
Proof.
  apply (resolve_node_labelled_address "web-1 " "10.0.0.5" ∅).
  - reflexivity.
  - reflexivity.
  - exists "10", "0", "0", "5". unfold octet_shaped. simpl. repeat split; lia.
Defined.

End ChatEngineMoreFacts.

(** ** [chat_api.py]: the chat endpoint, from the request to the rule *)

Module ChatFacts.

Import ChatEngine Intent Chat Samples.

(** [resolve_node] either resolves to a config or gives nothing. *)
Lemma resolve_node_cases name (known : gmap string pydict) :
  (exists cfg, resolve_node name known = (true, Some cfg)) \/
  resolve_node name known = (false, None).
Proof.
  unfold resolve_node. destruct (known !! name); [eauto|].
  destruct (Regex.search ip_pattern name) as [[off n]|]; [eauto|].
  destruct (Regex.matches direct_ip_pattern name); eauto.
Qed.

Lemma resolve_node_known_config name (known : gmap string pydict) cfg cfg' :
  known !! name = Some cfg -> resolve_node name known = (true, Some cfg') -> cfg' = cfg.
Proof. unfold resolve_node. intros ->. by intros [= ->]. Qed.

Lemma configs_of_cons known name names :
  configs_of known (name :: names) =
    match snd (resolve_node name known) with
    | Some cfg => PDict cfg :: configs_of known names
    | None => configs_of known names
    end.
Proof. unfold configs_of. simpl. by destruct (snd (resolve_node name known)). Qed.

Lemma unknown_of_cons known name names :
  unknown_of known (name :: names) =
    if fst (resolve_node name known) then unknown_of known names
    else name :: unknown_of known names.
Proof.
  unfold unknown_of. rewrite filter_cons.
  destruct (fst (resolve_node name known)).
  - by rewrite decide_False.
  - by rewrite decide_True.
Qed.

(** The loop over the items of a rule when every item is a plain name:
    each name is resolved on its own, and the known configs are left as
    they are. *)
Lemma resolve_items_names known names : forall st0,
  known_configs st0 = known ->
  exists st,
    resolve_items st0 (map PStr names) = Returns st /\
    known_configs st = known /\
    map (deref known) (resolved_nodes st)
      = map (deref known) (resolved_nodes st0) ++ configs_of known names /\
    unresolved_nodes st = unresolved_nodes st0 ++ unknown_of known names.
Proof.
  induction names as [|name names IH]; intros [k r u] Hk; simpl in Hk; subst k.
  - eexists. split; [reflexivity|]. by rewrite !app_nil_r.
  - cbn [map resolve_items]. unfold resolve_item.
    cbn [node_name_of_item mbind outcome_bind known_configs resolved_nodes unresolved_nodes].
    rewrite configs_of_cons, unknown_of_cons.
    destruct (resolve_node_cases name known) as [(cfg & Hr)|Hr]; rewrite Hr; cbn [fst snd].
    + destruct (known !! name) as [cfg0|] eqn:Hn.
      * pose proof (resolve_node_known_config _ _ _ _ Hn Hr) as ->.
        rewrite insert_id by done.
        destruct (IH (Resolution known (r ++ [KnownRef name]) u) eq_refl)
          as (st & Hst & Hk' & Hres & Hun).
        exists st. split; [exact Hst|]. split; [done|]. simpl in Hres, Hun.
        split; [|done]. rewrite Hres, map_app. simpl. rewrite Hn. simpl.
        by rewrite <- app_assoc.
      * destruct (IH (Resolution known (r ++ [Own cfg]) u) eq_refl)
          as (st & Hst & Hk' & Hres & Hun).
        exists st. split; [exact Hst|]. split; [done|]. simpl in Hres, Hun.
        split; [|done]. rewrite Hres, map_app. simpl. by rewrite <- app_assoc.
    + destruct (IH (Resolution known r (u ++ [name])) eq_refl)
        as (st & Hst & Hk' & Hres & Hun).
      exists st. split; [exact Hst|]. split; [done|]. simpl in Hres, Hun.
      split; [done|]. rewrite Hun. by rewrite <- app_assoc.
Qed.

(** The request reaches the branch that creates a rule. *)
Lemma send_message_reaches_create_rule env db message session known result rule_data :
  session <> 0 ->
  get_known_nodes env db = Returns known ->
  parse_user_intent (chat env) (json_loads env) message
    (Some (known_node_names [] (known_node_rows db))) = PDict result ->
  Py.get "type" result = PStr "rule" ->
  Py.get_or "rule" (PDict []) result = PDict rule_data ->
  send_message env db message (Some session)
    = create_rule (save_chat_message db "user" message None session) session known rule_data.
Proof.
  intros Hs Hk Hp Ht Hr. unfold send_message.
  destruct (Z.eqb_spec session 0) as [|_]; [done|].
  unfold get_known_nodes in *. cbn [save_chat_message known_node_rows].
  rewrite Hk, Hp, Ht, Hr. done.
Qed.

(** What the branch does for a rule whose nodes are plain names. *)
Lemma create_rule_names db session known rule_data names :
  Py.get_or "nodes" (PList []) rule_data = PList (map PStr names) ->
  create_rule db session known rule_data =
    match unknown_of known names, configs_of known names with
    | first :: _, [] =>
        Answered {| type := "clarification"; message := None; rule := None;
                    rule_id := None; clarification := Some (unrecognized first);
                    session_id := Some session |}
                 (save_chat_message db "assistant" (unrecognized first) None session)
    | _, _ =>
        match Py.get_or "name" (PStr "Unnamed Rule") rule_data,
              Py.get_or "execution" (PStr "sequential") rule_data with
        | PStr name, PStr execution =>
            let id := fresh (dom (automation_rules db)) in
            let row :=
              {| rule_name := name;
                 rule_session_id := session;
                 rule_nodes_json := configs_of known names;
                 rule_commands_json := Py.get_or "commands" (PList []) rule_data;
                 rule_execution_mode := execution;
                 rule_report_config_json := Py.get_or "report" (PDict []) rule_data;
                 rule_command := "DEPRECATED";
                 rule_status := ChatApi.CREATED |} in
            let db := {| chat_sessions := chat_sessions db;
                         chat_messages := chat_messages db;
                         known_node_rows := known_node_rows db;
                         automation_rules := <[id := row]> (automation_rules db) |} in
            match generate_rule_card_text rule_data with
            | Raises e => InternalError e
            | Returns rule_card =>
                Answered {| type := "rule"; message := Some rule_card;
                            rule := Some rule_data; rule_id := Some id;
                            clarification := None; session_id := Some session |}
                         (save_chat_message db "assistant" rule_card (Some id) session)
            end
        | _, _ => OutOfModel
        end
    end.
Proof.
  intros Hn. unfold create_rule. rewrite Hn. cbn [PyText.iterate].
  destruct (resolve_items_names known names (Resolution known [] []) eq_refl)
    as (st & -> & Hk & Hres & Hun).
  simpl in Hres, Hun. rewrite Hun. unfold resolved_json. rewrite Hk, Hres.
  destruct (unknown_of known names) as [|first rest]; [done|].
  destruct (resolved_nodes st) as [|x l]; simpl in Hres; rewrite <- Hres; done.
Qed.

(** X19.  When the model answers with a rule whose nodes are plain names
    and none of them resolves (none is a known node, none holds an
    address between parentheses, none is an address), no rule is created:
    the answer is a request for clarification that names the first of
    them, and the tables of rules is as it was. *)
Theorem send_message_asks_when_nothing_resolves
    (env : Env) (db : ChatDb) (message : string) (session : Z)
    (known : gmap string pydict) (result rule_data : pydict)
    (first : string) (others : list string) :
  session <> 0 ->
  get_known_nodes env db = Returns known ->
  parse_user_intent (chat env) (json_loads env) message
    (Some (known_node_names [] (known_node_rows db))) = PDict result ->
  Py.get "type" result = PStr "rule" ->
  Py.get_or "rule" (PDict []) result = PDict rule_data ->
  Py.get_or "nodes" (PList []) rule_data = PList (map PStr (first :: others)) ->
  Forall (fun name => fst (resolve_node name known) = false) (first :: others) ->
  exists db',
    send_message env db message (Some session) =
      Answered {| type := "clarification"; message := None; rule := None;
                  rule_id := None;
                  clarification :=
                    Some ("I don't recognize '" +:+ first
                          +:+ "'. What's its IP address? (e.g., 192.168.1.10)");
                  session_id := Some session |} db' /\
    automation_rules db' = automation_rules db /\
    chat_messages db' = chat_messages db ++
      [{| cm_role := "user"; cm_content := message; cm_rule_id := None;
          cm_session_id := Some session |};
       {| cm_role := "assistant";
          cm_content := "I don't recognize '" +:+ first
                        +:+ "'. What's its IP address? (e.g., 192.168.1.10)";
          cm_rule_id := None; cm_session_id := Some session |}].
Proof.
  intros Hs Hk Hp Ht Hr Hn Hnone.
  rewrite (send_message_reaches_create_rule _ _ _ _ known result rule_data) by done.
  rewrite (create_rule_names _ _ _ _ (first :: others)) by done.
  assert (Hu : unknown_of known (first :: others) = first :: others).
  { clear -Hnone. induction Hnone as [|x l Hx _ IH]; [done|].
    rewrite unknown_of_cons, Hx. by rewrite IH. }
  assert (Hc : configs_of known (first :: others) = []).
  { clear -Hnone. induction Hnone as [|x l Hx _ IH]; [done|].
    rewrite configs_of_cons.
    destruct (resolve_node_cases x known) as [(cfg & Hr)|Hr]; rewrite Hr in *; done. }
  rewrite Hu, Hc. eexists. split; [reflexivity|]. simpl. split; [done|].
  by rewrite <- app_assoc.
Qed.

Lemma send_message_asks_when_nothing_resolves_witness :
  exists db',
    send_message (env_rule [PStr "db-9"; PStr "cache"]) chat_db "check db-9 and cache" (Some 1)
    = Answered {| type := "clarification"; message := None; rule := None;
                  rule_id := None;
                  clarification :=
                    Some ("I don't recognize '" +:+ "db-9"
                          +:+ "'. What's its IP address? (e.g., 192.168.1.10)");
                  session_id := Some 1 |} db' /\
    automation_rules db' = automation_rules chat_db /\
    chat_messages db' = chat_messages chat_db ++
      [{| cm_role := "user"; cm_content := "check db-9 and cache"; cm_rule_id := None;
          cm_session_id := Some 1 |};
       {| cm_role := "assistant";
          cm_content := "I don't recognize '" +:+ "db-9"
                        +:+ "'. What's its IP address? (e.g., 192.168.1.10)";
          cm_rule_id := None; cm_session_id := Some 1 |}].
Proof.
  apply (send_message_asks_when_nothing_resolves
           (env_rule [PStr "db-9"; PStr "cache"]) chat_db "check db-9 and cache" 1
           {[ "primary" := primary_config ]}
           (rule_result [PStr "db-9"; PStr "cache"])
           (uptime_rule [PStr "db-9"; PStr "cache"]) "db-9" ["cache"]).
  - discriminate.
  - vm_compute. reflexivity.
  - reflexivity.
  - reflexivity.
  - reflexivity.
  - reflexivity.
  - repeat constructor.
Defined.

(** X20.  When the model answers with a rule whose nodes are plain names
    and at least one of them resolves, the rule is created with the
    configs of the names that resolve, in their order: the names that do
    not resolve are left out of the rule without a word, the answer has
    no request for clarification, and the rule card is stored as the
    message of the assistant. *)
Theorem send_message_drops_unresolved_nodes
    (env : Env) (db : ChatDb) (message : string) (session : Z)
    (known : gmap string pydict) (result rule_data : pydict) (names : list string)
    (name mode card : string) :
  session <> 0 ->
  get_known_nodes env db = Returns known ->
  parse_user_intent (chat env) (json_loads env) message
    (Some (known_node_names [] (known_node_rows db))) = PDict result ->
  Py.get "type" result = PStr "rule" ->
  Py.get_or "rule" (PDict []) result = PDict rule_data ->
  Py.get_or "nodes" (PList []) rule_data = PList (map PStr names) ->
  Exists (fun n => fst (resolve_node n known) = true) names ->
  Py.get_or "name" (PStr "Unnamed Rule") rule_data = PStr name ->
  Py.get_or "execution" (PStr "sequential") rule_data = PStr mode ->
  generate_rule_card_text rule_data = Returns card ->
  let id := fresh (dom (automation_rules db)) in
  exists db' row,
    send_message env db message (Some session) =
      Answered {| type := "rule"; message := Some card; rule := Some rule_data;
                  rule_id := Some id; clarification := None;
                  session_id := Some session |} db' /\
    automation_rules db !! id = None /\
    automation_rules db' = <[id := row]> (automation_rules db) /\
    rule_nodes_json row =
      omap (fun n => PDict <$> snd (resolve_node n known)) names /\
    length (rule_nodes_json row) =
      length (filter (fun n => fst (resolve_node n known) = true) names) /\
    rule_status row = ChatApi.CREATED /\
    chat_messages db' = chat_messages db ++
      [{| cm_role := "user"; cm_content := message; cm_rule_id := None;
          cm_session_id := Some session |};
       {| cm_role := "assistant"; cm_content := card; cm_rule_id := Some id;
          cm_session_id := Some session |}].
Proof.
  intros Hs Hk Hp Ht Hr Hn Hsome Hname Hmode Hcard id.
  rewrite (send_message_reaches_create_rule _ _ _ _ known result rule_data) by done.
  rewrite (create_rule_names _ _ _ _ names) by done.
  assert (Hc : configs_of known names <> []).
  { clear -Hsome. induction Hsome as [x l Hx|x l _ IH]; rewrite configs_of_cons.
    - destruct (resolve_node_cases x known) as [(cfg & Hr)|Hr]; rewrite Hr in *; done.
    - by destruct (snd (resolve_node x known)). }
  assert (Hlen : length (configs_of known names) =
                 length (filter (fun n => fst (resolve_node n known) = true) names)).
  { clear. induction names as [|x l IH]; [done|].
    rewrite configs_of_cons, filter_cons.
    destruct (resolve_node_cases x known) as [(cfg & Hr)|Hr]; rewrite Hr; cbn [fst snd].
    - rewrite decide_True by done. simpl. by rewrite IH.
    - by rewrite decide_False. }
  rewrite Hname, Hmode, Hcard. cbn [save_chat_message automation_rules chat_messages].
  destruct (configs_of known names) as [|c cs] eqn:Hconf; [done|].
  eexists _, _.
  split; [by destruct (unknown_of known names)|].
  split; [apply not_elem_of_dom, is_fresh|].
  split; [reflexivity|]. cbn [rule_nodes_json rule_status].
  split; [by rewrite <- Hconf|]. split; [exact Hlen|]. split; [done|].
  simpl. by rewrite <- app_assoc.
Qed.

Lemma send_message_drops_unresolved_nodes_witness :
  let id := fresh (dom (automation_rules chat_db)) in
  exists db' row,
    send_message (env_rule [PStr "primary"; PStr "db-9"]) chat_db
      "check primary and db-9" (Some 1) =
      Answered {| type := "rule";
                  message := Some (card_of (uptime_rule [PStr "primary"; PStr "db-9"]));
                  rule := Some (uptime_rule [PStr "primary"; PStr "db-9"]);
                  rule_id := Some id; clarification := None;
                  session_id := Some 1 |} db' /\
    automation_rules chat_db !! id = None /\
    automation_rules db' = <[id := row]> (automation_rules chat_db) /\
    rule_nodes_json row =
      omap (fun n => PDict <$> snd (resolve_node n {[ "primary" := primary_config ]}))
           ["primary"; "db-9"] /\
    length (rule_nodes_json row) =
      length (filter (fun n => fst (resolve_node n {[ "primary" := primary_config ]}) = true)
                     ["primary"; "db-9"]) /\
    rule_status row = ChatApi.CREATED /\
    chat_messages db' = chat_messages chat_db ++
      [{| cm_role := "user"; cm_content := "check primary and db-9"; cm_rule_id := None;
          cm_session_id := Some 1 |};
       {| cm_role := "assistant";
          cm_content := card_of (uptime_rule [PStr "primary"; PStr "db-9"]);
          cm_rule_id := Some id; cm_session_id := Some 1 |}].
Proof.
  apply (send_message_drops_unresolved_nodes
           (env_rule [PStr "primary"; PStr "db-9"]) chat_db "check primary and db-9" 1
           {[ "primary" := primary_config ]}
           (rule_result [PStr "primary"; PStr "db-9"])
           (uptime_rule [PStr "primary"; PStr "db-9"]) ["primary"; "db-9"]
           "Uptime check" "sequential"
           (card_of (uptime_rule [PStr "primary"; PStr "db-9"]))).
  - discriminate.
  - vm_compute. reflexivity.
  - reflexivity.
  - reflexivity.
  - reflexivity.
  - reflexivity.
  - apply Exists_cons_hd. vm_compute. reflexivity.
  - reflexivity.
  - reflexivity.
  - vm_compute. reflexivity.
Defined.

(** The dict that [get_known_nodes] holds for a row whose name no other
    row has. *)
Lemma known_nodes_from_other env rows : forall acc known name,
  known_nodes_from env acc rows = Returns known ->
  name ∉ map kn_name rows -> known !! name = acc !! name.
Proof.
  induction rows as [|row rows IH]; intros acc known name; simpl.
  - by intros [= ->].
  - destruct (known_node_config env row) as [cfg|e]; simpl; [|done].
    intros H Hnot. apply not_elem_of_cons in Hnot as [Hne Hnot].
    rewrite (IH _ _ _ H Hnot). by rewrite lookup_insert_ne.
Qed.

Lemma known_nodes_from_lookup env rows : forall acc known node,
  known_nodes_from env acc rows = Returns known ->
  NoDup (map kn_name rows) -> node ∈ rows ->
  exists cfg, known_node_config env node = Returns cfg /\
              known !! kn_name node = Some cfg.
Proof.
  induction rows as [|row rows IH]; intros acc known node; simpl.
  - intros _ _ H. by apply elem_of_nil in H.
  - destruct (known_node_config env row) as [cfg|e] eqn:Hcfg; simpl; [|done].
    intros H Hnd Hin. apply NoDup_cons in Hnd as [Hnot Hnd].
    apply elem_of_cons in Hin as [->|Hin].
    + exists cfg. split; [done|].
      rewrite (known_nodes_from_other _ _ _ _ _ H Hnot). apply lookup_insert_eq.
    + by eapply IH.
Qed.

(** X21.  The credential of a known node is written into the rule in the
    clear.  When a request names a known node whose row holds an
    encrypted credential, the rule that is created stores, in its list of
    nodes, the dict that [get_known_nodes] built for that node, and this
    dict carries the decrypted credential. *)
Theorem known_node_credential_is_stored_in_clear
    (env : Env) (db : ChatDb) (message : string) (session : Z)
    (known : gmap string pydict) (result rule_data : pydict)
    (node : KnownNode) (encrypted plain name mode card : string) :
  session <> 0 ->
  get_known_nodes env db = Returns known ->
  parse_user_intent (chat env) (json_loads env) message
    (Some (known_node_names [] (known_node_rows db))) = PDict result ->
  Py.get "type" result = PStr "rule" ->
  Py.get_or "rule" (PDict []) result = PDict rule_data ->
  Py.get_or "nodes" (PList []) rule_data = PList [PStr (kn_name node)] ->
  NoDup (map kn_name (known_node_rows db)) ->
  node ∈ known_node_rows db ->
  kn_credential_encrypted node = Some encrypted -> encrypted <> "" ->
  decrypt_credential env encrypted = Returns plain ->
  Py.get_or "name" (PStr "Unnamed Rule") rule_data = PStr name ->
  Py.get_or "execution" (PStr "sequential") rule_data = PStr mode ->
  generate_rule_card_text rule_data = Returns card ->
  exists response db' id row,
    send_message env db message (Some session) = Answered response db' /\
    rule_id response = Some id /\
    automation_rules db' !! id = Some row /\
    rule_nodes_json row =
      [PDict [("name", PStr (kn_name node));
              ("hostname", PStr (kn_hostname node));
              ("username", PStr (kn_username node));
              ("port", PInt (kn_port node));
              ("auth_type", PStr (kn_auth_type node));
              ("credential", PStr plain)]].
Proof.
  intros Hs Hk Hp Ht Hr Hn Hnd Hin Henc Hne Hdec Hname Hmode Hcard.
  rewrite (send_message_reaches_create_rule _ _ _ _ known result rule_data) by done.
  rewrite (create_rule_names _ _ _ _ [kn_name node]) by done.
  destruct (known_nodes_from_lookup _ _ _ _ _ Hk Hnd Hin) as (cfg & Hcfg & Hlook).
  unfold known_node_config in Hcfg. rewrite Henc in Hcfg.
  destruct encrypted as [|c rest]; [done|]. rewrite Hdec in Hcfg. simpl in Hcfg.
  injection Hcfg as <-.
  rewrite configs_of_cons, unknown_of_cons.
  assert (Hres : resolve_node (kn_name node) known = (true, Some
            [("name", PStr (kn_name node)); ("hostname", PStr (kn_hostname node));
             ("username", PStr (kn_username node)); ("port", PInt (kn_port node));
             ("auth_type", PStr (kn_auth_type node)); ("credential", PStr plain)])).
  { unfold resolve_node. by rewrite Hlook. }
  rewrite Hres. cbn [fst snd]. rewrite Hname, Hmode, Hcard.
  eexists _, _, _, _. split; [reflexivity|]. split; [reflexivity|].
  cbn [save_chat_message automation_rules]. rewrite lookup_insert_eq.
  split; reflexivity.
Qed.

Lemma known_node_credential_is_stored_in_clear_witness :
  exists response db' id row,
    send_message (env_rule [PStr "primary"]) chat_db "check primary" (Some 1)
      = Answered response db' /\
    rule_id response = Some id /\
    automation_rules db' !! id = Some row /\
    rule_nodes_json row =
      [PDict [("name", PStr (kn_name primary));
              ("hostname", PStr (kn_hostname primary));
              ("username", PStr (kn_username primary));
              ("port", PInt (kn_port primary));
              ("auth_type", PStr (kn_auth_type primary));
              ("credential", PStr "hunter2")]].
Proof.
  apply (known_node_credential_is_stored_in_clear
           (env_rule [PStr "primary"]) chat_db "check primary" 1
           {[ "primary" := primary_config ]}
           (rule_result [PStr "primary"]) (uptime_rule [PStr "primary"])
           primary "Z0FBQUFBQm8" "hunter2" "Uptime check" "sequential"
           (card_of (uptime_rule [PStr "primary"]))).
  - discriminate.
  - vm_compute. reflexivity.
  - reflexivity.
  - reflexivity.
  - reflexivity.
  - reflexivity.
  - repeat constructor. intros H. by apply elem_of_nil in H.
  - apply list_elem_of_here.
  - reflexivity.
  - discriminate.
  - reflexivity.
  - reflexivity.
  - reflexivity.
  - vm_compute. reflexivity.
Defined.

(** A dict that names a known node is resolved to the config of that
    node, which it changes in place. *)
Lemma resolve_item_known_dict st name cfg d :
  known_configs st !! name = Some cfg ->
  Py.or_else (Py.get "name" d) (Py.get "hostname" d) = PStr name ->
  resolve_item st (PDict d) =
    Returns (Resolution (<[name := PyText.update cfg d]> (known_configs st))
                        (resolved_nodes st ++ [KnownRef name]) (unresolved_nodes st)).
Proof.
  intros Hk Hn. unfold resolve_item. cbn [node_name_of_item mbind outcome_bind].
  rewrite Hn. unfold resolve_node. by rewrite Hk.
Qed.

(** X22.  The config of a known node is shared by all the items that
    name it.  When two items of a rule are dicts that name the same known
    node, the second [config.update] changes the dict that the first item
    was resolved to: both entries of the list that is stored are the
    config of the node with the keys of the first item and then the keys
    of the second written over it. *)
Theorem repeated_known_node_shares_overrides
    (known : gmap string pydict) (name : string) (cfg d1 d2 : pydict) :
  known !! name = Some cfg ->
  Py.or_else (Py.get "name" d1) (Py.get "hostname" d1) = PStr name ->
  Py.or_else (Py.get "name" d2) (Py.get "hostname" d2) = PStr name ->
  exists st,
    resolve_items (Resolution known [] []) [PDict d1; PDict d2] = Returns st /\
    unresolved_nodes st = [] /\
    resolved_json st =
      [PDict (PyText.update (PyText.update cfg d1) d2);
       PDict (PyText.update (PyText.update cfg d1) d2)].
Proof.
  intros Hk H1 H2. cbn [resolve_items].
  rewrite (resolve_item_known_dict _ name cfg d1) by done.
  cbn [mbind outcome_bind known_configs resolved_nodes unresolved_nodes].
  rewrite (resolve_item_known_dict _ name (PyText.update cfg d1) d2);
    [|apply lookup_insert_eq|done].
  cbn [mbind outcome_bind known_configs resolved_nodes unresolved_nodes].
  eexists. split; [reflexivity|]. split; [done|].
  unfold resolved_json. simpl. by rewrite lookup_insert_eq.
Qed.

Lemma repeated_known_node_shares_overrides_witness :
  exists st,
    resolve_items (Resolution {[ "primary" := primary_config ]} [] [])
      [PDict [("name", PStr "primary"); ("username", PStr "root")];
       PDict [("name", PStr "primary"); ("username", PStr "deploy")]] = Returns st /\
    unresolved_nodes st = [] /\
    resolved_json st =
      [PDict (PyText.update
                (PyText.update primary_config
                   [("name", PStr "primary"); ("username", PStr "root")])
                [("name", PStr "primary"); ("username", PStr "deploy")]);
       PDict (PyText.update
                (PyText.update primary_config
                   [("name", PStr "primary"); ("username", PStr "root")])
                [("name", PStr "primary"); ("username", PStr "deploy")])].
Proof.
  apply (repeated_known_node_shares_overrides {[ "primary" := primary_config ]} "primary"
           primary_config
           [("name", PStr "primary"); ("username", PStr "root")]
           [("name", PStr "primary"); ("username", PStr "deploy")]); reflexivity.
Defined.

(** X23.  A failure of the model never creates a rule.  When the call of
    the LLM client raises, or when its reply is not JSON once the fence is
    taken off, [parse_user_intent] gives a dict of type "chat" and
    [send_message] answers with its message, which says what went wrong:
    the table of rules is as it was, and the message of the user and the
    answer are added to the history. *)
Theorem send_message_llm_failure
    (env : Env) (db : ChatDb) (message : string) (session : Z)
    (known : gmap string pydict) (text : string) :
  session <> 0 ->
  get_known_nodes env db = Returns known ->
  (exists e, (forall system, chat env system message = Raises e) /\
             text = "I encountered an issue: " +:+ exn_msg e +:+ ". Please try again.") \/
  (exists reply,
     (forall system, chat env system message = Returns reply) /\
     json_loads env (strip_fence (Py.strip reply)) = None /\
     text = "I understood your request but had trouble formatting it. Could you rephrase?") ->
  exists db',
    send_message env db message (Some session) =
      Answered {| type := "chat"; message := Some text; rule := None; rule_id := None;
                  clarification := None; session_id := Some session |} db' /\
    automation_rules db' = automation_rules db /\
    chat_messages db' = chat_messages db ++
      [{| cm_role := "user"; cm_content := message; cm_rule_id := None;
          cm_session_id := Some session |};
       {| cm_role := "assistant"; cm_content := text; cm_rule_id := None;
          cm_session_id := Some session |}].
Proof.
  intros Hs Hk Hfail. unfold send_message.
  destruct (Z.eqb_spec session 0) as [|_]; [done|].
  unfold get_known_nodes in *. cbn [save_chat_message known_node_rows].
  rewrite Hk.
  assert (Hp : parse_user_intent (chat env) (json_loads env) message
                 (Some (known_node_names [] (known_node_rows db)))
               = chat_reply text).
  { unfold parse_user_intent.
    destruct Hfail as [(e & He & ->)|(reply & Hc & Hj & ->)].
    - by rewrite He.
    - by rewrite Hc, Hj. }
  rewrite Hp. unfold chat_reply. simpl.
  eexists. split; [reflexivity|]. simpl. split; [done|]. by rewrite <- app_assoc.
Qed.

Lemma send_message_llm_failure_witness :
  exists db',
    send_message env_down chat_db "check primary" (Some 1) =
      Answered {| type := "chat";
                  message := Some ("I encountered an issue: " +:+ "Connection error."
                                   +:+ ". Please try again.");
                  rule := None; rule_id := None;
                  clarification := None; session_id := Some 1 |} db' /\
    automation_rules db' = automation_rules chat_db /\
    chat_messages db' = chat_messages chat_db ++
      [{| cm_role := "user"; cm_content := "check primary"; cm_rule_id := None;
          cm_session_id := Some 1 |};
       {| cm_role := "assistant";
          cm_content := "I encountered an issue: " +:+ "Connection error."
                        +:+ ". Please try again.";
          cm_rule_id := None; cm_session_id := Some 1 |}].
Proof.
  apply (send_message_llm_failure env_down chat_db "check primary" 1
           {[ "primary" := primary_config ]}
           ("I encountered an issue: " +:+ "Connection error." +:+ ". Please try again.")).
  - discriminate.
  - vm_compute. reflexivity.
  - left. exists (Exn OtherError "Connection error."). split; [|reflexivity].
    intros system. reflexivity.
Defined.

End ChatFacts.

(** ** [chat_api.py]: the report of a rule *)

Module ReportFacts.

Import ChatEngine ChatApi Consumer Report.

(** *** Occurrences of a marker in a message *)

Lemma startswith_app p : forall a s,
  Py.startswith p a = true -> Py.startswith p (a +:+ s) = true.
Proof.
  induction p as [|x p IH]; intros a s; simpl; [done|].
  destruct a as [|y a]; [done|]. rewrite RegexFacts.append_cons.
  intros H. apply andb_true_iff in H as [-> H]. simpl. by apply IH.
Qed.

Lemma startswith_app_inv p : forall a s,
  Py.startswith p (a +:+ s) = true ->
  Py.startswith p a = true \/ Py.startswith a p = true.
Proof.
  induction p as [|x p IH]; intros a s; simpl; [by left|].
  destruct a as [|y a]; [by right|]. rewrite RegexFacts.append_cons.
  intros H. apply andb_true_iff in H as [Hxy H].
  apply Ascii.eqb_eq in Hxy as ->. simpl. rewrite Ascii.eqb_refl. simpl.
  by apply (IH a s).
Qed.

Lemma contains_after a p s :
  Py.contains p a = false -> ends_into a p = false ->
  Py.contains p (a +:+ s) = Py.contains p s.
Proof.
  induction a as [|c a IH]; [done|].
  intros Hc He. rewrite RegexFacts.append_cons.
  change (Py.contains p (String c a)) with
    (Py.startswith p (String c a) || Py.contains p a) in Hc.
  change (Py.contains p (String c (a +:+ s))) with
    (Py.startswith p (String c (a +:+ s)) || Py.contains p (a +:+ s)).
  apply orb_false_iff in Hc as [Hc1 Hc2].
  cbn [ends_into] in He. apply orb_false_iff in He as [He1 He2].
  rewrite IH by done.
  destruct (Py.startswith p (String c (a +:+ s))) eqn:Hs; [|done].
  rewrite <- RegexFacts.append_cons in Hs.
  apply startswith_app_inv in Hs as [Hs|Hs]; congruence.
Qed.

Lemma startswith_before c b p : forall a,
  Py.has_char c p = false ->
  Py.startswith p (a +:+ String c b) = Py.startswith p a.
Proof.
  induction p as [|x p IH]; intros a; [done|].
  intros H. cbn [Py.has_char] in H. apply orb_false_iff in H as [Hx Hp].
  destruct a as [|y a].
  - change ("" +:+ String c b) with (String c b). simpl.
    rewrite Ascii.eqb_sym, Hx. done.
  - rewrite RegexFacts.append_cons. simpl. by rewrite IH.
Qed.

Lemma contains_before c b p s :
  Py.has_char c p = false ->
  Py.contains p (s +:+ String c b) = Py.contains p s || Py.contains p (String c b).
Proof.
  intros Hc. induction s as [|y s IH].
  - change ("" +:+ String c b) with (String c b).
    destruct p as [|x p]; [done|]. done.
  - rewrite RegexFacts.append_cons.
    change (Py.contains p (String y (s +:+ String c b))) with
      (Py.startswith p (String y (s +:+ String c b)) || Py.contains p (s +:+ String c b)).
    change (Py.contains p (String y s)) with
      (Py.startswith p (String y s) || Py.contains p s).
    rewrite IH. rewrite <- RegexFacts.append_cons, startswith_before by done.
    by rewrite orb_assoc.
Qed.

Lemma startswith_longer p q : forall s,
  Py.startswith (p +:+ q) s = true -> Py.startswith p s = true.
Proof.
  induction p as [|x p IH]; intros s; [done|].
  rewrite RegexFacts.append_cons. simpl. destruct s as [|y s]; [done|].
  intros H. apply andb_true_iff in H as [-> H]. simpl. by apply IH.
Qed.

Lemma contains_longer p q s :
  Py.contains p s = false -> Py.contains (p +:+ q) s = false.
Proof.
  induction s as [|y s IH].
  - destruct p; [done|]. by rewrite RegexFacts.append_cons.
  - change (Py.contains p (String y s)) with
      (Py.startswith p (String y s) || Py.contains p s).
    change (Py.contains (p +:+ q) (String y s)) with
      (Py.startswith (p +:+ q) (String y s) || Py.contains (p +:+ q) s).
    intros H. apply orb_false_iff in H as [H1 H2]. rewrite IH by done.
    destruct (Py.startswith (p +:+ q) (String y s)) eqn:Hs; [|done].
    apply startswith_longer in Hs. congruence.
Qed.

Lemma replace_absent old new s :
  Py.contains old s = false -> PyText.replace old new s = s.
Proof.
  unfold PyText.replace. induction s as [|c s IH]; [done|].
  change (Py.contains old (String c s)) with
    (Py.startswith old (String c s) || Py.contains old s).
  intros H. apply orb_false_iff in H as [H1 H2].
  cbn [PyText.replace_go]. rewrite H1. by rewrite IH.
Qed.

Lemma split_absent sep s : forall cur,
  Py.contains sep s = false -> PyText.split_go sep O cur s = [cur +:+ s].
Proof.
  induction s as [|c s IH]; intros cur.
  - intros _. simpl. by rewrite RegexFacts.append_nil_r.
  - change (Py.contains sep (String c s)) with
      (Py.startswith sep (String c s) || Py.contains sep s).
    intros H. apply orb_false_iff in H as [H1 H2].
    cbn [PyText.split_go]. rewrite H1. rewrite IH by done.
    by rewrite RegexFacts.append_assoc.
Qed.

(** *** The branches of the loop over the timeline *)

Lemma plain_spec s :
  plain s = true ->
  Py.contains "Running command:" s = false /\ Py.contains "⚠️" s = false /\
  Py.contains "Condition met" s = false /\ Py.contains "✓" s = false /\
  Py.contains "All clear" s = false.
Proof. unfold plain. rewrite !andb_true_iff, !negb_true_iff. tauto. Qed.

Lemma plain_after a s :
  plain a = true ->
  ends_into a "Running command:" || ends_into a "⚠️" || ends_into a "Condition met" ||
  ends_into a "✓" || ends_into a "All clear" = false ->
  plain s = true -> plain (a +:+ s) = true.
Proof.
  intros (A1 & A2 & A3 & A4 & A5)%plain_spec He (H1 & H2 & H3 & H4 & H5)%plain_spec.
  rewrite !orb_false_iff in He. destruct He as ((((E1 & E2) & E3) & E4) & E5).
  unfold plain. rewrite !contains_after by done.
  by rewrite H1, H2, H3, H4, H5.
Qed.

Lemma plain_before c b s :
  Py.has_char c "Running command:" || Py.has_char c "⚠️" || Py.has_char c "Condition met" ||
  Py.has_char c "✓" || Py.has_char c "All clear" = false ->
  plain s = true -> plain (String c b) = true -> plain (s +:+ String c b) = true.
Proof.
  intros He (H1 & H2 & H3 & H4 & H5)%plain_spec (A1 & A2 & A3 & A4 & A5)%plain_spec.
  rewrite !orb_false_iff in He. destruct He as ((((E1 & E2) & E3) & E4) & E5).
  unfold plain. rewrite !contains_before by done.
  by rewrite H1, H2, H3, H4, H5, A1, A2, A3, A4, A5.
Qed.

Lemma scan_event_quiet st ev m :
  Py.get_or "message" (PStr "") ev = PStr m ->
  plain m = true ->
  Py.eq_str (Py.get_or "status" (PStr "") ev) "warning" = false ->
  Py.eq_str (Py.get_or "type" (PStr "") ev) "incident" = false ->
  scan_event st ev = Returns st.
Proof.
  intros Hm (H1 & H2 & H3 & H4 & H5)%plain_spec Hs Ht.
  unfold scan_event. rewrite Hm, Hs, Ht. cbn [PyText.in_].
  rewrite H1, H2, H3, H4, H5. cbn [orb]. by destruct (active st).
Qed.

Lemma scan_event_start st ev m :
  Py.get_or "message" (PStr "") ev = PStr m ->
  Py.contains "Running command:" m = true ->
  scan_event st ev =
    Returns (Scan (<[Py.strip (PyText.replace "Running command:" "" m) :=
                       Finding true "OK" (PStr "-")]> (command_results st))
                  (Some (Py.strip (PyText.replace "Running command:" "" m)))).
Proof.
  intros Hm H1. unfold scan_event. rewrite Hm. cbn [PyText.in_]. rewrite H1. done.
Qed.

Lemma scan_event_met st ev m cmd f :
  Py.get_or "message" (PStr "") ev = PStr m ->
  Py.contains "Running command:" m = false ->
  Py.contains "⚠️" m = true ->
  Py.contains "Condition met:" m = true ->
  active st = Some cmd ->
  command_results st !! cmd = Some f ->
  scan_event st ev =
    Returns (Scan (<[cmd := Finding (executed f) "NOK"
                              (PStr (Py.strip (List.last (PyText.split "Condition met:" m) "")))]>
                     (command_results st))
                  (current_cmd st)).
Proof.
  intros Hm H1 H2 H3 Ha Hf. unfold scan_event. rewrite Hm, Ha. cbn [PyText.in_].
  rewrite H1, H2, H3. cbn [orb]. unfold set_status, get_item. rewrite Hf.
  cbn [mbind outcome_bind PyText.str_method].
  unfold set_remarks, get_item. rewrite lookup_insert_eq.
  cbn [mbind outcome_bind executed deviation remarks]. by rewrite insert_insert_eq.
Qed.

Lemma scan_event_clear st ev m cmd f :
  Py.get_or "message" (PStr "") ev = PStr m ->
  Py.contains "Running command:" m = false ->
  Py.contains "⚠️" m = false ->
  Py.contains "Condition met" m = false ->
  Py.eq_str (Py.get_or "status" (PStr "") ev) "warning" = false ->
  Py.contains "✓" m = true ->
  active st = Some cmd ->
  command_results st !! cmd = Some f ->
  String.eqb (deviation f) "NOK" = false ->
  scan_event st ev =
    Returns (Scan (<[cmd := Finding (executed f) "OK"
                              (PStr (let text :=
                                       Py.strip (PyText.replace "All clear:" ""
                                                   (PyText.replace "✓" "" m)) in
                                     if String.eqb text "" then "Success" else text))]>
                     (command_results st))
                  (current_cmd st)).
Proof.
  intros Hm H1 H2 H3 Hs H4 Ha Hf Hd. unfold scan_event. rewrite Hm, Ha, Hs. cbn [PyText.in_].
  rewrite H1, H2, H3, H4. cbn [orb]. unfold set_status, get_item. rewrite Hf.
  cbn [mbind outcome_bind PyText.str_method]. rewrite Hd.
  unfold set_remarks, get_item. rewrite lookup_insert_eq.
  cbn [mbind outcome_bind executed deviation remarks]. by rewrite insert_insert_eq.
Qed.

(** *** The events of the worker, read back *)

Lemma scan_connecting st name :
  plain name = true -> scan_event st (ev_connecting name) = Returns st.
Proof.
  intros Hn. apply (scan_event_quiet st _ ("Connecting to " +:+ name +:+ "...")); try done.
  apply plain_after; [done|done|]. by apply plain_before.
Qed.

Lemma scan_connected st name :
  plain name = true -> scan_event st (ev_connected name) = Returns st.
Proof.
  intros Hn. by apply (scan_event_quiet st _ ("SSH connection established to " +:+ name)).
Qed.

Lemma scan_output_received st name :
  scan_event st (ev_output_received name) = Returns st.
Proof. by apply (scan_event_quiet st _ "Output received successfully"). Qed.

Lemma scan_analyzing st name :
  scan_event st (ev_analyzing name) = Returns st.
Proof. by apply (scan_event_quiet st _ "Analyzing output..."). Qed.

Lemma tidy_spec text :
  tidy text = true -> text <> "" /\ Py.strip text = text /\ plain text = true.
Proof.
  unfold tidy. rewrite !andb_true_iff, negb_true_iff, String.eqb_neq, String.eqb_eq. tauto.
Qed.

Lemma scan_executing st name text :
  tidy text = true ->
  scan_event st (ev_executing name (Some text)) =
    Returns (Scan (<[text := Finding true "OK" (PStr "-")]> (command_results st)) (Some text)).
Proof.
  intros (Hne & Hs & (H1 & _)%plain_spec)%tidy_spec.
  rewrite (scan_event_start st _ ("Running command: " +:+ text)); [|done|done].
  assert (Hr : Py.strip (PyText.replace "Running command:" "" ("Running command: " +:+ text))
               = text).
  { change (PyText.replace "Running command:" "" ("Running command: " +:+ text))
      with (String " " (PyText.replace "Running command:" "" text)).
    rewrite replace_absent by done. exact Hs. }
  by rewrite Hr.
Qed.

Lemma scan_condition_met st name d text f :
  Py.truthy (Py.get "condition_met" d) = true ->
  plain (summary_text d) = true ->
  current_cmd st = Some text -> text <> "" ->
  command_results st !! text = Some f ->
  scan_event st (ev_condition_met name d) =
    Returns (Scan (<[text := Finding (executed f) "NOK" (PStr (Py.strip (summary_text d)))]>
                     (command_results st))
                  (Some text)).
Proof.
  intros Ht (H1 & H2 & H3 & H4 & H5)%plain_spec Hc Hne Hf.
  assert (Ha : active st = Some text).
  { unfold active. rewrite Hc. by destruct text. }
  rewrite (scan_event_met st _ ("⚠️ Condition met: " +:+ summary_text d) text f); try done.
  - rewrite Hc. do 4 f_equal.
    change (PyText.split "Condition met:" ("⚠️ Condition met: " +:+ summary_text d))
      with ("⚠️ " :: PyText.split_go "Condition met:" 0 " " (summary_text d)).
    rewrite split_absent by (by apply (contains_longer "Condition met" ":")).
    reflexivity.
  - unfold summary_text. rewrite Ht. reflexivity.
Qed.

Lemma scan_condition_not_met st name d text f :
  Py.truthy (Py.get "condition_met" d) = false ->
  plain (summary_text d) = true ->
  current_cmd st = Some text -> text <> "" ->
  command_results st !! text = Some f ->
  String.eqb (deviation f) "NOK" = false ->
  scan_event st (ev_condition_not_met name d) =
    Returns (Scan (<[text := Finding (executed f) "OK"
                               (PStr (if String.eqb (Py.strip (summary_text d)) ""
                                      then "Success" else Py.strip (summary_text d)))]>
                     (command_results st))
                  (Some text)).
Proof.
  intros Ht (H1 & H2 & H3 & H4 & H5)%plain_spec Hc Hne Hf Hd.
  assert (Ha : active st = Some text).
  { unfold active. rewrite Hc. by destruct text. }
  rewrite (scan_event_clear st _ ("✓ All clear: " +:+ summary_text d) text f); try done.
  - rewrite Hc. do 4 f_equal. cbv zeta.
    change (PyText.replace "✓" "" ("✓ All clear: " +:+ summary_text d))
      with (" All clear: " +:+ PyText.replace "✓" "" (summary_text d)).
    rewrite (replace_absent "✓") by done.
    change (PyText.replace "All clear:" "" (" All clear: " +:+ summary_text d))
      with (String " " (String " " (PyText.replace "All clear:" "" (summary_text d)))).
    rewrite replace_absent by (by apply (contains_longer "All clear" ":")).
    reflexivity.
  - unfold summary_text. rewrite Ht. reflexivity.
Qed.

(** *** The events of a command, of a node and of a plan, read back *)

Lemma scan_from_app l1 : forall st l2,
  scan_from st (l1 ++ l2) = st1 ← scan_from st l1; scan_from st1 l2.
Proof.
  induction l1 as [|e l1 IH]; intros st l2; [done|].
  simpl. destruct (scan_event st e) as [st1|x]; [|done]. apply IH.
Qed.

Lemma verdict_executed d : executed (verdict d) = true.
Proof. unfold verdict. by destruct (Py.truthy _). Qed.

Lemma scan_run_one w i k name cond c text d :
  plain name = true ->
  cmd c = Some text -> tidy text = true ->
  analysis_at w i k cond c = Some d -> plain (summary_text d) = true ->
  exists evs,
    run_one w i k name cond c = (evs, Normal) /\
    forall st, scan_from st (List.filter is_step evs) =
               Returns (Scan (<[text := verdict d]> (command_results st)) (Some text)).
Proof.
  intros Hn Hc Ht Ha Hp. unfold run_one. unfold analysis_at in Ha.
  destruct (await (conn_run w i k (cmd c))) as [[result|]|]; try done.
  change (match logic c with Some l => l | None => "" end) with (default "" (logic c)).
  destruct (analyze_output_with_llm _ _ _ _ _) as [ |b|z|x|l|d']; try done.
  injection Ha as ->. rewrite Hc.
  pose proof Ht as (Hne & _ & _)%tidy_spec.
  destruct (Py.truthy (Py.get "condition_met" d)) eqn:Hm; eexists; (split; [done|]);
    intros st.
  - change (List.filter is_step _) with
      [ev_executing name (Some text); ev_output_received name; ev_analyzing name;
       ev_condition_met name d].
    cbn [scan_from]. rewrite scan_executing by done. cbn [mbind outcome_bind].
    rewrite scan_output_received. cbn [mbind outcome_bind].
    rewrite scan_analyzing. cbn [mbind outcome_bind].
    erewrite scan_condition_met; [|done|done|done|done|cbn; apply lookup_insert_eq].
    cbn [mbind outcome_bind command_results executed]. rewrite insert_insert_eq.
    unfold verdict. by rewrite Hm.
  - change (List.filter is_step _) with
      [ev_executing name (Some text); ev_output_received name; ev_analyzing name;
       ev_condition_not_met name d].
    cbn [scan_from]. rewrite scan_executing by done. cbn [mbind outcome_bind].
    rewrite scan_output_received. cbn [mbind outcome_bind].
    rewrite scan_analyzing. cbn [mbind outcome_bind].
    erewrite scan_condition_not_met;
      [|done|done|done|done|cbn; apply lookup_insert_eq|done].
    cbn [mbind outcome_bind command_results executed]. rewrite insert_insert_eq.
    unfold verdict. by rewrite Hm.
Qed.

Lemma scan_run_commands w i name cond cs : forall k st,
  plain name = true ->
  NoDup (map cmd cs) ->
  (forall j c, cs !! j = Some c ->
     exists text d, cmd c = Some text /\ tidy text = true /\
                    analysis_at w i (k + j) cond c = Some d /\
                    plain (summary_text d) = true) ->
  exists evs st',
    run_commands w i k name cond cs = (evs, Normal) /\
    scan_from st (List.filter is_step evs) = Returns st' /\
    (forall j c text d,
       cs !! j = Some c -> cmd c = Some text -> analysis_at w i (k + j) cond c = Some d ->
       command_results st' !! text = Some (verdict d)) /\
    (forall t, Some t ∉ map cmd cs -> command_results st' !! t = command_results st !! t).
Proof.
  induction cs as [|c cs IH]; intros k st Hn Hnd Hcs.
  - exists [], st. simpl. repeat split; try done.
  - apply NoDup_cons in Hnd as [Hc Hnd].
    destruct (Hcs O c eq_refl) as (text & d & Hcmd & Ht & Ha & Hp).
    rewrite Nat.add_0_r in Ha.
    destruct (scan_run_one w i k name cond c text d Hn Hcmd Ht Ha Hp) as (evs & Hone & Hscan).
    destruct (IH (S k) (Scan (<[text := verdict d]> (command_results st)) (Some text))
                Hn Hnd) as (evs' & st' & Hrun & Hscan' & Hin & Hout).
    { intros j c' Hj. destruct (Hcs (S j) c' Hj) as (text' & d' & ? & ? & Ha' & ?).
      exists text', d'. replace (S k + j)%nat with (k + S j)%nat by lia. done. }
    exists (evs ++ evs'), st'. cbn [run_commands]. rewrite Hone, Hrun.
    split; [done|]. split.
    { rewrite List.filter_app, scan_from_app, Hscan. done. }
    split.
    + intros [|j] c' text' d' Hj Hcmd' Ha'.
      * injection Hj as <-. rewrite Nat.add_0_r in Ha'. simplify_eq.
        rewrite Hout. { cbn. apply lookup_insert_eq. }
        by rewrite <- Hcmd.
      * apply (Hin j c' text' d' Hj Hcmd').
        by replace (S k + j)%nat with (k + S j)%nat by lia.
    + intros t Ht'. rewrite Hout.
      * cbn. apply lookup_insert_ne. intros ->. apply Ht'. rewrite <- Hcmd. simpl. left.
      * intros Hin'. apply Ht'. simpl. by right.
Qed.

Lemma scan_process_node w i node cond cs st :
  plain (node_name_of node) = true ->
  (exists opts conn, connect_options_of w node = Returns opts /\
                     ssh_connect w i opts = Returns conn) ->
  NoDup (map cmd cs) ->
  (forall k c, cs !! k = Some c ->
     exists text d, cmd c = Some text /\ tidy text = true /\
                    analysis_at w i k cond c = Some d /\
                    plain (summary_text d) = true) ->
  exists st',
    snd (process_node w i node cs cond) = Done /\
    scan_from st (List.filter is_step (fst (process_node w i node cs cond))) = Returns st' /\
    (forall k c text d,
       cs !! k = Some c -> cmd c = Some text -> analysis_at w i k cond c = Some d ->
       command_results st' !! text = Some (verdict d)).
Proof.
  intros Hn (opts & conn & Ho & Hconn) Hnd Hcs.
  destruct (scan_run_commands w i (node_name_of node) cond cs O st Hn Hnd Hcs)
    as (evs & st' & Hrun & Hscan & Hin & _).
  exists st'. unfold process_node, process_node_try. rewrite Ho, Hconn, Hrun.
  split; [done|]. split; [|exact Hin].
  cbn [fst]. change (List.filter is_step (ev_connecting _ :: ev_connected _ :: evs))
    with (ev_connecting (node_name_of node) :: ev_connected (node_name_of node)
            :: List.filter is_step evs).
  cbn [scan_from]. rewrite scan_connecting by done. cbn [mbind outcome_bind].
  rewrite scan_connected by done. done.
Qed.

Lemma scan_nodes w cond cs nodes : forall i st,
  NoDup (map cmd cs) ->
  (forall a node, nodes !! a = Some node ->
     plain (node_name_of node) = true /\
     exists opts conn, connect_options_of w node = Returns opts /\
                       ssh_connect w (i + a) opts = Returns conn) ->
  (forall a k node c, nodes !! a = Some node -> cs !! k = Some c ->
     exists text d, cmd c = Some text /\ tidy text = true /\
                    analysis_at w (i + a) k cond c = Some d /\
                    plain (summary_text d) = true) ->
  exists st',
    snd (sequential_runner w cs cond i nodes) = Done /\
    scan_from st (List.filter is_step
                    (concat (imap (fun a node => fst (process_node w (i + a) node cs cond))
                                  nodes))) = Returns st' /\
    (nodes <> [] ->
     forall k c text d,
       cs !! k = Some c -> cmd c = Some text ->
       analysis_at w (i + (length nodes - 1)) k cond c = Some d ->
       command_results st' !! text = Some (verdict d)).
Proof.
  induction nodes as [|node rest IH]; intros i st Hnd Hnodes Hcs.
  - exists st. by repeat split.
  - destruct (Hnodes O node eq_refl) as (Hn & Hconn). rewrite Nat.add_0_r in Hconn.
    destruct (scan_process_node w i node cond cs st Hn Hconn Hnd) as (st1 & Hd & Hscan & Hin).
    { intros k c Hk. specialize (Hcs O k node c eq_refl Hk). by rewrite Nat.add_0_r in Hcs. }
    destruct (IH (S i) st1 Hnd) as (st' & Hd' & Hscan' & Hlast).
    { intros a node' Ha. specialize (Hnodes (S a) node' Ha).
      by replace (S i + a)%nat with (i + S a)%nat by lia. }
    { intros a k node' c Ha Hk. specialize (Hcs (S a) k node' c Ha Hk).
      by replace (S i + a)%nat with (i + S a)%nat by lia. }
    exists (match rest with [] => st1 | _ => st' end).
    split; [|split].
    + cbn [sequential_runner].
      destruct (process_node w i node cs cond) as [evs t]; simpl in Hd; subst t.
      by destruct (sequential_runner w cs cond (S i) rest) as [evs' t'].
    + cbn [imap concat]. rewrite Nat.add_0_r, List.filter_app, scan_from_app, Hscan.
      cbn [mbind outcome_bind].
      assert (Heq : forall l : list node_config,
                 imap ((fun a node0 => fst (process_node w (i + a) node0 cs cond)) ∘ S) l =
                 imap (fun a node0 => fst (process_node w (S i + a) node0 cs cond)) l).
      { intros l. apply imap_ext. intros a x _. simpl.
        by replace (i + S a)%nat with (S (i + a))%nat by lia. }
      rewrite Heq. destruct rest; [|done]. simpl in *. by simplify_eq.
    + intros _ k c text d Hk Hc Ha. destruct rest as [|node' rest'].
      * simpl in Ha. rewrite Nat.add_0_r in Ha. by apply (Hin k c text d).
      * apply (Hlast ltac:(done) k c text d Hk Hc).
        cbn [length] in *. by replace (S i + (S (length rest') - 1))%nat
          with (i + (S (S (length rest')) - 1))%nat by lia.
Qed.

(** *** The rows *)

Lemma report_rows_length results nodes cs :
  length (report_rows results nodes cs) = (length nodes * length cs)%nat.
Proof.
  unfold report_rows. induction nodes as [|node rest IH]; [done|].
  simpl. by rewrite length_app, length_map, IH.
Qed.

Lemma report_rows_lookup results cs nodes : forall a k node c,
  nodes !! a = Some node -> cs !! k = Some c ->
  report_rows results nodes cs !! (a * length cs + k)%nat = Some (report_row results node c).
Proof.
  unfold report_rows. induction nodes as [|node0 rest IH]; intros a k node c Ha Hk; [done|].
  cbn [flat_map]. destruct a as [|a].
  - injection Ha as ->. simpl. rewrite lookup_app_l.
    + by rewrite list_lookup_fmap, Hk.
    + rewrite length_map. by eapply lookup_lt_Some.
  - simpl in Ha. rewrite lookup_app_r; rewrite length_map; [|lia].
    replace (S a * length cs + k - length cs)%nat with (a * length cs + k)%nat by lia.
    by apply IH.
Qed.

(** *** From the run to the report *)

Lemma prompt_run_run ls : forall s0 s1, prompt_run ls s0 = Some s1 -> run ls s0 = Some s1.
Proof.
  induction ls as [|l ls IH]; intros s0 s1; simpl; [done|].
  destruct (prompt_step l s0) as [s2|] eqn:Hs; [|done].
  apply OrchestratorFacts.prompt_step_step in Hs as [-> _]. apply IH.
Qed.

Lemma sequential_timeline w mode nodes cs cond ls s :
  String.eqb mode "parallel" = false ->
  snd (sequential_runner w cs cond O nodes) = Done ->
  prompt_run ls (start (spawn w mode nodes cs cond)) = Some s ->
  ph s = Finalized ->
  timeline s =
    List.filter is_step
      (concat (imap (fun a node => fst (process_node w a node cs cond)) nodes)).
Proof.
  intros Hmode Hdone Hrun Hf.
  rewrite (OrchestratorFacts.prompt_run_steps_only _ _ _ Hrun). f_equal.
  assert (Hr : reachable (spawn w mode nodes cs cond) s).
  { exists ls. by apply prompt_run_run. }
  unfold spawn in Hr. rewrite Hmode in Hr.
  pose proof (ConsumerFacts.sequential_runner_tagged w cs cond nodes O) as Htag.
  pose proof (OrchestratorFacts.sequential_runner_complete w cs cond nodes O Hdone) as Hcomp.
  destruct (sequential_runner w cs cond O nodes) as [items t]; simpl in *.
  assert (Hwt : well_tagged [Task items t]).
  { intros [|j] t0 Hj; simplify_eq/=. done. }
  destruct (OrchestratorFacts.single_task_run _ _ _ Htag Hr) as (rest & Hts & Heq).
  pose proof (ConsumerFacts.inv_reachable _ _ Hwt Hr) as [_ _ _ _ _ _ Hph Hfin].
  specialize (Hph ltac:(congruence)). rewrite Hts in Hph.
  apply Forall_cons in Hph as [Hd _]. unfold done in Hd. simpl in Hd.
  destruct rest; [|done].
  rewrite (Hfin Hf) in Heq. simpl in Heq. rewrite app_nil_r in Heq.
  by rewrite Heq, Hcomp.
Qed.

(** X24.  The report has one row for each node and each command of the
    rule, node after node, and what a row says about the outcome
    (deviation status and remarks, execution status, parser result) is
    looked up by the text of the command alone: the rows of two nodes for
    the same command say the same, whatever the timeline holds. *)
Theorem report_rows_do_not_tell_nodes_apart
    (db : Db) (latest : option Z) (openpyxl : bool) (rule_id : Z)
    (rule : AutomationRule) (execution_id : option Z) (status : string) (rows : list row) :
  rules db !! rule_id = Some rule ->
  get_report db latest openpyxl rule_id "json" = Returns (Json execution_id status rows) ->
  length rows = (length (nodes_json rule) * length (commands_json rule))%nat /\
  forall a b k node node' c,
    nodes_json rule !! a = Some node -> nodes_json rule !! b = Some node' ->
    commands_json rule !! k = Some c ->
    exists r r',
      rows !! (a * length (commands_json rule) + k)%nat = Some r /\
      rows !! (b * length (commands_json rule) + k)%nat = Some r' /\
      Nodename r = default "Unknown" (nc_name node) /\
      Nodename r' = default "Unknown" (nc_name node') /\
      Command r = default "N/A" (cmd c) /\ Command r' = Command r /\
      Deviationstatus r' = Deviationstatus r /\
      Deviationremarks r' = Deviationremarks r /\
      Executionstatus r' = Executionstatus r /\
      Parserresult r' = Parserresult r.
Proof.
  intros Hrule Hrep. unfold get_report in Hrep. rewrite Hrule in Hrep.
  destruct (scan _) as [st|e]; [|done]. simpl in Hrep. injection Hrep as _ _ <-.
  split; [apply report_rows_length|].
  intros a b k node node' c Ha Hb Hk.
  exists (report_row (command_results st) node c), (report_row (command_results st) node' c).
  split; [by apply report_rows_lookup|]. split; [by apply report_rows_lookup|]. done.
Qed.

Lemma report_rows_do_not_tell_nodes_apart_witness :
  length ReportSamples.reported_rows = (2 * 2)%nat /\
  forall a b k node node' c,
    [Examples.n1; Examples.n2] !! a = Some node -> [Examples.n1; Examples.n2] !! b = Some node' ->
    [Examples.uptime; Examples.df] !! k = Some c ->
    exists r r',
      ReportSamples.reported_rows !! (a * 2 + k)%nat = Some r /\
      ReportSamples.reported_rows !! (b * 2 + k)%nat = Some r' /\
      Nodename r = default "Unknown" (nc_name node) /\
      Nodename r' = default "Unknown" (nc_name node') /\
      Command r = default "N/A" (cmd c) /\ Command r' = Command r /\
      Deviationstatus r' = Deviationstatus r /\
      Deviationremarks r' = Deviationremarks r /\
      Executionstatus r' = Executionstatus r /\
      Parserresult r' = Parserresult r.
Proof.
  apply (report_rows_do_not_tell_nodes_apart ReportSamples.db_reported (Some 0) true 1 ReportSamples.two_nodes
           (Some 0) "completed" ReportSamples.reported_rows).
  - reflexivity.
  - vm_compute. reflexivity.
Defined.

(** X25.  As long as the latest execution of a rule has an empty
    timeline (the rule was never executed, or [execute_rule] has just
    created the record and the stream has not finalized it), the report
    answers with every row "OK", not executed and without remarks; with no
    execution at all its status is "not_executed". *)
Theorem report_without_timeline
    (db : Db) (latest : option Z) (openpyxl : bool) (rule_id : Z) (rule : AutomationRule) :
  rules db !! rule_id = Some rule ->
  (forall id e, latest = Some id -> rule_executions db !! id = Some e ->
                timeline_json e = []) ->
  exists execution_id status rows,
    get_report db latest openpyxl rule_id "json" = Returns (Json execution_id status rows) /\
    (latest = None -> execution_id = None /\ status = "not_executed") /\
    length rows = (length (nodes_json rule) * length (commands_json rule))%nat /\
    Forall (fun r => Deviationstatus r = "OK" /\ Deviationremarks r = PStr "-" /\
                     Executionstatus r = "-" /\ Executionremarks r = "-" /\
                     Parserresult r = "-") rows.
Proof.
  intros Hrule Hempty. unfold get_report. rewrite Hrule.
  assert (Ht : match match latest with
                     | Some id => (fun e => (id, e)) <$> rule_executions db !! id
                     | None => None
                     end with
               | Some (_, e) => timeline_json e
               | None => []
               end = []).
  { destruct latest as [id|]; [|done].
    destruct (rule_executions db !! id) as [e|] eqn:He; [|done]. simpl. by eapply Hempty. }
  rewrite Ht. cbn [scan scan_from mbind outcome_bind command_results String.eqb].
  change (String.eqb "json" "json") with true. cbv iota.
  eexists _, _, _. split; [done|]. split; [by intros ->|].
  split; [apply report_rows_length|].
  unfold report_rows. apply Forall_forall. intros r Hr.
  apply list_elem_of_In, in_flat_map in Hr as (node & _ & Hr).
  apply in_map_iff in Hr as (c & <- & _).
  unfold report_row. rewrite lookup_empty. cbn.
  by rewrite andb_false_r.
Qed.

Lemma report_without_timeline_witness :
  exists execution_id status rows,
    get_report (Examples.db_running ReportSamples.two_nodes) (Some 0) true 1 "json"
      = Returns (Json execution_id status rows) /\
    (Some 0 = None -> execution_id = None /\ status = "not_executed") /\
    length rows = (2 * 2)%nat /\
    Forall (fun r => Deviationstatus r = "OK" /\ Deviationremarks r = PStr "-" /\
                     Executionstatus r = "-" /\ Executionremarks r = "-" /\
                     Parserresult r = "-") rows.
Proof.
  apply (report_without_timeline (Examples.db_running ReportSamples.two_nodes) (Some 0) true 1 ReportSamples.two_nodes).
  - reflexivity.
  - intros id e [= <-] He. vm_compute in He. by injection He as <-.
Defined.

(** X26.  For a rule that only has the legacy [command] column, the
    stream runs that command, and the report, which reads [commands_json]
    alone, has no row at all. *)
Theorem legacy_rule_report_is_empty
    (db : Db) (latest : option Z) (openpyxl : bool) (rule_id : Z) (rule : AutomationRule)
    (legacy : string) (execution_id : option Z) (status : string) (rows : list row) :
  rules db !! rule_id = Some rule ->
  commands_json rule = [] -> command rule = Some legacy -> legacy <> "" ->
  get_report db latest openpyxl rule_id "json" = Returns (Json execution_id status rows) ->
  map cmd (commands_config_of rule) = [Some legacy] /\ rows = [].
Proof.
  intros Hrule Hcs Hl Hne Hrep. split.
  - unfold commands_config_of. rewrite Hcs, Hl. by destruct legacy.
  - unfold get_report in Hrep. rewrite Hrule in Hrep.
    destruct (scan _) as [st|e]; [|done]. simpl in Hrep. injection Hrep as _ _ <-.
    unfold report_rows. rewrite Hcs. induction (nodes_json rule); [done|]. done.
Qed.

Lemma legacy_rule_report_is_empty_witness :
  map cmd (commands_config_of ReportSamples.legacy_rule) = [Some "uptime"] /\ @nil row = [].
Proof.
  apply (legacy_rule_report_is_empty (Examples.db_of ReportSamples.legacy_rule) None true 1 ReportSamples.legacy_rule "uptime"
           None "not_executed" []).
  - reflexivity.
  - reflexivity.
  - reflexivity.
  - discriminate.
  - vm_compute. reflexivity.
Defined.

(** X27.  The report of a sequential run shows the last node only.  When
    every command ends on every node and is analysed (names, command
    texts and summaries without the markers that the report looks for,
    no command text twice), in a run in which the timer of the consumer
    loop fires on an empty queue only, the report of the finalized
    execution is "completed", and the row of every node for a command has
    the verdict that the analysis gave for that command on the last node
    of the plan. *)
Theorem report_shows_last_node
    (w : World) (db : Db) (execution_id : Z) (execution : RuleExecution)
    (rule : AutomationRule) (ls : list label) (s : orch) (openpyxl : bool) :
  rules db !! rule_id execution = Some rule ->
  String.eqb (str_or (execution_mode rule) "sequential") "parallel" = false ->
  commands_config_of rule = commands_json rule ->
  NoDup (map cmd (commands_json rule)) ->
  (forall a node, nodes_json rule !! a = Some node ->
     plain (node_name_of node) = true /\
     exists opts conn, connect_options_of w node = Returns opts /\
                       ssh_connect w a opts = Returns conn) ->
  (forall a k node c, nodes_json rule !! a = Some node -> commands_json rule !! k = Some c ->
     exists text d, cmd c = Some text /\ tidy text = true /\
                    analysis_at w a k (str_or (condition rule) "Check for errors") c = Some d /\
                    plain (summary_text d) = true) ->
  prompt_run ls (start (tasks_of w rule)) = Some s ->
  ph s = Finalized ->
  exists rows,
    get_report (finalize db execution_id execution s) (Some execution_id) openpyxl
               (rule_id execution) "json"
      = Returns (Json (Some execution_id) "completed" rows) /\
    length rows = (length (nodes_json rule) * length (commands_json rule))%nat /\
    forall a k node c text d,
      nodes_json rule !! a = Some node -> commands_json rule !! k = Some c ->
      cmd c = Some text ->
      analysis_at w (length (nodes_json rule) - 1) k
                  (str_or (condition rule) "Check for errors") c = Some d ->
      exists r,
        rows !! (a * length (commands_json rule) + k)%nat = Some r /\
        Nodename r = default "Unknown" (nc_name node) /\
        Command r = text /\
        Deviationstatus r = (if Py.truthy (Py.get "condition_met" d) then "NOK" else "OK") /\
        Deviationremarks r = remarks (verdict d) /\
        Executionstatus r = "Executed".
Proof.
  intros Hrule Hmode Hcfg Hnd Hnodes Hcs Hrun Hf.
  destruct (scan_nodes w (str_or (condition rule) "Check for errors") (commands_json rule)
              (nodes_json rule) O (Scan ∅ None) Hnd Hnodes Hcs) as (st' & Hdone & Hscan & Hlast).
  cbn [Nat.add] in Hscan, Hlast.
  unfold tasks_of in Hrun. rewrite Hcfg in Hrun.
  pose proof (sequential_timeline _ _ _ _ _ _ _ Hmode Hdone Hrun Hf) as Ht.
  exists (report_rows (command_results st') (nodes_json rule) (commands_json rule)).
  split; [|split; [apply report_rows_length|]].
  - unfold get_report, finalize. cbn [rules rule_executions]. rewrite Hrule.
    rewrite lookup_insert_eq. cbn [fmap option_fmap option_map timeline_json].
    unfold scan. rewrite Ht, Hscan. done.
  - intros a k node c text d Ha Hk Hc Hd.
    exists (report_row (command_results st') node c).
    split; [by apply report_rows_lookup|].
    assert (Hl : command_results st' !! text = Some (verdict d)).
    { apply (Hlast ltac:(by intros E; rewrite E in Ha) k c text d Hk Hc Hd). }
    unfold report_row. rewrite Hc. cbn [default id]. rewrite Hl.
    cbn [Nodename Command Deviationstatus Deviationremarks Executionstatus].
    rewrite verdict_executed. repeat split; try done.
    unfold verdict. by destruct (Py.truthy _).
Qed.

Lemma report_shows_last_node_witness :
  exists rows,
    get_report ReportSamples.db_reported (Some 0) true 1 "json"
      = Returns (Json (Some 0) "completed" rows) /\
    length rows = (2 * 2)%nat /\
    forall a k node c text d,
      [Examples.n1; Examples.n2] !! a = Some node -> [Examples.uptime; Examples.df] !! k = Some c ->
      cmd c = Some text ->
      analysis_at ReportSamples.w_first_critical 1 k "Check for errors" c = Some d ->
      exists r,
        rows !! (a * 2 + k)%nat = Some r /\
        Nodename r = default "Unknown" (nc_name node) /\
        Command r = text /\
        Deviationstatus r = (if Py.truthy (Py.get "condition_met" d) then "NOK" else "OK") /\
        Deviationremarks r = remarks (verdict d) /\
        Executionstatus r = "Executed".
Proof.
  apply (report_shows_last_node ReportSamples.w_first_critical (Examples.db_running ReportSamples.two_nodes) 0 Examples.new_execution
           ReportSamples.two_nodes (Examples.lockstep 22)
           (Examples.state_after (Examples.lockstep 22) (tasks_of ReportSamples.w_first_critical ReportSamples.two_nodes)) true).
  - reflexivity.
  - reflexivity.
  - reflexivity.
  - apply (bool_decide_unpack _). vm_compute. exact I.
  - intros [|[|a]] node Ha; simplify_eq/=;
      (split; [vm_compute; reflexivity|eexists _, _; split; reflexivity]).
  - intros [|[|a]] [|[|k]] node c Ha Hk; simplify_eq/=;
      eexists _, _; (split; [reflexivity|]); (split; [vm_compute; reflexivity|]);
      (split; [vm_compute; reflexivity|vm_compute; reflexivity]).
  - vm_compute. reflexivity.
  - vm_compute. reflexivity.
Defined.

End ReportFacts.

(** ** [chat_api.py]: the upload of a file of nodes *)

Module UploadFacts.

Import Upload.

Lemma get_or_complete k s row :
  complete row -> exists t, Py.get_or k (PStr s) row = PStr t.
Proof.
  intros H. unfold Py.get_or. induction H as [|[k' v] row (t & Ht) _ IH]; simpl.
  - by exists s.
  - simpl in Ht. subst v. destruct (String.eqb _ _); [by exists t|]. exact IH.
Qed.

Lemma get_or_present k v default row :
  Py.lookup k row = Some v -> Py.get_or k default row = v.
Proof. intros H. unfold Py.get_or. by rewrite H. Qed.

(** The node of a line with all its fields. *)
Lemma node_of_row_complete row :
  complete row ->
  exists h n u t,
    Py.get_or "hostname" (Py.get_or "ip" (Py.get_or "host" (PStr "") row) row) row = PStr h /\
    node_of_row row =
      Returns [("hostname", PStr (Py.strip h)); ("name", PStr n);
               ("auth", PDict [("username", PStr u); ("type", PStr t)])].
Proof.
  intros Hc. unfold node_of_row.
  destruct (get_or_complete "host" "" row Hc) as (h0 & ->).
  destruct (get_or_complete "ip" h0 row Hc) as (h1 & ->).
  destruct (get_or_complete "hostname" h1 row Hc) as (h & ->).
  destruct (get_or_complete "ip" "" row Hc) as (n0 & ->).
  destruct (get_or_complete "hostname" n0 row Hc) as (n1 & ->).
  destruct (get_or_complete "name" n1 row Hc) as (n & ->).
  destruct (get_or_complete "user" "ubuntu" row Hc) as (u0 & ->).
  destruct (get_or_complete "username" u0 row Hc) as (u & ->).
  destruct (get_or_complete "auth_type" "key" row Hc) as (t & ->).
  by exists h, (Py.strip n), (Py.strip u), (Py.strip t).
Qed.

Lemma nodes_of_rows_complete rows :
  Forall complete rows ->
  exists nodes,
    nodes_of_rows rows = Returns nodes /\ (length nodes <= length rows)%nat /\
    Forall (fun node => exists h, Py.get "hostname" node = PStr h /\ h <> "") nodes.
Proof.
  induction 1 as [|row rows Hc _ (nodes & Hn & Hlen & Hall)].
  - exists []. by repeat split.
  - destruct (node_of_row_complete row Hc) as (h & n & u & t & _ & Hrow).
    cbn [nodes_of_rows]. rewrite Hrow, Hn. cbn [mbind outcome_bind].
    assert (Hget : forall x y, Py.get "hostname"
                     [("hostname", PStr (Py.strip h)); ("name", x); ("auth", y)]
                   = PStr (Py.strip h)) by done.
    rewrite Hget. cbn [Py.truthy].
    destruct (String.eqb_spec (Py.strip h) "") as [He|He]; cbn [negb].
    + exists nodes. split; [done|]. split; [simpl; lia|done].
    + eexists. split; [done|]. split; [simpl; lia|].
      constructor; [|done]. exists (Py.strip h). by rewrite Hget.
Qed.

Lemma nodes_of_rows_app before : forall after,
  nodes_of_rows (before ++ after) =
    l ← nodes_of_rows before; r ← nodes_of_rows after; Returns (l ++ r).
Proof.
  induction before as [|row before IH]; intros after.
  - simpl. by destruct (nodes_of_rows after).
  - cbn [app nodes_of_rows]. destruct (node_of_row row) as [node|e]; [|done].
    cbn [mbind outcome_bind]. rewrite IH.
    destruct (nodes_of_rows before) as [l|e]; [|done]. cbn [mbind outcome_bind].
    destruct (nodes_of_rows after) as [r|e]; [|done]. cbn [mbind outcome_bind].
    by destruct (Py.truthy _).
Qed.

Lemma drop_drop_one n : forall f, Py.drop 1 (Py.drop n f) = Py.drop (S n) f.
Proof.
  induction n as [|n IH]; intros [|a f]; try done. apply IH.
Qed.

(** X28.  Every [HTTPException] that [upload_nodes_file] raises has
    status 400.  The one with status 500 that it raises when an Excel file
    is sent and [openpyxl] is not installed is caught by its own
    [except Exception] clause, and what the client gets is a 400 whose
    detail quotes that exception. *)
Theorem upload_errors_are_400
    (str_http : Z -> string -> string) (file_filename : option string)
    (csv_rows : outcome (list pydict)) (openpyxl : bool) :
  (forall status_code detail,
     upload_nodes_file str_http file_filename csv_rows openpyxl
       = HTTPException status_code detail -> status_code = 400) /\
  (forall original,
     file_filename = Some original ->
     PyText.endswith ".xlsx" (PyText.lower original) = true ->
     openpyxl = false ->
     upload_nodes_file str_http file_filename csv_rows openpyxl =
       HTTPException 400
         ("Failed to parse file: " +:+
          str_http 500 "Excel parsing requires openpyxl. Install with: pip install openpyxl")).
Proof.
  split.
  - intros code detail. unfold upload_nodes_file.
    destruct file_filename as [[|c original]|]; try by intros [= <- _].
    destruct (negb _); [by intros [= <- _]|].
    destruct (PyText.endswith ".csv" _).
    + destruct (_ ← csv_rows; nodes_of_rows _) as [[|node nodes]|e]; by intros [= <- _].
    + destruct openpyxl; [done|]. by intros [= <- _].
  - intros original -> Hx ->. unfold upload_nodes_file.
    destruct original as [|c original]; [done|].
    unfold is_excel_or_csv. rewrite Hx, orb_true_r. cbn [negb orb].
    destruct (PyText.endswith ".csv" _) eqn:Hcsv; [|done].
    exfalso. revert Hx Hcsv. generalize (PyText.lower (String c original)). intros f.
    unfold PyText.endswith. rewrite !andb_true_iff, !String.eqb_eq. intros [Hl1 H1] [Hl2 H2].
    apply Nat.leb_le in Hl1, Hl2. cbn [String.length] in *.
    pose proof (drop_drop_one (String.length f - 5) f) as Hd.
    replace (S (String.length f - 5)) with (String.length f - 4)%nat in Hd by lia.
    rewrite H1, H2 in Hd. done.
Qed.

(** X29.  One short line rejects the whole CSV file.  When the lines
    before it have all their fields and a line is too short for the
    "hostname" column, no node is imported, not even from the lines that
    are complete: the answer is a 400 that quotes the [AttributeError]. *)
Theorem upload_short_line_rejects_file
    (str_http : Z -> string -> string) (original : string)
    (before after : list pydict) (row : pydict) (openpyxl : bool) :
  original <> "" ->
  PyText.endswith ".csv" (PyText.lower original) = true ->
  Forall complete before ->
  Py.lookup "hostname" row = Some PNone ->
  upload_nodes_file str_http (Some original) (Returns (before ++ row :: after)) openpyxl =
    HTTPException 400 "Failed to parse file: 'NoneType' object has no attribute 'strip'".
Proof.
  intros Hne Hcsv Hb Hrow. unfold upload_nodes_file.
  destruct original as [|c original]; [done|].
  unfold is_excel_or_csv. rewrite Hcsv. cbn [orb negb mbind outcome_bind].
  rewrite nodes_of_rows_app.
  destruct (nodes_of_rows_complete before Hb) as (nodes & -> & _).
  cbn [mbind outcome_bind nodes_of_rows]. unfold node_of_row.
  by rewrite !(get_or_present "hostname" PNone _ row Hrow).
Qed.

Lemma upload_short_line_rejects_file_witness :
  upload_nodes_file UploadSamples.str_http (Some "Nodes.CSV")
    (Returns ([UploadSamples.full_line] ++ UploadSamples.short_line
                :: [UploadSamples.full_line])) true =
    HTTPException 400 "Failed to parse file: 'NoneType' object has no attribute 'strip'".
Proof.
  apply (upload_short_line_rejects_file UploadSamples.str_http "Nodes.CSV"
           [UploadSamples.full_line] [UploadSamples.full_line] UploadSamples.short_line true).
  - discriminate.
  - vm_compute. reflexivity.
  - repeat constructor; by eexists.
  - reflexivity.
Defined.

(** X30.  From a CSV file whose lines have all their fields, the nodes
    imported are at most as many as the lines and each has a host name
    that is not empty; the answer counts them and previews the first
    five, or is a 400 when there is none.  A line whose "hostname" field
    is blank is dropped, whatever its "ip" and "host" fields hold: the
    file without that line imports the same nodes. *)
Theorem upload_csv_nodes
    (str_http : Z -> string -> string) (original : string) (rows : list pydict)
    (openpyxl : bool) :
  original <> "" ->
  PyText.endswith ".csv" (PyText.lower original) = true ->
  Forall complete rows ->
  exists nodes,
    nodes_of_rows rows = Returns nodes /\
    (length nodes <= length rows)%nat /\
    Forall (fun node => exists h, Py.get "hostname" node = PStr h /\ h <> "") nodes /\
    upload_nodes_file str_http (Some original) (Returns rows) openpyxl =
      (if decide (nodes = [])
       then HTTPException 400 "No valid nodes found in file"
       else Imported (Z.of_nat (length nodes)) nodes (take 5 nodes)
              ("Imported " +:+ Py.str_int (Z.of_nat (length nodes)) +:+ " nodes from "
               +:+ original)
              ("Run health check on all " +:+ Py.str_int (Z.of_nat (length nodes))
               +:+ " imported nodes")) /\
    forall before row after h,
      rows = before ++ row :: after ->
      Py.lookup "hostname" row = Some (PStr h) -> Py.strip h = "" ->
      nodes_of_rows (before ++ after) = Returns nodes.
Proof.
  intros Hne Hcsv Hrows.
  destruct (nodes_of_rows_complete rows Hrows) as (nodes & Hn & Hlen & Hall).
  exists nodes. repeat split; try done.
  - unfold upload_nodes_file. destruct original as [|c original]; [done|].
    unfold is_excel_or_csv. rewrite Hcsv. cbn [orb negb mbind outcome_bind]. rewrite Hn.
    by destruct nodes.
  - intros before row after h -> Hh Hblank.
    apply Forall_app in Hrows as [Hb Hra]. apply Forall_cons in Hra as [Hr Ha].
    rewrite nodes_of_rows_app in Hn |- *.
    destruct (nodes_of_rows before) as [l|e]; [|done]. cbn [mbind outcome_bind] in *.
    cbn [nodes_of_rows] in Hn.
    destruct (node_of_row_complete row Hr) as (h' & n & u & t & Hget & Hrow).
    rewrite !(get_or_present "hostname" (PStr h) _ row Hh) in Hget. injection Hget as <-.
    rewrite Hrow, Hblank in Hn. cbn [mbind outcome_bind] in Hn.
    destruct (nodes_of_rows after) as [r|e]; [|done]. exact Hn.
Qed.

Lemma upload_csv_nodes_witness :
  exists nodes,
    nodes_of_rows [UploadSamples.full_line; UploadSamples.blank_line] = Returns nodes /\
    (length nodes <= 2)%nat /\
    Forall (fun node => exists h, Py.get "hostname" node = PStr h /\ h <> "") nodes /\
    upload_nodes_file UploadSamples.str_http (Some "nodes.csv")
      (Returns [UploadSamples.full_line; UploadSamples.blank_line]) false =
      (if decide (nodes = [])
       then HTTPException 400 "No valid nodes found in file"
       else Imported (Z.of_nat (length nodes)) nodes (take 5 nodes)
              ("Imported " +:+ Py.str_int (Z.of_nat (length nodes)) +:+ " nodes from "
               +:+ "nodes.csv")
              ("Run health check on all " +:+ Py.str_int (Z.of_nat (length nodes))
               +:+ " imported nodes")) /\
    forall before row after h,
      [UploadSamples.full_line; UploadSamples.blank_line] = before ++ row :: after ->
      Py.lookup "hostname" row = Some (PStr h) -> Py.strip h = "" ->
      nodes_of_rows (before ++ after) = Returns nodes.
Proof.
  apply (upload_csv_nodes UploadSamples.str_http "nodes.csv"
           [UploadSamples.full_line; UploadSamples.blank_line] false).
  - discriminate.
  - vm_compute. reflexivity.
  - repeat constructor; by eexists.
Defined.

End UploadFacts.
